(* ===================================================================== *)
(* Micro-Downloader: the download orchestration of src/main.py            *)
(*                                                                        *)
(* A shallow embedding of the methods of YouTubeDownloaderGUI that make   *)
(* up the download engine (_get_format_string, _update_quality_options,   *)
(* _start_download, _stop_download, _reset_download_state, the progress   *)
(* hook and _download_video), followed by the properties of the           *)
(* specification that concern them.                                       *)
(*                                                                        *)
(* Conventions of the embedding                                           *)
(*  - Python dicts coming from the backend are finite maps from strings   *)
(*    to scalar values (pyval); d.get(k) is py_get d k.                   *)
(*  - An operation that can raise returns a result (Ok v | Raise e).      *)
(*  - The fields of self that the engine reads or writes form the record  *)
(*    App; calls into Tk widgets and into the backend are appended to a   *)
(*    trace of effects carried by App.                                    *)
(*  - Python floats are idealised as exact rationals (Q). Byte counts     *)
(*    are integers.                                                       *)
(*  - A str is the sequence of the bytes of its UTF-8 encoding; split()   *)
(*    and strip() work on its characters, with the white space of         *)
(*    str.isspace().                                                      *)
(*  - The backend (yt_dlp), the interpreter and the user are an           *)
(*    environment: a script says, for each backend call, which progress   *)
(*    events arrive, at which points the user asks to stop, and how the   *)
(*    call ends; int() on a str is a function of the environment.         *)
(* ===================================================================== *)

From Stdlib Require Import Ascii String QArith Sorted.
From stdpp Require Import gmap strings list fin_maps pretty.

Local Open Scope string_scope.
Local Open Scope list_scope.

(* ===================================================================== *)
(** * Python values and exceptions                                        *)
(* ===================================================================== *)

Module Py.

(** Scalar values found in the dicts that yt_dlp hands to the program. *)
Inductive pyval : Type :=
| PNone
| PInt (z : Z)
| PStr (s : string).

(** The exceptions that the embedded code can meet. [Exception msg] is a
    plain [Exception(msg)] or any backend error whose [str()] is [msg]. *)
Inductive exn : Type :=
| IndexError
| TypeError
| ValueError
| ZeroDivisionError
| OverflowError
| Exception (msg : string).

Inductive result (A : Type) : Type :=
| Ok (a : A)
| Raise (e : exn).
Arguments Ok {A} a.
Arguments Raise {A} e.

Definition bind {A B} (r : result A) (k : A -> result B) : result B :=
  match r with
  | Ok a => k a
  | Raise e => Raise e
  end.

(** Truth value of a scalar: [None], [0] and [''] are falsy. *)
Definition truthy (v : pyval) : bool :=
  match v with
  | PNone => false
  | PInt z => negb (z =? 0)%Z
  | PStr s => negb (String.eqb s "")
  end.

(** [a or b] *)
Definition py_or (a b : pyval) : pyval := if truthy a then a else b.

(** [str(v)], as used by f-strings. *)
Definition py_str (v : pyval) : string :=
  match v with
  | PNone => "None"
  | PInt z => pretty z
  | PStr s => s
  end.

(** [d.get(k)]: [None] when the key is absent. *)
Definition py_get (d : gmap string pyval) (k : string) : pyval :=
  match d !! k with
  | Some v => v
  | None => PNone
  end.

(** [d.get(k, default)] *)
Definition py_get_default (d : gmap string pyval) (k : string) (default : pyval) : pyval :=
  match d !! k with
  | Some v => v
  | None => default
  end.

(** Truth value of a dict: the empty dict is falsy. *)
Definition dict_truthy (d : gmap string pyval) : bool :=
  negb (Nat.eqb (size d) 0).

(** [a / b]: true division of numbers. *)
Definition py_truediv (a b : pyval) : result Q :=
  match a, b with
  | PInt x, PInt y =>
      if (y =? 0)%Z then Raise ZeroDivisionError
      else Ok (inject_Z x / inject_Z y)%Q
  | _, _ => Raise TypeError
  end.

(** [int(v)]. What [int] makes of a str (the digits of which scripts it
    accepts, and how many of them) is the interpreter's: [int_str s] is
    the value of [int(s)], or the exception that it raises. *)
Definition py_int (int_str : string -> result Z) (v : pyval) : result Z :=
  match v with
  | PInt z => Ok z
  | PStr s => int_str s
  | PNone => Raise TypeError
  end.

(** [v == s] for a string literal [s]. *)
Definition py_eq_str (v : pyval) (s : string) : bool :=
  match v with
  | PStr s' => String.eqb s' s
  | _ => false
  end.

(** [str(e)] for the exceptions that reach the handler of the loop, which
    are of the form [Exception msg]. *)
Definition exn_str (e : exn) : string :=
  match e with
  | Exception msg => msg
  | _ => ""
  end.

(** ** Strings *)

(** A str is the sequence of the bytes of its UTF-8 encoding. Equality,
    [in] and [replace] on these sequences are the ones on characters;
    [split()] and [strip()] look at characters, which are recovered from
    the bytes by [chars]. *)

(** A byte of the form 10xxxxxx, which continues a character. *)
Definition is_continuation (c : ascii) : bool :=
  let n := nat_of_ascii c in
  Nat.leb 128 n && Nat.ltb n 192.

(** The characters of a str, each as the bytes that encode it: a byte
    with the continuation bytes that follow it. *)
Fixpoint chars (s : string) : list string :=
  match s with
  | EmptyString => []
  | String c s' =>
      match s' with
      | EmptyString => [String c EmptyString]
      | String c' _ =>
          if is_continuation c' then
            match chars s' with
            | ch :: rest => String c ch :: rest
            | [] => [String c EmptyString]
            end
          else String c EmptyString :: chars s'
      end
  end.

Definition utf8 (bytes : list nat) : string :=
  string_of_list_ascii (ascii_of_nat <$> bytes).

(** The characters that [str.split()] and [str.strip()] treat as white
    space, those for which [str.isspace()] holds: U+0009 to U+000D,
    U+001C to U+001F, U+0020, U+0085, U+00A0, U+1680, U+2000 to U+200A,
    U+2028, U+2029, U+202F, U+205F and U+3000. *)
Definition whitespace : list string :=
  utf8 <$>
    [[9]; [10]; [11]; [12]; [13]; [28]; [29]; [30]; [31]; [32];
     [194; 133]; [194; 160]; [225; 154; 128];
     [226; 128; 128]; [226; 128; 129]; [226; 128; 130]; [226; 128; 131];
     [226; 128; 132]; [226; 128; 133]; [226; 128; 134]; [226; 128; 135];
     [226; 128; 136]; [226; 128; 137]; [226; 128; 138];
     [226; 128; 168]; [226; 128; 169]; [226; 128; 175]; [226; 129; 159];
     [227; 128; 128]].

(** [ch.isspace()] for a character [ch]. *)
Definition py_isspace (ch : string) : bool :=
  existsb (String.eqb ch) whitespace.

Fixpoint split_go (acc : string) (l : list string) : list string :=
  match l with
  | [] => if String.eqb acc "" then [] else [acc]
  | ch :: l' =>
      if py_isspace ch
      then (if String.eqb acc "" then split_go "" l' else acc :: split_go "" l')
      else split_go (acc +:+ ch) l'
  end.

(** [s.split()]: the maximal runs of non-space characters. *)
Definition split (s : string) : list string := split_go "" (chars s).

(** The characters left when the leading white space is dropped. *)
Fixpoint drop_space (l : list string) : list string :=
  match l with
  | [] => []
  | ch :: l' => if py_isspace ch then drop_space l' else l
  end.

(** The characters left when the white space at both ends is dropped. *)
Definition trim (l : list string) : list string :=
  reverse (drop_space (reverse (drop_space l))).

(** The str made of the characters of [l]. *)
Definition join (l : list string) : string :=
  fold_right String.append EmptyString l.

(** [s.strip()] *)
Definition strip (s : string) : string := join (trim (chars s)).

(** [skip] characters of an occurrence of [old] remain to be dropped. *)
Fixpoint replace_go (old new : string) (skip : nat) (s : string) : string :=
  match s with
  | EmptyString => EmptyString
  | String c s' =>
      match skip with
      | S k => replace_go old new k s'
      | O =>
          if String.prefix old s
          then new +:+ replace_go old new (String.length old - 1) s'
          else String c (replace_go old new 0 s')
      end
  end.

(** [s.replace(old, new)] for a non-empty [old]: every occurrence, left
    to right, without overlap. *)
Definition replace (old new : string) (s : string) : string :=
  replace_go old new 0 s.

(** [sub in s] *)
Fixpoint contains (sub s : string) : bool :=
  String.prefix sub s ||
  match s with
  | EmptyString => false
  | String _ s' => contains sub s'
  end.

End Py.
Import Py.

(* ===================================================================== *)
(** * The application object                                              *)
(* ===================================================================== *)

(** The entry appended to [ydl_opts['postprocessors']]. *)
Inductive postprocessor : Type :=
| FFmpegVideoConvertor (preferedformat : string)
| FFmpegExtractAudio (preferredcodec preferredquality : string).

(** The part of [ydl_opts] that depends on the request; the remaining
    keys are constants. [outtmpl] is [save_path] joined with
    ["%(title)s.%(ext)s"]; [js_runtimes] is present iff [deno_ok]. *)
Record ydl_opts : Type := mkOpts {
  opt_format : string;
  opt_outtmpl_dir : string;
  opt_postprocessor : postprocessor;
  opt_js_runtimes : bool
}.

(** Text shown in the status bar. Each constructor is one of the strings
    (or f-string templates) that the program passes to [_update_status]. *)
Inductive status_text : Type :=
| TxtFetching                    (* "Fetching video info..." *)
| TxtPlaylist (title : pyval) (n : nat)
                                 (* f"Playlist: {title} ({n} videos)" *)
| TxtProgress (pos total : nat) (title : pyval) (progress : Q) (speed : option Z)
                                 (* f"[{pos}/{total}] {title}: {progress:.0f}%{speed_str}" *)
| TxtProcessing (pos total : nat)
                                 (* f"[{pos}/{total}] Processing..." *)
| TxtCancelled                   (* "Download cancelled" *)
| TxtCompleted (completed total : nat)
                                 (* f"Completed {completed}/{total} downloads!" *)
| TxtSomeFailed (completed total : nat)
                                 (* f"Completed {completed}/{total} (some failed)" *)
| TxtStopping.                   (* "Stopping..." *)

(** Calls that leave the engine, in the order they are made. *)
Inductive effect : Type :=
| EStatus (text : status_text) (status : string)   (* _update_status *)
| EProgress (p : Q)                                (* progress_var.set *)
| EBtnText (s : string)                            (* download_btn.set_text *)
| EBtnEnabled (b : bool)                           (* download_btn.set_enabled *)
| EShowError (title msg : string)                  (* messagebox.showerror *)
| EDependencyError                                 (* _show_dependency_error *)
| EThreadStart                                     (* Thread(target=_download_video).start() *)
| EUpdateIdle                                      (* root.update_idletasks *)
| EExtractInfo (url : string)                      (* ydl.extract_info(url, download=False) *)
| EDownload (opts : ydl_opts) (url : pyval)        (* YoutubeDL(opts).download([url]) *)
| EAskOpenFolder (single : bool)                   (* messagebox.askyesno("Success", ...) *)
| EOpenFolder (path : string).                     (* _open_folder *)

Record App : Type := mkApp {
  downloading : bool;
  stop_requested : bool;
  ffmpeg_ok : bool;
  deno_ok : bool;
  url_entry : string;
  save_path : string;
  format_type : string;
  quality_var : string;
  progress_var : Q;
  effects : list effect
}.

Definition emit (e : effect) (st : App) : App :=
  mkApp (downloading st) (stop_requested st) (ffmpeg_ok st) (deno_ok st)
        (url_entry st) (save_path st) (format_type st) (quality_var st)
        (progress_var st) (effects st ++ [e]).

Definition set_downloading (b : bool) (st : App) : App :=
  mkApp b (stop_requested st) (ffmpeg_ok st) (deno_ok st)
        (url_entry st) (save_path st) (format_type st) (quality_var st)
        (progress_var st) (effects st).

Definition set_stop_requested (b : bool) (st : App) : App :=
  mkApp (downloading st) b (ffmpeg_ok st) (deno_ok st)
        (url_entry st) (save_path st) (format_type st) (quality_var st)
        (progress_var st) (effects st).

(** [self.progress_var.set(p)] *)
Definition set_progress (p : Q) (st : App) : App :=
  emit (EProgress p)
    (mkApp (downloading st) (stop_requested st) (ffmpeg_ok st) (deno_ok st)
           (url_entry st) (save_path st) (format_type st) (quality_var st)
           p (effects st)).

(** [_update_status(text, status)] *)
Definition _update_status (text : status_text) (status : string) (st : App) : App :=
  emit (EStatus text status) st.

(* ===================================================================== *)
(** * Format selection                                                    *)
(* ===================================================================== *)

(** The list that [_update_quality_options] puts in the read-only
    quality combo box for a kind, and the default it selects. *)
Definition qualities (fmt : string) : list string :=
  if String.eqb fmt "video"
  then ["2160p (4K)"; "1440p (2K)"; "1080p (Full HD)";
        "720p (HD)"; "480p"; "360p"; "240p"; "144p"]
  else ["320kbps (High)"; "256kbps (Good)";
        "192kbps (Medium)"; "128kbps (Low)"].

Definition default_quality (fmt : string) : string :=
  if String.eqb fmt "video" then "1080p (Full HD)" else "320kbps (High)".

(** [_update_quality_options], the command of the two format radio
    buttons: the combo box shows [qualities] and its variable is set to
    the default. *)
Definition _update_quality_options (st : App) : App :=
  mkApp (downloading st) (stop_requested st) (ffmpeg_ok st) (deno_ok st)
        (url_entry st) (save_path st) (format_type st)
        (default_quality (format_type st))
        (progress_var st) (effects st).

(** [self.quality_var.get().split()[0]] *)
Definition first_token (label : string) : result string :=
  match split label with
  | tok :: _ => Ok tok
  | [] => Raise IndexError
  end.

Definition video_format (resolution : string) : string :=
  "bestvideo[height<=" +:+ resolution +:+ "]+bestaudio/best[height<=" +:+ resolution
  +:+ "]/bestvideo+bestaudio/best".

Definition audio_format (bitrate : string) : string :=
  "bestaudio[abr<=" +:+ bitrate +:+ "]/bestaudio/best".

(** [_get_format_string], as a function of the two Tk variables it reads. *)
Definition format_string (fmt label : string) : result string :=
  if String.eqb fmt "video"
  then bind (first_token label) (fun tok => Ok (video_format (replace "p" "" tok)))
  else bind (first_token label) (fun tok => Ok (audio_format (replace "kbps" "" tok))).

Definition _get_format_string (st : App) : result string :=
  format_string (format_type st) (quality_var st).

(** The post-processor that [_download_video] adds for the chosen kind. *)
Definition select_postprocessor (fmt label : string) : result postprocessor :=
  if String.eqb fmt "video"
  then Ok (FFmpegVideoConvertor "mp4")
  else bind (first_token label) (fun q => Ok (FFmpegExtractAudio "mp3" q)).

(** [ydl_opts] as [_download_video] builds it. *)
Definition build_ydl_opts (st : App) : result ydl_opts :=
  bind (_get_format_string st) (fun f =>
  bind (select_postprocessor (format_type st) (quality_var st)) (fun pp =>
  Ok (mkOpts f (save_path st) pp (deno_ok st)))).

(* ===================================================================== *)
(** * Start, stop and reset                                               *)
(* ===================================================================== *)

(** [_stop_download] *)
Definition _stop_download (st : App) : App :=
  if downloading st
  then _update_status TxtStopping "downloading" (set_stop_requested true st)
  else st.

(** [_reset_download_state] *)
Definition _reset_download_state (st : App) : App :=
  let st := emit (EBtnEnabled true) st in
  let st := set_progress 0 st in
  let st := emit (EBtnText "Download") st in
  let st := set_downloading false st in
  set_stop_requested false st.

(** [_start_download]: the handler of the Download/Stop button and of the
    Return key. The worker thread it starts is the effect [EThreadStart]. *)
Definition _start_download (st : App) : App :=
  if negb (downloading st) then
    let url := strip (url_entry st) in
    if String.eqb url "" then
      emit (EShowError "Error" "Please enter a video URL") st
    else
      let st := set_downloading true st in
      let st := set_stop_requested false st in
      let st := emit (EBtnText "Stop") st in
      emit EThreadStart st
  else
    _stop_download st.

(* ===================================================================== *)
(** * The environment of a run                                            *)
(* ===================================================================== *)

(** A dict [d] that the backend passes to a progress hook: its scalar
    keys, and [d['info_dict']] when that key is present. *)
Record raw_event : Type := mkEvent {
  ev_dict : gmap string pyval;
  ev_info_dict : option (gmap string pyval)
}.

(** What happens while one [ydl.download] call is running, in order. *)
Inductive fetch_event : Type :=
| HookCall (d : raw_event)   (* the backend calls the progress hook *)
| UserStop.                  (* the main thread runs [_stop_download] *)

(** How [ydl.download] ends when no hook has raised. *)
Inductive fetch_end : Type :=
| FetchOk
| FetchError (msg : string). (* raises an exception [e] with [str(e) = msg] *)

Record fetch_script : Type := mkFetch {
  fs_events : list fetch_event;
  fs_end : fetch_end
}.

(** The value of [ydl.extract_info(url, download=False)]: the scalar keys
    of the info dict, and the list under ['entries'] when that key is
    present. An entry is [None] or a dict. *)
Record info : Type := mkInfo {
  info_dict : gmap string pyval;
  info_entries : option (list (option (gmap string pyval)))
}.

(** How the [try] block around the listing ends. *)
Inductive extract_end : Type :=
| ExtractRaises                        (* an exception inside the block *)
| ExtractReturns (i : option info).    (* [info], possibly [None] *)

Record extract_script : Type := mkExtract {
  ex_user_stop : bool;   (* the user asks to stop while the listing runs *)
  ex_end : extract_end
}.

(** The backend, the interpreter and the user during one run of
    [_download_video]. The [i]-th call of [ydl.download] (counting from
    0) follows [download i url]. *)
Record Env : Type := mkEnv {
  extract_info : string -> extract_script;
  download : nat -> pyval -> fetch_script;
  stop_after_loop : bool;      (* the user asks to stop once the loop is left *)
  open_folder_answer : bool;   (* the answer to "Open download folder?" *)
  int_of_str : string -> result Z   (* [int(s)] for a str [s] *)
}.

(* ===================================================================== *)
(** * Human-readable sizes                                                *)
(* ===================================================================== *)

(** [a < b] on numbers. *)
Definition Qltb (a b : Q) : bool := negb (Qle_bool b a).

(** The loop of [format_file_size] over the units still to be tried. The
    result is the pair of the number and the unit that the function
    renders as f"{size_bytes:.1f} {unit}". *)
Fixpoint format_size_loop (units : list string) (size_bytes : Q) : Q * string :=
  match units with
  | [] => (size_bytes, "TB")
  | unit :: rest =>
      if Qltb size_bytes 1024 then (size_bytes, unit)
      else format_size_loop rest (size_bytes / 1024)
  end.

(** [format_file_size(size_bytes)], when the call returns: the number and
    the unit of the string returned. The divisions are those of the
    rationals; the floats of the program agree with them as long as the
    size has at most 53 bits, and round beyond. *)
Definition format_file_size (size_bytes : Z) : Q * string :=
  format_size_loop ["B"; "KB"; "MB"; "GB"] (inject_Z size_bytes).

(** The calls of [format_file_size] that do not return: the first
    division ([size_bytes / 1024], for a size that is not below 1024) and
    the rendering with [:.1f] (for a size below 1024) raise OverflowError
    when their result is too large in magnitude for a float. *)
Definition format_file_size_overflows (size_bytes : Z) : bool :=
  (size_bytes <=? - (2 ^ 1024 - 2 ^ 970))%Z || (2 ^ 1034 - 2 ^ 980 <=? size_bytes)%Z.

(** [f"{x:.1f}"] for a number [x]: the decimal with one digit after the
    point that is nearest to [x], the even one on a tie. *)
Definition render_1f (x : Q) : string :=
  let a := (Z.abs (Qnum x) * 10)%Z in
  let b := Z.pos (Qden x) in
  let f := (a / b)%Z in
  let r := (a mod b)%Z in
  let m := if (b <? 2 * r)%Z then (f + 1)%Z
           else if (2 * r <? b)%Z then f
           else if Z.even f then f else (f + 1)%Z in
  (if (Qnum x <? 0)%Z then "-" else "") +:+
  pretty (m / 10)%Z +:+ "." +:+ pretty (m mod 10)%Z.

(** The str that [format_file_size(size_bytes)] returns. *)
Definition format_file_size_text (size_bytes : Z) : string :=
  render_1f (fst (format_file_size size_bytes)) +:+ " " +:+ snd (format_file_size size_bytes).

(** The units in the order [format_file_size] goes through them. *)
Definition size_units : list string := ["B"; "KB"; "MB"; "GB"; "TB"].

(* ===================================================================== *)
(** * The progress hook                                                   *)
(* ===================================================================== *)

(** An element of [playlist_entries]: a dict with the keys ['title'],
    ['url'] and ['id']. *)
Record entry_data : Type := mkEntry {
  e_title : pyval;
  e_url : pyval;
  e_id : pyval
}.

(** [total = d.get('total_bytes') or d.get('total_bytes_estimate') or 0] *)
Definition event_total (d : raw_event) : pyval :=
  py_or (py_or (py_get (ev_dict d) "total_bytes")
               (py_get (ev_dict d) "total_bytes_estimate"))
        (PInt 0).

(** [downloaded = d.get('downloaded_bytes', 0)] *)
Definition event_downloaded (d : raw_event) : pyval :=
  py_get_default (ev_dict d) "downloaded_bytes" (PInt 0).

(** [progress = (downloaded / total) * 100 if total else 0] *)
Definition event_progress (d : raw_event) : result Q :=
  let total := event_total d in
  let downloaded := event_downloaded d in
  if truthy total
  then bind (py_truediv downloaded total) (fun r => Ok (r * 100)%Q)
  else Ok 0%Q.

(** [title = d.get('info_dict', {}).get('title', entry_data['title'])] *)
Definition event_title (d : raw_event) (entry : entry_data) : pyval :=
  match ev_info_dict d with
  | Some i => py_get_default i "title" (e_title entry)
  | None => e_title entry
  end.

(** [speed_str]: empty when the speed is falsy, else built from
    [format_file_size(int(speed))]; the speed kept is [int(speed)]. *)
Definition event_speed (int_str : string -> result Z) (d : raw_event)
    : result (option Z) :=
  let speed := py_get (ev_dict d) "speed" in
  if truthy speed then
    bind (py_int int_str speed) (fun z =>
    if format_file_size_overflows z then Raise OverflowError else Ok (Some z))
  else Ok None.

(** The body of the [try] of the hook, for a 'downloading' event. *)
Definition report_progress (int_str : string -> result Z)
    (entry_index total_count : nat) (entry : entry_data)
    (d : raw_event) (st : App) : result App :=
  bind (event_progress d) (fun progress =>
  let title := event_title d entry in
  bind (event_speed int_str d) (fun speed =>
  let st := set_progress progress st in
  let st := _update_status
              (TxtProgress (entry_index + 1) total_count title progress speed)
              "downloading" st in
  Ok (emit EUpdateIdle st))).

(** [make_progress_hook(entry_index, entry_data)] returns this hook;
    [total_count] is the variable of the enclosing function, and
    [int_str] is [int] on the strs. *)
Definition make_progress_hook (int_str : string -> result Z)
    (total_count entry_index : nat) (entry : entry_data)
    (d : raw_event) (st : App) : result App :=
  if stop_requested st then Raise (Exception "Download stopped by user")
  else if py_eq_str (py_get (ev_dict d) "status") "downloading" then
    match report_progress int_str entry_index total_count entry d st with
    | Ok st' => Ok st'
    | Raise _ => Ok st          (* except Exception: pass *)
    end
  else if py_eq_str (py_get (ev_dict d) "status") "finished" then
    Ok (_update_status (TxtProcessing (entry_index + 1) total_count) "downloading" st)
  else Ok st.

(** One call of [ydl.download]: the events of the script in order. An
    exception raised by the hook is not caught by the backend and ends
    the call. *)
Fixpoint run_fetch (hook : raw_event -> App -> result App)
    (events : list fetch_event) (fin : fetch_end) (st : App) : App * result unit :=
  match events with
  | [] =>
      match fin with
      | FetchOk => (st, Ok tt)
      | FetchError msg => (st, Raise (Exception msg))
      end
  | UserStop :: rest => run_fetch hook rest fin (_stop_download st)
  | HookCall d :: rest =>
      match hook d st with
      | Ok st' => run_fetch hook rest fin st'
      | Raise e => (st, Raise e)
      end
  end.

(* ===================================================================== *)
(** * Resolution of the URL into entries                                  *)
(* ===================================================================== *)

(** The dict appended for a truthy entry of a playlist. *)
Definition playlist_entry (entry : gmap string pyval) : entry_data :=
  mkEntry
    (py_get_default entry "title" (PStr "Unknown"))
    (py_or (py_or (py_get entry "url") (py_get entry "webpage_url"))
           (PStr ("https://youtube.com/watch?v=" +:+ py_str (py_get entry "id"))))
    (py_get entry "id").

(** [if entry:] for an element of [info['entries']]. *)
Definition entry_truthy (entry : option (gmap string pyval)) : bool :=
  match entry with
  | Some d => dict_truthy d
  | None => false
  end.

(** [for entry in entries: if entry: playlist_entries.append(...)] *)
Fixpoint append_entries (playlist_entries : list entry_data)
    (entries : list (option (gmap string pyval))) : list entry_data :=
  match entries with
  | [] => playlist_entries
  | entry :: rest =>
      match entry with
      | Some d =>
          if dict_truthy d
          then append_entries (playlist_entries ++ [playlist_entry d]) rest
          else append_entries playlist_entries rest
      | None => append_entries playlist_entries rest
      end
  end.

(** The dict appended for a single video. *)
Definition single_entry (url : string) (i : info) : entry_data :=
  mkEntry (py_get_default (info_dict i) "title" (PStr "Unknown"))
          (PStr url)
          (py_get (info_dict i) "id").

(** [if info:] for a dict [info]: true unless it has no key at all. *)
Definition info_truthy (i : info) : bool :=
  match info_entries i with
  | Some _ => true
  | None => dict_truthy (info_dict i)
  end.

(** The entry used when the listing raises. *)
Definition fallback_entry (url : string) : entry_data :=
  mkEntry (PStr "Unknown") (PStr url) PNone.

(** The [try ... except] of [_download_video]: the values of
    [playlist_entries] and [playlist_title] after it. *)
Definition resolve (url : string) (r : extract_end) : list entry_data * pyval :=
  match r with
  | ExtractRaises => ([fallback_entry url], PNone)
  | ExtractReturns None => ([], PNone)
  | ExtractReturns (Some i) =>
      if info_truthy i then
        match info_entries i with
        | Some entries =>
            (append_entries [] entries,
             py_get_default (info_dict i) "title" (PStr "Playlist"))
        | None => ([single_entry url i], PNone)
        end
      else ([], PNone)
  end.

(* ===================================================================== *)
(** * The download loop and the final status                              *)
(* ===================================================================== *)

(** The way one iteration of the loop over [playlist_entries] ends. *)
Inductive iteration : Type :=
| IterDownloaded              (* download returned; completed_count += 1 *)
| IterError (msg : string)    (* exception without the stop text: next entry *)
| IterStopSeen                (* stop_requested at the top: break *)
| IterStopRaised.             (* exception with the stop text: break *)

Record loop_exit : Type := mkExit {
  lx_app : App;
  lx_completed : nat;          (* completed_count *)
  lx_path : list iteration     (* one element per iteration entered *)
}.

Definition cons_path (it : iteration) (x : loop_exit) : loop_exit :=
  mkExit (lx_app x) (lx_completed x) (it :: lx_path x).

(** The body of the [try] of the loop, for the entry at index [i]: the
    hook of this entry is installed and [ydl.download([entry['url']])] is
    called. *)
Definition fetch_entry (env : Env) (opts : ydl_opts) (total_count : nat)
    (i : nat) (entry : entry_data) (st : App) : App * result unit :=
  let hook := make_progress_hook (int_of_str env) total_count i entry in
  let script := download env i (e_url entry) in
  run_fetch hook (fs_events script) (fs_end script) (emit (EDownload opts (e_url entry)) st).

(** [for i, entry in enumerate(playlist_entries): ...], from index [i]
    on, on the entries still to be visited. *)
Fixpoint download_loop (env : Env) (opts : ydl_opts) (total_count : nat)
    (i : nat) (entries : list entry_data) (completed_count : nat) (st : App)
    : loop_exit :=
  match entries with
  | [] => mkExit st completed_count []
  | entry :: rest =>
      if stop_requested st then mkExit st completed_count [IterStopSeen]
      else
        match fetch_entry env opts total_count i entry st with
        | (st, Ok _) =>
            cons_path IterDownloaded
              (download_loop env opts total_count (S i) rest (completed_count + 1) st)
        | (st, Raise e) =>
            let error_msg := exn_str e in
            if contains "Download stopped by user" error_msg
            then mkExit st completed_count [IterStopRaised]
            else cons_path (IterError error_msg)
                   (download_loop env opts total_count (S i) rest completed_count st)
        end
  end.

(** The branch taken by the final [if / elif / else]. *)
Inductive final_status : Type :=
| Cancelled          (* "Download cancelled" *)
| Completed          (* "Completed c/t downloads!" *)
| PartiallyFailed.   (* "Completed c/t (some failed)" *)

Definition final_status_of (stop : bool) (completed_count total_count : nat) : final_status :=
  if stop then Cancelled
  else if Nat.eqb completed_count total_count then Completed
  else PartiallyFailed.

(** What a finished run leaves behind: the counters, the value of
    [stop_requested] read by the final [if], the branch taken and the
    path through the loop. *)
Record summary : Type := mkSummary {
  total_count : nat;
  completed_count : nat;
  cancelled : bool;
  status : final_status;
  path : list iteration
}.

(** The part of [_download_video] from [completed_count = 0] to the end,
    on the resolved [playlist_entries]. *)
Definition run_batch (env : Env) (opts : ydl_opts) (playlist_entries : list entry_data)
    (st : App) : App * summary :=
  let total_count := length playlist_entries in
  let x := download_loop env opts total_count 0 playlist_entries 0 st in
  let st := lx_app x in
  let completed_count := lx_completed x in
  let st := if stop_after_loop env then _stop_download st else st in
  let save_folder := save_path st in
  let stop := stop_requested st in
  let st :=
    match final_status_of stop completed_count total_count with
    | Cancelled => _update_status TxtCancelled "ready" st
    | Completed =>
        let st := set_progress 100 st in
        let st := _update_status (TxtCompleted completed_count total_count) "success" st in
        let st := emit (EAskOpenFolder (Nat.eqb total_count 1)) st in
        if open_folder_answer env then emit (EOpenFolder save_folder) st else st
    | PartiallyFailed =>
        _update_status (TxtSomeFailed completed_count total_count) "error" st
    end in
  (_reset_download_state st,
   mkSummary total_count completed_count stop
             (final_status_of stop completed_count total_count) (lx_path x)).

(** How the worker thread ends. *)
Inductive run_outcome : Type :=
| ReturnedEarly            (* empty URL or missing ffmpeg *)
| Crashed (e : exn)        (* uncaught exception while building ydl_opts *)
| Finished (s : summary).

(** The part of [_download_video] up to the playlist status line. *)
Definition resolve_step (env : Env) (url : string) (st : App) : App * list entry_data :=
  let st := _update_status TxtFetching "downloading" st in
  let script := extract_info env url in
  let st := emit (EExtractInfo url) st in
  let st := if ex_user_stop script then _stop_download st else st in
  let '(playlist_entries, playlist_title) := resolve url (ex_end script) in
  let st :=
    if truthy playlist_title && Nat.ltb 1 (length playlist_entries)
    then _update_status (TxtPlaylist playlist_title (length playlist_entries))
           "downloading" st
    else st in
  (st, playlist_entries).

(** [_download_video] *)
Definition _download_video (env : Env) (st : App) : App * run_outcome :=
  let url := strip (url_entry st) in
  if String.eqb url "" then (_reset_download_state st, ReturnedEarly)
  else if negb (ffmpeg_ok st) then
    (_reset_download_state (emit EDependencyError st), ReturnedEarly)
  else
    let '(st, playlist_entries) := resolve_step env url st in
    match build_ydl_opts st with
    | Raise e => (st, Crashed e)
    | Ok opts =>
        let '(st, s) := run_batch env opts playlist_entries st in
        (st, Finished s)
    end.

(* ===================================================================== *)
(** * The job result of the specification, read off a run                 *)
(* ===================================================================== *)

Inductive unit_status : Type :=
| Succeeded
| Failed (errorDetail : string)
| SkippedByCancellation.

(** Follows the specification (section 4.5, steps 4a to 4e): the program
    keeps only the counter [completed_count]; the specification's
    [JobResult.outcomes] has one outcome per unit. [remaining] is the
    number of units not yet given an outcome. An iteration that
    downloaded is Succeeded, one that met another error is Failed, and a
    break gives SkippedByCancellation to its unit and to all later ones. *)
Fixpoint outcomes_from (remaining : nat) (p : list iteration) : list unit_status :=
  match p with
  | [] => []
  | IterDownloaded :: p' => Succeeded :: outcomes_from (remaining - 1) p'
  | IterError msg :: p' => Failed msg :: outcomes_from (remaining - 1) p'
  | IterStopSeen :: _ => repeat SkippedByCancellation remaining
  | IterStopRaised :: _ => repeat SkippedByCancellation remaining
  end.

Definition outcomes (s : summary) : list unit_status :=
  outcomes_from (total_count s) (path s).

(** The entries of a listing that [if entry:] lets through, in order:
    an entry is absent when it is [None] or a dict without any key. *)
Definition present_entries (entries : list (option (gmap string pyval)))
    : list (gmap string pyval) :=
  omap (fun entry => if entry_truthy entry then entry else None) entries.

(** The values passed to [progress_var.set], in order. *)
Fixpoint progress_values (effs : list effect) : list Q :=
  match effs with
  | [] => []
  | EProgress p :: rest => p :: progress_values rest
  | _ :: rest => progress_values rest
  end.

(** The hook calls of a script that carry the status 'downloading'. *)
Fixpoint downloading_events (events : list fetch_event) : list raw_event :=
  match events with
  | [] => []
  | HookCall d :: rest =>
      if py_eq_str (py_get (ev_dict d) "status") "downloading"
      then d :: downloading_events rest
      else downloading_events rest
  | UserStop :: rest => downloading_events rest
  end.

(** No stop request among the events of a script. *)
Fixpoint no_user_stop (events : list fetch_event) : bool :=
  match events with
  | [] => true
  | HookCall _ :: rest => no_user_stop rest
  | UserStop :: _ => false
  end.

Definition is_download (e : effect) : bool :=
  match e with
  | EDownload _ _ => true
  | _ => false
  end.

Definition is_stopping (e : effect) : bool :=
  match e with
  | EStatus TxtStopping _ => true
  | _ => false
  end.

(** The number of [ydl.download] calls begun before the first
    "Stopping..." of a trace; [None] when the trace has no stop request. *)
Fixpoint downloads_before_stop (effs : list effect) : option nat :=
  match effs with
  | [] => None
  | e :: rest =>
      if is_stopping e then Some 0
      else if is_download e then S <$> downloads_before_stop rest
      else downloads_before_stop rest
  end.

(** Two states agree on the fields that describe the request, from which
    [ydl_opts] is built. *)
Definition same_request (a b : App) : Prop :=
  ffmpeg_ok a = ffmpeg_ok b /\ deno_ok a = deno_ok b /\ url_entry a = url_entry b /\
  save_path a = save_path b /\ format_type a = format_type b /\
  quality_var a = quality_var b.

(** [st'] comes after [st] in a run: the downloading flag and the request
    are the same, the trace has grown by [new], and the stop flag is set
    in [st'] exactly when it was set in [st] or [new] holds a
    "Stopping..." status. *)
Definition extends (st st' : App) : Prop :=
  downloading st' = downloading st /\ same_request st' st /\
  exists new, effects st' = effects st ++ new /\
              stop_requested st' = stop_requested st || existsb is_stopping new.

(** The state in which the final [if] of a batch reads the stop flag. *)
Definition at_final_check (env : Env) (opts : ydl_opts) (entries : list entry_data)
    (st : App) : App :=
  let x := download_loop env opts (length entries) 0 entries 0 st in
  if stop_after_loop env then _stop_download (lx_app x) else lx_app x.

(** The result of [ydl.download] when no hook raises. *)
Definition end_result (fin : fetch_end) : result unit :=
  match fin with
  | FetchOk => Ok tt
  | FetchError msg => Raise (Exception msg)
  end.

Fixpoint succeeded_count (l : list unit_status) : nat :=
  match l with
  | [] => 0
  | Succeeded :: l' => S (succeeded_count l')
  | _ :: l' => succeeded_count l'
  end.

(** The percentage that the hook computes from [downloaded] bytes when
    the total of the event is [total]; 0 when the total is 0 (unknown). *)
Definition percent_of (total downloaded : Z) : Q :=
  if (total =? 0)%Z then 0%Q else (inject_Z downloaded / inject_Z total * 100)%Q.

(* ===================================================================== *)
(** * Sample data                                                         *)
(* ===================================================================== *)

Module Sample.

Definition url : string := "https://example.org/watch?v=abc".

(** The application right after [_start_download] has started a run. *)
Definition active_app : App :=
  mkApp true false true true url "/home/user/Downloads" "video" "1080p (Full HD)" 0 [].

Definition opts : ydl_opts :=
  mkOpts (video_format "1080") "/home/user/Downloads" (FFmpegVideoConvertor "mp4") true.

Definition entry (n : Z) : entry_data :=
  mkEntry (PStr "clip") (PStr ("https://example.org/v/" +:+ pretty n)) (PInt n).

Definition downloading_event (downloaded total : Z) : raw_event :=
  mkEvent {[ "status" := PStr "downloading";
             "downloaded_bytes" := PInt downloaded;
             "total_bytes" := PInt total ]} None.

Definition estimate_event (downloaded estimate : Z) : raw_event :=
  mkEvent {[ "status" := PStr "downloading";
             "downloaded_bytes" := PInt downloaded;
             "total_bytes_estimate" := PInt estimate ]} None.

Definition finished_event : raw_event :=
  mkEvent {[ "status" := PStr "finished" ]} None.

(** A download that reports progress and succeeds. *)
Definition good_fetch : fetch_script :=
  mkFetch [HookCall (downloading_event 50 100); HookCall (downloading_event 100 100);
           HookCall finished_event] FetchOk.

Definition bad_fetch : fetch_script :=
  mkFetch [HookCall (downloading_event 10 100)] (FetchError "ERROR: Video unavailable").

(** A download during whose post-processing the user presses Stop. *)
Definition good_fetch_then_stop : fetch_script :=
  mkFetch (fs_events good_fetch ++ [UserStop]) FetchOk.

(** A download during which the user presses Stop between two progress
    events. *)
Definition interrupted_fetch : fetch_script :=
  mkFetch [HookCall (downloading_event 10 100); UserStop;
           HookCall (downloading_event 20 100)] FetchOk.

(** No speed of the sample events is a str: [int] is never asked about
    one. *)
Definition int_unused : string -> result Z := fun _ => Raise ValueError.

(** Every download succeeds and nobody asks to stop. *)
Definition quiet_env (x : extract_end) : Env :=
  mkEnv (fun _ => mkExtract false x) (fun _ _ => good_fetch) false false int_unused.

(** The second download fails. *)
Definition second_fails_env : Env :=
  mkEnv (fun _ => mkExtract false ExtractRaises)
        (fun i _ => if Nat.eqb i 1 then bad_fetch else good_fetch) false false int_unused.

(** The user presses Stop when the second download is done. *)
Definition stop_after_second_env : Env :=
  mkEnv (fun _ => mkExtract false ExtractRaises)
        (fun i _ => if Nat.eqb i 1 then good_fetch_then_stop else good_fetch) false false
        int_unused.

(** The user presses Stop in the middle of every download. *)
Definition stop_during_env : Env :=
  mkEnv (fun _ => mkExtract false ExtractRaises) (fun _ _ => interrupted_fetch) false false
        int_unused.

(** The user presses Stop during the post-processing of the only unit. *)
Definition late_stop_env : Env :=
  mkEnv (fun _ => mkExtract false ExtractRaises) (fun _ _ => good_fetch_then_stop) false false
        int_unused.

(** A download that fails with an error whose text carries the message of
    the stop exception, although nobody asks to stop. *)
Definition stop_text_fetch : fetch_script :=
  mkFetch [HookCall (downloading_event 10 100)]
          (FetchError "ERROR: unable to download: Download stopped by user").

(** The second download fails that way. *)
Definition stop_text_env : Env :=
  mkEnv (fun _ => mkExtract false ExtractRaises)
        (fun i _ => if Nat.eqb i 1 then stop_text_fetch else good_fetch) false false
        int_unused.

(** Two progress events between which the estimated total doubles. *)
Definition growing_estimate : list fetch_event :=
  [HookCall (estimate_event 50 100); HookCall (estimate_event 60 200)].

(** The user presses Stop once the loop is over. *)
Definition stop_after_loop_env : Env :=
  mkEnv (fun _ => mkExtract false ExtractRaises) (fun _ _ => good_fetch) true false
        int_unused.

(** The listing of a single video that has neither title nor id. *)
Definition bare_video : info := mkInfo {[ "_type" := PStr "video" ]} None.

(** A listing of three entries, the second being unavailable. *)
Definition listing : list (option (gmap string pyval)) :=
  [Some {[ "id" := PStr "a1"; "title" := PStr "First"; "url" := PStr "https://example.org/v/a1" ]};
   None;
   Some {[ "id" := PStr "c3" ]}].

End Sample.

(* ===================================================================== *)
(** * Utility functions                                                   *)
(* ===================================================================== *)

(** ** Verification of the bundled binaries *)

(** [os.path.getsize(path)]: the size, or an OSError [e] with
    [str(e) = msg]. *)
Inductive size_result : Type :=
| SizeIs (n : Z)
| SizeOSError (msg : string).

(** [subprocess.run(...)]: a completed process, or one of the exceptions
    that [verify_binary] tells apart. *)
Inductive run_result : Type :=
| RunReturns (returncode : Z)
| RunTimeoutExpired
| RunPermissionError
| RunException (msg : string).   (* any other exception [e], [str(e) = msg] *)

(** The operating system as [verify_binary] sees it. *)
Record OS : Type := mkOS {
  is_windows : bool;                           (* IS_WINDOWS *)
  os_path_exists : string -> bool;
  os_path_getsize : string -> size_result;
  subprocess_run : list string -> run_result
}.

(** The calls that [verify_binary] makes, in order. [CallRun] carries the
    command line and whether [creationflags] asks for no window. *)
Inductive os_call : Type :=
| CallExists (path : string)
| CallGetsize (path : string)
| CallRun (args : list string) (create_no_window : bool).

(** The [if min_size > 0] block of [verify_binary]: the early result, if
    any, and the calls made. *)
Definition check_size (os : OS) (binary_path : string) (min_size : Z)
    : option (bool * string) * list os_call :=
  if (0 <? min_size)%Z then
    match os_path_getsize os binary_path with
    | SizeIs n =>
        if (n <? min_size)%Z
        then (Some (false, "Binary appears corrupted (file too small)"),
              [CallGetsize binary_path])
        else (None, [CallGetsize binary_path])
    | SizeOSError e =>
        (Some (false, "Cannot read binary: " +:+ e), [CallGetsize binary_path])
    end
  else (None, []).

(** The last [try] of [verify_binary]. *)
Definition run_version (os : OS) (binary_path version_arg : string) : bool * string :=
  match subprocess_run os [binary_path; version_arg] with
  | RunReturns returncode =>
      if negb (returncode =? 0)%Z then (false, "Binary failed to execute")
      else (true, "")
  | RunTimeoutExpired => (false, "Binary timed out")
  | RunPermissionError => (false, "Permission denied")
  | RunException e => (false, "Verification failed: " +:+ e)
  end.

(** [verify_binary(binary_path, version_arg, min_size)]: the pair
    (is_valid, error_message), and the calls made to the system. *)
Definition verify_binary (os : OS) (binary_path version_arg : string) (min_size : Z)
    : (bool * string) * list os_call :=
  if negb (os_path_exists os binary_path) then
    ((false, "Binary not found: " +:+ binary_path), [CallExists binary_path])
  else
    match check_size os binary_path min_size with
    | (Some early, calls) => (early, CallExists binary_path :: calls)
    | (None, calls) =>
        (run_version os binary_path version_arg,
         CallExists binary_path :: calls ++
         [CallRun [binary_path; version_arg] (is_windows os)])
    end.

(** [check_dependencies()], for the paths [FFMPEG_PATH] and [DENO_PATH]:
    the triple (ffmpeg_ok, deno_ok, error_message), and the calls made. *)
Definition check_dependencies (os : OS) (FFMPEG_PATH DENO_PATH : string)
    : (bool * bool * string) * list os_call :=
  let '((ffmpeg_ok, ffmpeg_err), calls1) := verify_binary os FFMPEG_PATH "-version" 1000000 in
  let '((deno_ok, _), calls2) := verify_binary os DENO_PATH "--version" 0 in
  let error_msg := if negb ffmpeg_ok then "FFmpeg: " +:+ ffmpeg_err else "" in
  ((ffmpeg_ok, deno_ok, error_msg), calls1 ++ calls2).

(** The size check of [verify_binary] lets the binary through: no minimum
    is asked for, or the size can be read and reaches the minimum. *)
Definition size_passes (os : OS) (binary_path : string) (min_size : Z) : Prop :=
  (min_size <= 0)%Z \/
  exists n, os_path_getsize os binary_path = SizeIs n /\ (min_size <= n)%Z.

(** Whether a call runs the binary at [path]. *)
Definition runs_binary (path : string) (c : os_call) : bool :=
  match c with
  | CallRun (p :: _) _ => String.eqb p path
  | _ => false
  end.

Definition reads_size (path : string) (c : os_call) : bool :=
  match c with
  | CallGetsize p => String.eqb p path
  | _ => false
  end.

(** No character of [s] other than white space. *)
Definition all_space (s : string) : bool := forallb py_isspace (chars s).

(** All the bytes of [s] are continuation bytes. *)
Fixpoint all_continuation (s : string) : bool :=
  match s with
  | EmptyString => true
  | String c s' => is_continuation c && all_continuation s'
  end.

(** What [chars] yields: a byte followed by continuation bytes only. *)
Definition group (ch : string) : Prop :=
  match ch with
  | EmptyString => False
  | String _ r => all_continuation r = true
  end.

(** A character that does not begin with a continuation byte. *)
Definition starts_char (ch : string) : Prop :=
  match ch with
  | EmptyString => False
  | String c _ => is_continuation c = false
  end.

(** The characters of a str: each is a [group], and all but the first
    begin with a byte that is not a continuation byte. *)
Definition well_grouped (l : list string) : Prop :=
  Forall group l /\ Forall starts_char (tail l).

(** A list of characters that does not begin with white space. *)
Definition tight (l : list string) : Prop :=
  match l with
  | [] => True
  | ch :: _ => py_isspace ch = false
  end.

(** The application is between two runs, as [_reset_download_state]
    leaves it. *)
Definition idle (st : App) : Prop :=
  downloading st = false /\ stop_requested st = false /\ progress_var st = 0%Q.

(** The quality label is one of the combo box for the chosen kind. *)
Definition valid_quality (st : App) : Prop :=
  quality_var st ∈ qualities (format_type st).

(* ===================================================================== *)
(** * The controls of the window                                          *)
(* ===================================================================== *)

Definition set_url_entry (url : string) (st : App) : App :=
  mkApp (downloading st) (stop_requested st) (ffmpeg_ok st) (deno_ok st)
        url (save_path st) (format_type st) (quality_var st)
        (progress_var st) (effects st).

Definition set_format_type (fmt : string) (st : App) : App :=
  mkApp (downloading st) (stop_requested st) (ffmpeg_ok st) (deno_ok st)
        (url_entry st) (save_path st) fmt (quality_var st)
        (progress_var st) (effects st).

Definition set_quality_var (label : string) (st : App) : App :=
  mkApp (downloading st) (stop_requested st) (ffmpeg_ok st) (deno_ok st)
        (url_entry st) (save_path st) (format_type st) label
        (progress_var st) (effects st).

(** [_do_paste]: [clipboard] is the value of [root.clipboard_get()], or
    [None] when it raises (an empty clipboard raises TclError). *)
Definition _do_paste (clipboard : option string) (st : App) : App :=
  match clipboard with
  | Some url => set_url_entry (strip url) st
  | None => st
  end.

(** A click on the Video or Audio radio button: Tk stores the value of
    the button in [format_type], then runs its command,
    [_update_quality_options]. *)
Definition click_format (fmt : string) (st : App) : App :=
  _update_quality_options (set_format_type fmt st).

(** The fields of the application when [__init__] is done: the two flags
    come from [check_dependencies], the kind is "video", the first call
    of [_update_quality_options] has selected the default quality, and
    the dependency error is scheduled when ffmpeg is not usable. The
    building of the widgets is not part of the record. *)
Definition initial_app (os : OS) (FFMPEG_PATH DENO_PATH default_path : string) : App :=
  let '(ffmpeg_ok, deno_ok, _) := fst (check_dependencies os FFMPEG_PATH DENO_PATH) in
  _update_quality_options
    (mkApp false false ffmpeg_ok deno_ok "" default_path "video" "" 0
       (if negb ffmpeg_ok then [EDependencyError] else [])).

(** What the user can do with the controls between two runs. *)
Inductive gesture : Type :=
| Paste (clipboard : option string)
| TypeUrl (url : string)
| ClickVideo
| ClickAudio
| PickQuality (n : nat)      (* the [n]-th line of the quality combo box *)
| PressStop.                 (* Escape *)

Definition do_gesture (g : gesture) (st : App) : App :=
  match g with
  | Paste clipboard => _do_paste clipboard st
  | TypeUrl url => set_url_entry url st
  | ClickVideo => click_format "video" st
  | ClickAudio => click_format "audio" st
  | PickQuality n =>
      match qualities (format_type st) !! n with
      | Some label => set_quality_var label st
      | None => st
      end
  | PressStop => _stop_download st
  end.

(** What can happen to the application object: a gesture of the user, a
    press on the Download/Stop button or the Return key, and a complete
    run of the worker thread in some environment. *)
Inductive ui_step : Type :=
| Gesture (g : gesture)
| PressDownload
| WorkerRun (env : Env).

Definition do_step (a : ui_step) (st : App) : App :=
  match a with
  | Gesture g => do_gesture g st
  | PressDownload => _start_download st
  | WorkerRun env => fst (_download_video env st)
  end.

Definition do_steps (steps : list ui_step) (st : App) : App :=
  fold_left (fun st a => do_step a st) steps st.

(** The colours of [StatusIndicator._draw], by status. *)
Definition indicator_colors : gmap string string :=
  {[ "ready" := "#B0B0B0"; "downloading" := "#FFC107";
     "success" := "#28A745"; "error" := "#E31937" ]}.

(** [colors.get(self.status, COLORS['text_secondary'])] *)
Definition indicator_color (status : string) : string :=
  match indicator_colors !! status with
  | Some color => color
  | None => "#B0B0B0"
  end.

(* ===================================================================== *)
(** * The trace of the worker                                             *)
(* ===================================================================== *)

(** The effects that [st'] has and [st] had not. *)
Definition new_effects (st st' : App) : list effect :=
  drop (length (effects st)) (effects st').

(** The URLs passed to [ydl.download], in order. *)
Fixpoint download_calls (effs : list effect) : list pyval :=
  match effs with
  | [] => []
  | EDownload _ url :: rest => url :: download_calls rest
  | _ :: rest => download_calls rest
  end.

Definition is_backend_call (e : effect) : bool :=
  match e with
  | EExtractInfo _ | EDownload _ _ => true
  | _ => false
  end.

(** The effects that one [ydl.download] call at index [i] of a batch of
    [tc] entries can add: progress values, the two status lines of the
    hook, both numbered [i + 1] of [tc], idle updates, and the
    "Stopping..." of a stop request. *)
Definition fetch_effect (tc i : nat) (e : effect) : Prop :=
  match e with
  | EProgress _ | EUpdateIdle => True
  | EStatus (TxtProgress pos total _ _ _) s => pos = i + 1 /\ total = tc /\ s = "downloading"
  | EStatus (TxtProcessing pos total) s => pos = i + 1 /\ total = tc /\ s = "downloading"
  | EStatus TxtStopping s => s = "downloading"
  | _ => False
  end.

(** The effects that a run of the worker on [tc] resolved entries can
    add. *)
Definition worker_effect (tc : nat) (e : effect) : Prop :=
  match e with
  | EStatus (TxtProgress pos total _ _ _) s =>
      1 <= pos <= total /\ total = tc /\ s = "downloading"
  | EStatus (TxtProcessing pos total) s =>
      1 <= pos <= total /\ total = tc /\ s = "downloading"
  | EStatus TxtStopping s => s = "downloading"
  | EStatus TxtFetching s => s = "downloading"
  | EStatus (TxtPlaylist _ n) s => n = tc /\ 1 < n /\ s = "downloading"
  | EStatus TxtCancelled s => s = "ready"
  | EStatus (TxtCompleted c total) s => c = total /\ total = tc /\ s = "success"
  | EStatus (TxtSomeFailed c total) s => c < total /\ total = tc /\ s = "error"
  | EShowError _ _ | EThreadStart => False
  | _ => True
  end.

(** [st'] has the trace of [st] followed by effects that all satisfy
    [P]. *)
Definition emits (P : effect -> Prop) (st st' : App) : Prop :=
  exists new, effects st' = effects st ++ new /\ Forall P new.

(** The number of iterations of a path that called [ydl.download]. *)
Fixpoint fetched (p : list iteration) : nat :=
  match p with
  | [] => 0
  | IterStopSeen :: p' => fetched p'
  | _ :: p' => S (fetched p')
  end.

Module SampleRun.

(** The user presses Stop while a playlist of two videos is being
    listed. *)
Definition stop_in_listing_env : Env :=
  mkEnv (fun _ => mkExtract true
                    (ExtractReturns (Some (mkInfo {[ "title" := PStr "Mix" ]}
                                             (Some Sample.listing)))))
        (fun _ _ => Sample.good_fetch) false false Sample.int_unused.

(** The user presses Stop while a listing is running that returns None. *)
Definition stop_in_empty_listing_env : Env :=
  mkEnv (fun _ => mkExtract true (ExtractReturns None))
        (fun _ _ => Sample.good_fetch) false false Sample.int_unused.

(** [int] as far as the sample events go. *)
Definition int_sample (s : string) : result Z :=
  if String.eqb s "2048" then Ok 2048%Z else Raise ValueError.

(** A progress event whose speed is a str. *)
Definition str_speed_event : raw_event :=
  mkEvent {[ "status" := PStr "downloading";
             "downloaded_bytes" := PInt 50;
             "total_bytes" := PInt 100;
             "speed" := PStr "2048" ]} None.

(** A progress event whose byte count is missing ([None]). *)
Definition broken_event : raw_event :=
  mkEvent {[ "status" := PStr "downloading";
             "downloaded_bytes" := PNone;
             "total_bytes" := PInt 100 ]} None.

End SampleRun.

Module SampleOS.

(** A system on which ffmpeg is a small broken file and deno is missing. *)
Definition broken : OS :=
  mkOS false (fun p => String.eqb p "/app/bin/ffmpeg")
       (fun _ => SizeIs 2048) (fun _ => RunReturns 0).

(** A system on which both binaries are present and run. *)
Definition healthy : OS :=
  mkOS false (fun _ => true) (fun _ => SizeIs 90000000) (fun _ => RunReturns 0).

(** A system on which ffmpeg runs and deno exits with an error. *)
Definition no_deno : OS :=
  mkOS false (fun _ => true) (fun _ => SizeIs 90000000)
       (fun args => if bool_decide (args = ["/app/bin/deno"; "--version"])
                    then RunReturns 1 else RunReturns 0).

End SampleOS.

(* ===================================================================== *)
(** * The status label (MarqueeLabel)                                     *)
(* ===================================================================== *)

Module Marquee.

(** A text is the list of its code points, so that its length is
    Python's [len]. The separator is "  ◆  ". *)
Definition separator : list N := [32; 32; 9670; 32; 32]%N.

(** [s[a:b]] for indices that are not negative. *)
Definition slice (a b : nat) (s : list N) : list N := take (b - a) (drop a s).

(** The fields of a [MarqueeLabel], the text that the Tk label shows
    ([config(text=...)]), and the callbacks scheduled with [after] that
    Tk has neither run nor cancelled yet. [max_width] is a number of
    characters; the delay [scroll_speed] plays no part here. *)
Record Label : Type := mkLabel {
  max_width : nat;
  full_text : list N;
  base_text : list N;
  scroll_position : nat;
  is_scrolling : bool;
  scroll_job : option nat;
  display_text : list N;
  label_text : list N;
  timers : list nat;
  next_timer : nat
}.

(** [MarqueeLabel(parent, max_width=..., text=...)] *)
Definition init (max_width : nat) (text : list N) : Label :=
  mkLabel max_width [] [] 0 false None [] text [] 0.

Definition config_text (text : list N) (m : Label) : Label :=
  mkLabel (max_width m) (full_text m) (base_text m) (scroll_position m) (is_scrolling m)
          (scroll_job m) (display_text m) text (timers m) (next_timer m).

Definition set_position (p : nat) (m : Label) : Label :=
  mkLabel (max_width m) (full_text m) (base_text m) p (is_scrolling m)
          (scroll_job m) (display_text m) (label_text m) (timers m) (next_timer m).

Definition set_scrolling (b : bool) (m : Label) : Label :=
  mkLabel (max_width m) (full_text m) (base_text m) (scroll_position m) b
          (scroll_job m) (display_text m) (label_text m) (timers m) (next_timer m).

Definition set_base (base : list N) (m : Label) : Label :=
  mkLabel (max_width m) (full_text m) base (scroll_position m) (is_scrolling m)
          (scroll_job m) (display_text m) (label_text m) (timers m) (next_timer m).

Definition set_full (text : list N) (m : Label) : Label :=
  mkLabel (max_width m) text (base_text m) (scroll_position m) (is_scrolling m)
          (scroll_job m) (display_text m) (label_text m) (timers m) (next_timer m).

Definition set_display (text : list N) (m : Label) : Label :=
  mkLabel (max_width m) (full_text m) (base_text m) (scroll_position m) (is_scrolling m)
          (scroll_job m) text (label_text m) (timers m) (next_timer m).

(** [self.scroll_job = self.after(self.scroll_speed, self._scroll)] *)
Definition schedule (m : Label) : Label :=
  mkLabel (max_width m) (full_text m) (base_text m) (scroll_position m) (is_scrolling m)
          (Some (next_timer m)) (display_text m) (label_text m)
          (timers m ++ [next_timer m]) (S (next_timer m)).

(** [self.after_cancel(job); self.scroll_job = None] *)
Definition cancel (job : nat) (m : Label) : Label :=
  mkLabel (max_width m) (full_text m) (base_text m) (scroll_position m) (is_scrolling m)
          None (display_text m) (label_text m)
          (List.filter (fun j => negb (Nat.eqb j job)) (timers m)) (next_timer m).

(** [_scroll] *)
Definition _scroll (m : Label) : Label :=
  if negb (is_scrolling m) then m
  else
    let end_pos := scroll_position m + max_width m in
    let visible_text := slice (scroll_position m) end_pos (display_text m) in
    let m := config_text visible_text m in
    let m := set_position (scroll_position m + 1) m in
    let reset_point := length (full_text m) + 5 in
    let m := if Nat.leb reset_point (scroll_position m) then set_position 0 m else m in
    schedule m.

(** [_start_marquee] *)
Definition _start_marquee (m : Label) : Label :=
  if negb (is_scrolling m) then _scroll (set_scrolling true m) else m.

(** [_stop_marquee] *)
Definition _stop_marquee (m : Label) : Label :=
  let m := set_scrolling false m in
  match scroll_job m with
  | Some job => cancel job m
  | None => m
  end.

Section SetText.

(** [re.sub(r': \d+%.*$', '', text)]: the text without its progress
    suffix. The regular expression engine is the library's. *)
Variable strip_progress : list N -> list N.

(** [set_text] *)
Definition set_text (text : list N) (m : Label) : Label :=
  let m := set_full text m in
  let base := strip_progress text in
  if Nat.ltb (max_width m) (length text) then
    let m :=
      if negb (bool_decide (base = base_text m))
      then set_position 0 (set_base base m)
      else m in
    let m := set_display (text ++ separator ++ text) m in
    _start_marquee m
  else
    let m := _stop_marquee m in
    let m := set_base base m in
    config_text text m.

(** What happens to a label: a new text, the firing by Tk of the oldest
    scheduled callback, the destruction of the widget. *)
Inductive event : Type :=
| SetText (text : list N)
| Tick
| Destroy.

(** Tk takes the oldest scheduled callback off its queue and runs it. *)
Definition tick (m : Label) : Label :=
  match timers m with
  | [] => m
  | _ :: rest =>
      _scroll (mkLabel (max_width m) (full_text m) (base_text m) (scroll_position m)
                 (is_scrolling m) (scroll_job m) (display_text m) (label_text m)
                 rest (next_timer m))
  end.

Definition handle (e : event) (m : Label) : Label :=
  match e with
  | SetText text => set_text text m
  | Tick => tick m
  | Destroy => _stop_marquee m    (* [destroy], before [super().destroy()] *)
  end.

Definition handle_all (events : list event) (m : Label) : Label :=
  fold_left (fun m e => handle e m) events m.

End SetText.

(** Exactly one callback is scheduled while the label scrolls, the one
    remembered in [scroll_job], and none otherwise. *)
Definition one_timer (m : Label) : Prop :=
  if is_scrolling m
  then exists job, scroll_job m = Some job /\ timers m = [job]
  else scroll_job m = None /\ timers m = [].

(** [n] firings of the timer. *)
Fixpoint ticks (n : nat) (m : Label) : Label :=
  match n with
  | O => m
  | S n' => ticks n' (tick m)
  end.

(** The state of a label that scrolls the text [t] and has fired its
    timer [n] times since the text was set. *)
Definition scrolling_at (t : list N) (w n : nat) (m : Label) : Prop :=
  max_width m = w /\ full_text m = t /\
  display_text m = t ++ separator ++ t /\
  is_scrolling m = true /\ (exists j, timers m = [j]) /\
  scroll_position m = S n mod (length t + 5) /\
  label_text m = slice (n mod (length t + 5)) (n mod (length t + 5) + w)
                   (t ++ separator ++ t).

End Marquee.

(* ===================================================================== *)
(** * The tooltip of a widget                                             *)
(* ===================================================================== *)

Module ToolTip.

(** The two fields that [ToolTip] changes, with what Tk holds for it: the
    callbacks scheduled with [after] that have neither run nor been
    cancelled, and the [Toplevel] windows that are open. *)
Record Tip : Type := mkTip {
  tooltip_window : option nat;
  scheduled_id : option nat;
  timers : list nat;
  windows : list nat;
  next_id : nat
}.

(** [ToolTip(widget, text)] *)
Definition init : Tip := mkTip None None [] [] 0.

(** [_hide_tooltip] *)
Definition _hide_tooltip (t : Tip) : Tip :=
  let t :=
    match scheduled_id t with
    | Some job =>
        mkTip (tooltip_window t) None
              (List.filter (fun j => negb (Nat.eqb j job)) (timers t))
              (windows t) (next_id t)
    | None => t
    end in
  match tooltip_window t with
  | Some tw =>
      mkTip None (scheduled_id t) (timers t)
            (List.filter (fun w => negb (Nat.eqb w tw)) (windows t)) (next_id t)
  | None => t
  end.

(** [_schedule_tooltip] *)
Definition _schedule_tooltip (t : Tip) : Tip :=
  let t := _hide_tooltip t in
  mkTip (tooltip_window t) (Some (next_id t)) (timers t ++ [next_id t])
        (windows t) (S (next_id t)).

(** [_show_tooltip] *)
Definition _show_tooltip (t : Tip) : Tip :=
  match tooltip_window t with
  | Some _ => t
  | None =>
      mkTip (Some (next_id t)) (scheduled_id t) (timers t)
            (windows t ++ [next_id t]) (S (next_id t))
  end.

(** The bindings of [__init__], and the firing by Tk of the oldest
    scheduled callback. *)
Inductive event : Type :=
| Enter
| Leave
| Button1
| Fire.

Definition handle (e : event) (t : Tip) : Tip :=
  match e with
  | Enter => _schedule_tooltip t
  | Leave | Button1 => _hide_tooltip t
  | Fire =>
      match timers t with
      | [] => t
      | _ :: rest =>
          _show_tooltip (mkTip (tooltip_window t) (scheduled_id t) rest
                               (windows t) (next_id t))
      end
  end.

Definition handle_all (events : list event) (t : Tip) : Tip :=
  fold_left (fun t e => handle e t) events t.

(** The open windows are the one remembered in [tooltip_window]; a
    pending callback is the one remembered in [scheduled_id], and none
    is pending while a window is open. *)
Definition consistent (t : Tip) : Prop :=
  windows t = match tooltip_window t with Some w => [w] | None => [] end /\
  (timers t = [] \/
   tooltip_window t = None /\ exists j, scheduled_id t = Some j /\ timers t = [j]).

End ToolTip.

(* ===================================================================== *)
(** * Tactics                                                             *)
(* ===================================================================== *)

(** Closes the case of a label of the combo box, given the number [n]
    that the label starts with. *)
Ltac label_case n :=
  exists n; split; [set_solver | by vm_compute].

(* ===================================================================== *)
(** * Sample runs                                                         *)
(* ===================================================================== *)

Example sample_format_video :
  format_string "video" "1080p (Full HD)" =
  Ok "bestvideo[height<=1080]+bestaudio/best[height<=1080]/bestvideo+bestaudio/best".
Proof. reflexivity. Qed.

Example sample_sizes :
  format_file_size_text <$> [5; -5; 1023; 1024; 1280; 1536; 1075; 5368709120]%Z =
  ["5.0 B"; "-5.0 B"; "1023.0 B"; "1.0 KB"; "1.2 KB"; "1.5 KB"; "1.0 KB"; "5.0 GB"].
Proof. by vm_compute. Qed.

Example sample_format_audio :
  format_string "audio" "192kbps (Medium)" = Ok "bestaudio[abr<=192]/bestaudio/best".
Proof. reflexivity. Qed.

Example sample_listing :
  fst (resolve Sample.url (ExtractReturns (Some (mkInfo ∅ (Some Sample.listing))))) =
  [mkEntry (PStr "First") (PStr "https://example.org/v/a1") (PStr "a1");
   mkEntry (PStr "Unknown") (PStr "https://youtube.com/watch?v=c3") (PStr "c3")].
Proof. reflexivity. Qed.

(** An entry that is a dict without any key is falsy, like [None]. *)
Example sample_empty_entry :
  fst (resolve Sample.url (ExtractReturns (Some (mkInfo ∅ (Some [Some ∅; None]))))) = [].
Proof. reflexivity. Qed.

Example sample_partial_failure :
  snd (run_batch Sample.second_fails_env Sample.opts
         [Sample.entry 1; Sample.entry 2; Sample.entry 3] Sample.active_app) =
  mkSummary 3 2 false PartiallyFailed
    [IterDownloaded; IterError "ERROR: Video unavailable"; IterDownloaded].
Proof. reflexivity. Qed.

Example sample_interrupted :
  snd (run_batch Sample.stop_during_env Sample.opts [Sample.entry 1; Sample.entry 2]
         Sample.active_app) =
  mkSummary 2 0 true Cancelled [IterStopRaised].
Proof. reflexivity. Qed.

(** A whole run of the worker on a listing that raises: the trace of the
    calls it makes. *)
Example sample_fallback_run :
  effects (fst (_download_video (Sample.quiet_env ExtractRaises) Sample.active_app)) =
  [EStatus TxtFetching "downloading"; EExtractInfo Sample.url;
   EDownload Sample.opts (PStr Sample.url);
   EProgress (inject_Z 50 / inject_Z 100 * 100);
   EStatus (TxtProgress 1 1 (PStr "Unknown") (inject_Z 50 / inject_Z 100 * 100) None)
     "downloading";
   EUpdateIdle;
   EProgress (inject_Z 100 / inject_Z 100 * 100);
   EStatus (TxtProgress 1 1 (PStr "Unknown") (inject_Z 100 / inject_Z 100 * 100) None)
     "downloading";
   EUpdateIdle;
   EStatus (TxtProcessing 1 1) "downloading";
   EProgress 100; EStatus (TxtCompleted 1 1) "success"; EAskOpenFolder true;
   EBtnEnabled true; EProgress 0; EBtnText "Download"].
Proof. reflexivity. Qed.

(** White space is that of [str.isspace()]: a URL field that holds a
    no-break space (U+00A0) only is blank, and an ideographic space
    (U+3000) is stripped and splits like a space. *)
Example sample_unicode_space :
  all_space (utf8 [194; 160]) = true /\
  strip (utf8 [32; 194; 160; 104; 227; 128; 128]) = "h" /\
  split (utf8 [55; 50; 48; 112; 227; 128; 128; 40; 72; 68; 41]) = ["720p"; "(HD)"] /\
  _start_download (set_url_entry (utf8 [194; 160]) (set_downloading false Sample.active_app)) =
  emit (EShowError "Error" "Please enter a video URL")
    (set_url_entry (utf8 [194; 160]) (set_downloading false Sample.active_app)).
Proof. by vm_compute. Qed.

(** A speed given as a str of digits is read by [int] and shown. *)
Example sample_str_speed :
  effects (fst (run_fetch (make_progress_hook SampleRun.int_sample 1 0 (Sample.entry 1))
                  [HookCall SampleRun.str_speed_event] FetchOk Sample.active_app)) =
  [EProgress (inject_Z 50 / inject_Z 100 * 100);
   EStatus (TxtProgress 1 1 (PStr "clip") (inject_Z 50 / inject_Z 100 * 100) (Some 2048%Z))
     "downloading";
   EUpdateIdle] /\
  format_file_size_text 2048 = "2.0 KB".
Proof. by vm_compute. Qed.

(* ===================================================================== *)
(** * Basic facts about the state                                         *)
(* ===================================================================== *)

Section StateFacts.

Lemma emit_fields e st :
  downloading (emit e st) = downloading st /\
  stop_requested (emit e st) = stop_requested st /\
  progress_var (emit e st) = progress_var st /\
  effects (emit e st) = effects st ++ [e].
Proof. by destruct st. Qed.

Lemma set_progress_fields p st :
  downloading (set_progress p st) = downloading st /\
  stop_requested (set_progress p st) = stop_requested st /\
  progress_var (set_progress p st) = p /\
  effects (set_progress p st) = effects st ++ [EProgress p].
Proof. by destruct st. Qed.

Lemma stop_download_active st :
  downloading st = true ->
  downloading (_stop_download st) = true /\
  stop_requested (_stop_download st) = true /\
  progress_var (_stop_download st) = progress_var st /\
  effects (_stop_download st) = effects st ++ [EStatus TxtStopping "downloading"].
Proof. intros Hd. unfold _stop_download. rewrite Hd. by destruct st. Qed.

Lemma same_request_opts a b : same_request a b -> build_ydl_opts a = build_ydl_opts b.
Proof.
  intros (_ & Hdeno & _ & Hpath & Hfmt & Hq).
  unfold build_ydl_opts, _get_format_string. by rewrite Hdeno, Hpath, Hfmt, Hq.
Qed.

Lemma same_request_emit e st : same_request (emit e st) st.
Proof. by destruct st. Qed.

Lemma same_request_stop st : same_request (_stop_download st) st.
Proof. unfold _stop_download. by destruct st as [[] ? ? ? ? ? ? ? ? ?]. Qed.

Lemma same_request_trans a b c : same_request a b -> same_request b c -> same_request a c.
Proof. unfold same_request. intuition congruence. Qed.

End StateFacts.

(* ===================================================================== *)
(** * Starting while a run is active                                      *)
(* ===================================================================== *)

(** C4 (as amended). While a run is active, [_start_download] starts no
    second run: it is [_stop_download]. No thread is started and no error
    box is shown, the downloading flag and the progress value stay as they
    are, but the stop flag is set and "Stopping..." is displayed. *)
Theorem C4_start_while_active_requests_stop (st : App) :
  downloading st = true ->
  _start_download st = _stop_download st /\
  downloading (_start_download st) = true /\
  progress_var (_start_download st) = progress_var st /\
  stop_requested (_start_download st) = true /\
  effects (_start_download st) = effects st ++ [EStatus TxtStopping "downloading"].
Proof.
  intros Hd.
  assert (Heq : _start_download st = _stop_download st).
  { unfold _start_download. by rewrite Hd. }
  rewrite Heq. destruct (stop_download_active st Hd) as (? & ? & ? & ?). done.
Qed.

Lemma C4_start_while_active_witness :
  stop_requested (_start_download Sample.active_app) = true.
Proof.
  apply (C4_start_while_active_requests_stop Sample.active_app). reflexivity.
Defined.

(** C4, as stated, fails: on an active run whose stop flag is clear,
    starting again sets the stop flag, and nothing is rejected (the trace
    gains no error box, only the "Stopping..." status). *)
Lemma C4_counterexample :
  downloading Sample.active_app = true /\
  stop_requested Sample.active_app = false /\
  stop_requested (_start_download Sample.active_app) = true /\
  effects (_start_download Sample.active_app) = [EStatus TxtStopping "downloading"].
Proof. by vm_compute. Qed.

(* ===================================================================== *)
(** * Format selection                                                    *)
(* ===================================================================== *)

Lemma format_string_total fmt label tok rest :
  split label = tok :: rest ->
  format_string fmt label =
    Ok (if String.eqb fmt "video" then video_format (replace "p" "" tok)
        else audio_format (replace "kbps" "" tok)).
Proof.
  intros Hs. unfold format_string, first_token. rewrite Hs.
  by destruct (String.eqb fmt "video").
Qed.

(** C5 (as amended). Every label of the combo box of a kind gives the
    format string of that kind, bounded by the number the label starts
    with, and the post-processor of that kind; so do the bare labels
    2160p ... 144p and 320kbps ... 128kbps. The label that the program
    selects when the kind changes is in the list of that kind. No label
    is rejected as invalid: any label with a first token gives a format
    string built from that token, and a label without one raises
    IndexError. *)
Theorem C5_format_selection :
  (forall label, label ∈ qualities "video" ->
     exists n, n ∈ ["2160"; "1440"; "1080"; "720"; "480"; "360"; "240"; "144"] /\
       first_token label = Ok (n +:+ "p") /\
       format_string "video" label = Ok (video_format n) /\
       select_postprocessor "video" label = Ok (FFmpegVideoConvertor "mp4")) /\
  (forall label, label ∈ qualities "audio" ->
     exists n, n ∈ ["320"; "256"; "192"; "128"] /\
       first_token label = Ok (n +:+ "kbps") /\
       format_string "audio" label = Ok (audio_format n) /\
       select_postprocessor "audio" label = Ok (FFmpegExtractAudio "mp3" (n +:+ "kbps"))) /\
  (forall n, n ∈ ["2160"; "1440"; "1080"; "720"; "480"; "360"; "240"; "144"] ->
     format_string "video" (n +:+ "p") = Ok (video_format n) /\
     select_postprocessor "video" (n +:+ "p") = Ok (FFmpegVideoConvertor "mp4")) /\
  (forall n, n ∈ ["320"; "256"; "192"; "128"] ->
     format_string "audio" (n +:+ "kbps") = Ok (audio_format n) /\
     format_string "audio" (n +:+ " kbps") = Ok (audio_format n) /\
     select_postprocessor "audio" (n +:+ "kbps") = Ok (FFmpegExtractAudio "mp3" (n +:+ "kbps"))) /\
  (forall st, quality_var (_update_quality_options st) ∈ qualities (format_type st)) /\
  (forall fmt label tok rest, split label = tok :: rest ->
     format_string fmt label =
       Ok (if String.eqb fmt "video" then video_format (replace "p" "" tok)
           else audio_format (replace "kbps" "" tok))) /\
  (forall fmt label, split label = [] -> format_string fmt label = Raise IndexError).
Proof.
  split; [|split; [|split; [|split; [|split; [|split]]]]].
  - intros label Hin. cbn in Hin.
    repeat (apply elem_of_cons in Hin as [-> | Hin]);
      [ label_case "2160" | label_case "1440" | label_case "1080" | label_case "720"
      | label_case "480" | label_case "360" | label_case "240" | label_case "144"
      | inversion Hin ].
  - intros label Hin. cbn in Hin.
    repeat (apply elem_of_cons in Hin as [-> | Hin]);
      [ label_case "320" | label_case "256" | label_case "192" | label_case "128"
      | inversion Hin ].
  - intros n Hin.
    repeat (apply elem_of_cons in Hin as [-> | Hin]); try by vm_compute.
    inversion Hin.
  - intros n Hin.
    repeat (apply elem_of_cons in Hin as [-> | Hin]); try by vm_compute.
    inversion Hin.
  - intros st. unfold qualities. cbn. unfold default_quality.
    destruct (String.eqb (format_type st) "video"); set_solver.
  - intros fmt label tok rest Hs. by apply (format_string_total _ _ tok rest).
  - intros fmt label Hs. unfold format_string, first_token. rewrite Hs.
    by destruct (String.eqb fmt "video").
Qed.

Lemma C5_format_selection_witness :
  exists n, format_string "video" "720p (HD)" = Ok (video_format n).
Proof.
  destruct C5_format_selection as [Hvideo _].
  destruct (Hvideo "720p (HD)") as (n & _ & _ & Hf & _).
  - cbn. set_solver.
  - by exists n.
Defined.

(** C5, as stated, fails: a label outside the enumerated set is not
    rejected; it gives a format string like any other. *)
Lemma C5_counterexample :
  ("999p" ∉ qualities "video") /\
  format_string "video" "999p" = Ok (video_format "999") /\
  ("lossless" ∉ qualities "audio") /\
  format_string "audio" "lossless" = Ok (audio_format "lossless").
Proof.
  split; [|split; [|split]]; try reflexivity.
  - cbn. intros H. repeat (apply elem_of_cons in H as [H | H]; [discriminate|]).
    inversion H.
  - cbn. intros H. repeat (apply elem_of_cons in H as [H | H]; [discriminate|]).
    inversion H.
Qed.

(* ===================================================================== *)
(** * The progress value of one event                                     *)
(* ===================================================================== *)

Section ProgressValue.

Lemma scale_back (q : Q) : (q * 100 / 100 == q)%Q.
Proof. field. Qed.

Lemma ratio_in_unit (x t : Z) :
  (0 <= x <= t)%Z -> t <> 0%Z -> (0 <= inject_Z x / inject_Z t <= 1)%Q.
Proof.
  intros [Hx Hxt] Ht.
  assert (Hpos : (inject_Z 0 < inject_Z t)%Q) by (rewrite <- Zlt_Qlt; lia).
  split.
  - apply Qle_shift_div_l; [done|]. rewrite Qmult_0_l.
    change (inject_Z 0 <= inject_Z x)%Q. by rewrite <- Zle_Qle.
  - apply Qle_shift_div_r; [done|]. rewrite Qmult_1_l. by rewrite <- Zle_Qle.
Qed.

Lemma ratio_mono (x y t : Z) :
  (x <= y)%Z -> (0 <= t)%Z ->
  (inject_Z x / inject_Z t * 100 <= inject_Z y / inject_Z t * 100)%Q.
Proof.
  intros Hxy Ht.
  apply Qmult_le_compat_r; [|discriminate].
  apply Qmult_le_compat_r; [by rewrite <- Zle_Qle|].
  apply Qinv_le_0_compat. change (inject_Z 0 <= inject_Z t)%Q. by rewrite <- Zle_Qle.
Qed.

(** The divisor of the hook is never zero. *)
Lemma event_progress_guarded (d : raw_event) : event_progress d <> Raise ZeroDivisionError.
Proof.
  unfold event_progress.
  destruct (truthy (event_total d)) eqn:Htruthy; [|done].
  destruct (event_downloaded d) as [|x|s], (event_total d) as [|t|s']; try done.
  cbn in *. by destruct (t =? 0)%Z.
Qed.

Lemma event_progress_known (d : raw_event) (x t : Z) :
  event_downloaded d = PInt x -> event_total d = PInt t -> t <> 0%Z ->
  event_progress d = Ok (inject_Z x / inject_Z t * 100)%Q.
Proof.
  intros Hx Ht Hnz. unfold event_progress. rewrite Hx, Ht. cbn.
  apply Z.eqb_neq in Hnz. by rewrite Hnz.
Qed.

Lemma event_progress_unknown (d : raw_event) :
  truthy (event_total d) = false -> event_progress d = Ok 0%Q.
Proof. intros H. unfold event_progress. by rewrite H. Qed.

(** What the hook does with a 'downloading' event whose progress and
    speed can be computed. *)
Lemma hook_sets_progress int_str total_count i entry d st q speed :
  stop_requested st = false ->
  py_eq_str (py_get (ev_dict d) "status") "downloading" = true ->
  event_progress d = Ok q -> event_speed int_str d = Ok speed ->
  make_progress_hook int_str total_count i entry d st =
    Ok (emit EUpdateIdle
         (_update_status (TxtProgress (i + 1) total_count (event_title d entry) q speed)
            "downloading" (set_progress q st))).
Proof.
  intros Hstop Hstatus Hq Hspeed.
  unfold make_progress_hook, report_progress. by rewrite Hstop, Hstatus, Hq, Hspeed.
Qed.

End ProgressValue.

(** C6 (as amended). For a 'downloading' event the hook computes the
    percentage 100 * downloaded / total, where total is total_bytes, or
    else total_bytes_estimate, when one of them is non-zero, and 0 when
    neither is; the division never meets a zero divisor; that value is
    what the hook stores in progress_var. As a fraction it is
    downloaded / total, and it lies in [0,1] whenever
    0 <= downloaded <= total. Nothing clamps it otherwise. *)
Theorem C6_progress_value (d : raw_event) (x t : Z) :
  event_downloaded d = PInt x -> event_total d = PInt t ->
  event_progress d <> Raise ZeroDivisionError /\
  (t = 0%Z -> event_progress d = Ok 0%Q) /\
  (t <> 0%Z ->
     event_progress d = Ok (inject_Z x / inject_Z t * 100)%Q /\
     (inject_Z x / inject_Z t * 100 / 100 == inject_Z x / inject_Z t)%Q /\
     ((0 <= x <= t)%Z -> (0 <= inject_Z x / inject_Z t * 100 / 100 <= 1)%Q)) /\
  (forall int_str total_count i entry st q speed,
     stop_requested st = false ->
     py_eq_str (py_get (ev_dict d) "status") "downloading" = true ->
     event_progress d = Ok q -> event_speed int_str d = Ok speed ->
     exists st', make_progress_hook int_str total_count i entry d st = Ok st' /\
       progress_var st' = q /\
       progress_values (effects st') = progress_values (effects st) ++ [q]).
Proof.
  intros Hx Ht. split; [apply event_progress_guarded|]. split; [|split].
  - intros ->. apply event_progress_unknown. by rewrite Ht.
  - intros Hnz. split; [by apply event_progress_known|].
    split; [apply scale_back|].
    intros Hrange. rewrite scale_back. by apply ratio_in_unit.
  - intros int_str total_count i entry st q speed Hstop Hstatus Hq Hspeed.
    eexists. split; [by apply hook_sets_progress|].
    destruct st as [? ? ? ? ? ? ? ? ? effs]. cbn. split; [done|].
    clear. induction effs as [|[] effs IH]; cbn; by rewrite ?IH.
Qed.

Lemma C6_progress_value_witness :
  event_progress (Sample.downloading_event 50 100) = Ok (inject_Z 50 / inject_Z 100 * 100)%Q.
Proof.
  destruct (C6_progress_value (Sample.downloading_event 50 100) 50 100)
    as (_ & _ & Hknown & _); [reflexivity | reflexivity |].
  apply Hknown. discriminate.
Defined.

(** C6, as stated, fails on its range: with a total that is only an
    estimate, the downloaded bytes can exceed it, and the value that the
    hook stores is then above 100 percent, a fraction above 1. *)
Lemma C6_counterexample :
  py_get (ev_dict (Sample.estimate_event 150 100)) "status" = PStr "downloading" /\
  event_progress (Sample.estimate_event 150 100) = Ok (inject_Z 150 / inject_Z 100 * 100)%Q /\
  ~ (inject_Z 150 / inject_Z 100 * 100 / 100 <= 1)%Q /\
  progress_values
    (effects (fst (run_fetch (make_progress_hook Sample.int_unused 1 0 (Sample.entry 1))
                     [HookCall (Sample.estimate_event 150 100)] FetchOk Sample.active_app)))
  = [(inject_Z 150 / inject_Z 100 * 100)%Q].
Proof.
  split; [reflexivity|]. split; [reflexivity|]. split; [|reflexivity].
  intros H. vm_compute in H. by apply H.
Qed.

(* ===================================================================== *)
(** * Resolution                                                          *)
(* ===================================================================== *)

Section Resolution.

Lemma append_entries_spec acc entries :
  append_entries acc entries = acc ++ (playlist_entry <$> present_entries entries).
Proof.
  revert acc. induction entries as [|[d|] entries IH]; intros acc; cbn.
  - by rewrite app_nil_r.
  - destruct (dict_truthy d); cbn; rewrite IH; [|done]. by rewrite <- app_assoc.
  - apply IH.
Qed.

Lemma present_entries_filter entries :
  length (present_entries entries) = length (filter (fun e => entry_truthy e = true) entries).
Proof.
  induction entries as [|e entries IH]; [done|].
  rewrite filter_cons.
  change (present_entries (e :: entries)) with
    (match (if entry_truthy e then e else None) with
     | Some x => x :: present_entries entries
     | None => present_entries entries
     end).
  destruct (entry_truthy e) eqn:He.
  - destruct e as [x|]; [|done]. rewrite decide_True by done. cbn. by rewrite IH.
  - by rewrite decide_False.
Qed.

Lemma present_entries_length entries :
  length (present_entries entries) <= length entries.
Proof.
  induction entries as [|e entries IH]; [done|].
  unfold present_entries in *. cbn.
  destruct e as [d|]; cbn; [destruct (dict_truthy d); cbn|]; lia.
Qed.

Lemma present_entries_drop entries e :
  e ∈ entries -> entry_truthy e = false ->
  length (present_entries entries) < length entries.
Proof.
  intros Hin Hfalsy. induction Hin as [e entries | e e' entries Hin IH].
  - pose proof (present_entries_length entries) as Hle.
    unfold present_entries in *. cbn. rewrite Hfalsy. cbn. lia.
  - specialize (IH Hfalsy). unfold present_entries in *. cbn.
    destruct (entry_truthy e'); [destruct e'|]; cbn; lia.
Qed.

Lemma download_loop_env (e1 e2 : string -> extract_script) d s o n opts total i entries c st :
  download_loop (mkEnv e1 d s o n) opts total i entries c st =
  download_loop (mkEnv e2 d s o n) opts total i entries c st.
Proof.
  revert i c st. induction entries as [|entry rest IH]; intros i c st; [done|].
  cbn. destruct (stop_requested st); [done|]. unfold fetch_entry. cbn [download int_of_str].
  destruct (run_fetch _ _ _ _) as [st' [[]|e]]; rewrite ?IH; [done|].
  destruct (contains _ _); by rewrite ?IH.
Qed.

Lemma run_batch_env (e1 e2 : string -> extract_script) d s o n opts entries st :
  run_batch (mkEnv e1 d s o n) opts entries st = run_batch (mkEnv e2 d s o n) opts entries st.
Proof. unfold run_batch. by rewrite (download_loop_env e1 e2). Qed.

End Resolution.

(** C9. In a collection listing, the entries that are absent (None, or a
    dict without any key: those that [if entry:] rejects) are dropped
    without a trace. The resolved sequence has exactly one unit per
    remaining entry, in the order of the backend, the k-th unit coming
    from the k-th remaining entry; so the number of units is the number
    of such entries, at most the number of entries reported, and
    strictly smaller as soon as one entry is absent. *)
Theorem C9_absent_entries_dropped (url : string) (d : gmap string pyval)
    (entries : list (option (gmap string pyval))) :
  let units := fst (resolve url (ExtractReturns (Some (mkInfo d (Some entries))))) in
  units = playlist_entry <$> present_entries entries /\
  (forall k, units !! k = playlist_entry <$> present_entries entries !! k) /\
  length units = length (filter (fun e => entry_truthy e = true) entries) /\
  length units <= length entries /\
  (forall e, e ∈ entries -> entry_truthy e = false -> length units < length entries) /\
  (None ∈ entries -> length units < length entries).
Proof.
  cbn. rewrite append_entries_spec. cbn. rewrite length_fmap.
  split; [done|]. split; [intros k; by rewrite list_lookup_fmap|].
  split; [apply present_entries_filter|]. split; [apply present_entries_length|].
  split; [apply present_entries_drop|].
  intros Hin. by apply (present_entries_drop entries None).
Qed.

Lemma C9_absent_entries_dropped_witness :
  length (fst (resolve Sample.url
                 (ExtractReturns (Some (mkInfo ∅ (Some Sample.listing)))))) < 3.
Proof.
  apply (C9_absent_entries_dropped Sample.url ∅ Sample.listing).
  unfold Sample.listing. set_solver.
Defined.

(* ===================================================================== *)
(** * The trace of a run                                                  *)
(* ===================================================================== *)

Section Trace.

Lemma extends_refl st : extends st st.
Proof.
  split; [done|]. split; [done|]. exists []. cbn.
  by rewrite app_nil_r, orb_false_r.
Qed.

Lemma extends_trans a b c : extends a b -> extends b c -> extends a c.
Proof.
  intros (Hd1 & Hr1 & n1 & He1 & Hs1) (Hd2 & Hr2 & n2 & He2 & Hs2).
  split; [congruence|]. split; [by eapply same_request_trans|].
  exists (n1 ++ n2). rewrite He2, He1, Hs2, Hs1, existsb_app.
  by rewrite app_assoc, orb_assoc.
Qed.

Lemma extends_emit e st : is_stopping e = false -> extends st (emit e st).
Proof.
  intros He. destruct st. split; [done|]. split; [done|]. exists [e]. cbn.
  by rewrite He, !orb_false_r.
Qed.

Lemma extends_set_progress p st : extends st (set_progress p st).
Proof.
  destruct st. split; [done|]. split; [done|]. exists [EProgress p]. cbn.
  by rewrite !orb_false_r.
Qed.

Lemma extends_stop st : extends st (_stop_download st).
Proof.
  unfold _stop_download. destruct (downloading st) eqn:Hd; [|apply extends_refl].
  destruct st. cbn in *. split; [done|]. split; [done|].
  exists [EStatus TxtStopping "downloading"]. cbn. by rewrite orb_true_r.
Qed.

Lemma extends_stop_flag st st' :
  extends st st' -> stop_requested st = true -> stop_requested st' = true.
Proof. intros (_ & _ & new & _ & Hs) H. by rewrite Hs, H. Qed.

Lemma progress_values_app a b :
  progress_values (a ++ b) = progress_values a ++ progress_values b.
Proof. induction a as [|[] a IH]; cbn; by rewrite ?IH. Qed.

Lemma report_progress_ok int_str tc i entry d st st' :
  report_progress int_str i tc entry d st = Ok st' ->
  extends st st' /\ stop_requested st' = stop_requested st /\
  exists q, event_progress d = Ok q /\
            progress_values (effects st') = progress_values (effects st) ++ [q].
Proof.
  unfold report_progress.
  destruct (event_progress d) as [q|]; [|done]. cbn.
  destruct (event_speed int_str d) as [speed|]; [|done]. cbn. intros [= <-].
  split; [|split].
  - eapply extends_trans; [apply extends_set_progress|].
    eapply extends_trans; by apply extends_emit.
  - by destruct st.
  - exists q. split; [done|]. destruct st. cbn.
    by rewrite <- !app_assoc, progress_values_app.
Qed.

(** The two ways a call of the hook can end. *)
Lemma hook_result int_str tc i entry d st :
  (stop_requested st = true /\
   make_progress_hook int_str tc i entry d st = Raise (Exception "Download stopped by user")) \/
  (stop_requested st = false /\
   exists st', make_progress_hook int_str tc i entry d st = Ok st' /\
     extends st st' /\ stop_requested st' = false /\
     (progress_values (effects st') = progress_values (effects st) \/
      (py_eq_str (py_get (ev_dict d) "status") "downloading" = true /\
       exists q, event_progress d = Ok q /\
         progress_values (effects st') = progress_values (effects st) ++ [q]))).
Proof.
  unfold make_progress_hook. destruct (stop_requested st) eqn:Hstop; [by left|right].
  split; [done|].
  destruct (py_eq_str _ "downloading") eqn:Hdl.
  - destruct (report_progress int_str i tc entry d st) as [st'|e] eqn:Hrep.
    + apply report_progress_ok in Hrep as (Hext & Hflag & q & Hq & Hvals).
      exists st'. split; [done|]. split; [done|]. split; [congruence|].
      right. split; [done|]. by exists q.
    + exists st. split; [done|]. split; [apply extends_refl|]. split; [done|]. by left.
  - destruct (py_eq_str _ "finished").
    + eexists. split; [done|]. split; [by apply extends_emit|].
      destruct st. cbn in *. split; [done|]. left. by rewrite progress_values_app, app_nil_r.
    + exists st. split; [done|]. split; [apply extends_refl|]. split; [done|]. by left.
Qed.

Lemma run_fetch_extends int_str tc i entry events fin st :
  extends st (fst (run_fetch (make_progress_hook int_str tc i entry) events fin st)).
Proof.
  revert st. induction events as [|[d|] events IH]; intros st; cbn.
  - destruct fin; apply extends_refl.
  - destruct (hook_result int_str tc i entry d st) as [[_ ->] | (_ & st' & -> & Hext & _)].
    + apply extends_refl.
    + eapply extends_trans; [exact Hext | apply IH].
  - eapply extends_trans; [apply extends_stop | apply IH].
Qed.

(** A stretch of a script without stop request, entered with the stop
    flag clear, is run to its end and leaves the flag clear. *)
Lemma run_fetch_quiet int_str tc i entry events st :
  no_user_stop events = true -> stop_requested st = false ->
  exists st1, stop_requested st1 = false /\ extends st st1 /\
    forall rest fin,
      run_fetch (make_progress_hook int_str tc i entry) (events ++ rest) fin st =
      run_fetch (make_progress_hook int_str tc i entry) rest fin st1.
Proof.
  revert st. induction events as [|[d|] events IH]; intros st Hquiet Hstop; cbn in *.
  - exists st. split; [done|]. split; [apply extends_refl | done].
  - destruct (hook_result int_str tc i entry d st) as [[? _] | (_ & st' & Hhook & Hext & Hstop' & _)];
      [congruence|].
    destruct (IH st' Hquiet Hstop') as (st1 & Hs1 & Hext1 & Hrun).
    exists st1. split; [done|]. split; [by eapply extends_trans|].
    intros rest fin. rewrite Hhook. apply Hrun.
  - done.
Qed.

Lemma run_fetch_quiet_end int_str tc i entry events fin st :
  no_user_stop events = true -> stop_requested st = false ->
  exists st1, run_fetch (make_progress_hook int_str tc i entry) events fin st = (st1, end_result fin) /\
    stop_requested st1 = false /\ extends st st1.
Proof.
  intros Hquiet Hstop.
  destruct (run_fetch_quiet int_str tc i entry events st Hquiet Hstop) as (st1 & Hs1 & Hext & Hrun).
  exists st1. specialize (Hrun [] fin). rewrite app_nil_r in Hrun. rewrite Hrun.
  by destruct fin.
Qed.

Lemma download_loop_extends env opts total i entries c st :
  extends st (lx_app (download_loop env opts total i entries c st)).
Proof.
  revert i c st. induction entries as [|entry rest IH]; intros i c st; cbn.
  - apply extends_refl.
  - destruct (stop_requested st); [apply extends_refl|].
    pose proof (run_fetch_extends (int_of_str env) total i entry (fs_events (download env i (e_url entry)))
                  (fs_end (download env i (e_url entry)))
                  (emit (EDownload opts (e_url entry)) st)) as Hfetch.
    assert (Hemit : extends st (emit (EDownload opts (e_url entry)) st))
      by by apply extends_emit.
    fold (fetch_entry env opts total i entry st) in Hfetch.
    destruct (fetch_entry _ _ _ _ _ _) as [st' [[]|e]]; cbn in Hfetch.
    + eapply extends_trans; [exact Hemit|].
      eapply extends_trans; [exact Hfetch | apply IH].
    + destruct (contains _ _); cbn.
      * eapply extends_trans; [exact Hemit | exact Hfetch].
      * eapply extends_trans; [exact Hemit|].
        eapply extends_trans; [exact Hfetch | apply IH].
Qed.

End Trace.

(* ===================================================================== *)
(** * The download loop                                                   *)
(* ===================================================================== *)

Section Loop.

Variables (env : Env) (opts : ydl_opts) (total : nat).

Abbreviation fetch := (fetch_entry env opts total).

Lemma loop_stop_seen i entry rest c st :
  stop_requested st = true ->
  download_loop env opts total i (entry :: rest) c st = mkExit st c [IterStopSeen].
Proof. intros H. cbn. by rewrite H. Qed.

Lemma loop_downloaded i entry rest c st st2 :
  stop_requested st = false -> fetch i entry st = (st2, Ok tt) ->
  download_loop env opts total i (entry :: rest) c st =
  cons_path IterDownloaded (download_loop env opts total (S i) rest (c + 1) st2).
Proof. intros H Hf. cbn. by rewrite H, Hf. Qed.

Lemma loop_error i entry rest c st st2 e :
  stop_requested st = false -> fetch i entry st = (st2, Raise e) ->
  contains "Download stopped by user" (exn_str e) = false ->
  download_loop env opts total i (entry :: rest) c st =
  cons_path (IterError (exn_str e)) (download_loop env opts total (S i) rest c st2).
Proof. intros H Hf Hc. cbn. by rewrite H, Hf, Hc. Qed.

Lemma loop_stop_raised i entry rest c st st2 e :
  stop_requested st = false -> fetch i entry st = (st2, Raise e) ->
  contains "Download stopped by user" (exn_str e) = true ->
  download_loop env opts total i (entry :: rest) c st = mkExit st2 c [IterStopRaised].
Proof. intros H Hf Hc. cbn. by rewrite H, Hf, Hc. Qed.

(** A fetch without stop request, begun with the flag clear, ends the way
    the backend ends it. *)
Lemma fetch_quiet i entry st :
  stop_requested st = false ->
  no_user_stop (fs_events (download env i (e_url entry))) = true ->
  exists st2, fetch i entry st = (st2, end_result (fs_end (download env i (e_url entry)))) /\
    stop_requested st2 = false /\ extends st st2.
Proof.
  intros Hstop Hquiet. unfold fetch_entry.
  destruct (run_fetch_quiet_end (int_of_str env) total i entry _ (fs_end (download env i (e_url entry)))
              (emit (EDownload opts (e_url entry)) st) Hquiet)
    as (st2 & Hrun & Hs2 & Hext); [by destruct st|].
  exists st2. split; [done|]. split; [done|].
  eapply extends_trans; [|exact Hext]. by apply extends_emit.
Qed.

(** A fetch whose script ends with a stop request of the user. *)
Lemma fetch_then_stop i entry st events fin :
  stop_requested st = false -> downloading st = true ->
  download env i (e_url entry) = mkFetch (events ++ [UserStop]) fin ->
  no_user_stop events = true ->
  exists st2, fetch i entry st = (st2, end_result fin) /\
    stop_requested st2 = true /\ extends st st2.
Proof.
  intros Hstop Hdl Hscript Hquiet. unfold fetch_entry. rewrite Hscript. cbn [fs_events fs_end].
  assert (Hemit : extends st (emit (EDownload opts (e_url entry)) st))
    by by apply extends_emit.
  destruct (run_fetch_quiet (int_of_str env) total i entry events (emit (EDownload opts (e_url entry)) st) Hquiet)
    as (st1 & Hs1 & Hext & Hrun); [by destruct st|].
  rewrite Hrun. cbn. exists (_stop_download st1).
  assert (Hd1 : downloading st1 = true).
  { destruct Hext as (-> & _). by destruct st. }
  destruct (stop_download_active st1 Hd1) as (_ & Hflag & _).
  split; [by destruct fin|]. split; [done|].
  eapply extends_trans; [exact Hemit|].
  eapply extends_trans; [exact Hext | apply extends_stop].
Qed.

Lemma loop_stop_seen_flag i entries c st :
  In IterStopSeen (lx_path (download_loop env opts total i entries c st)) ->
  stop_requested (lx_app (download_loop env opts total i entries c st)) = true.
Proof.
  revert i c st. induction entries as [|entry rest IH]; intros i c st; cbn; [done|].
  destruct (stop_requested st) eqn:Hstop; [done|].
  destruct (fetch_entry _ _ _ _ _ _) as [st2 [[]|e]]; cbn.
  - intros [|Hin]; [done|]. by apply IH.
  - destruct (contains _ _); cbn.
    + by intros [|[]].
    + intros [|Hin]; [done|]. by apply IH.
Qed.

(** The outcomes of the specification, read off the loop: one per entry,
    and as many Succeeded ones as the counter has grown. *)
Lemma loop_outcomes i entries c st :
  let x := download_loop env opts total i entries c st in
  length (outcomes_from (length entries) (lx_path x)) = length entries /\
  lx_completed x = c + succeeded_count (outcomes_from (length entries) (lx_path x)).
Proof.
  revert i c st. induction entries as [|entry rest IH]; intros i c st; cbn.
  - split; [done | lia].
  - assert (Hskip : forall n, succeeded_count (repeat SkippedByCancellation n) = 0)
      by (intros n; induction n; cbn; done).
    destruct (stop_requested st).
    { cbn. rewrite repeat_length, (Hskip (length rest)). split; lia. }
    destruct (fetch_entry _ _ _ _ _ _) as [st2 [[]|e]]; cbn.
    + rewrite Nat.sub_0_r. destruct (IH (S i) (c + 1) st2) as [-> ->]. split; lia.
    + destruct (contains _ _); cbn.
      * rewrite repeat_length, (Hskip (length rest)). split; lia.
      * rewrite Nat.sub_0_r. destruct (IH (S i) c st2) as [-> ->]. split; lia.
Qed.

End Loop.

Lemma succeeded_count_le l : succeeded_count l <= length l.
Proof. induction l as [|[] l IH]; cbn; lia. Qed.

Lemma succeeded_count_all l :
  succeeded_count l = length l -> l = repeat Succeeded (length l).
Proof.
  induction l as [|u l IH]; [done|]. pose proof (succeeded_count_le l).
  destruct u; cbn; intros Hall; try lia. f_equal. apply IH. lia.
Qed.

(* ===================================================================== *)
(** * The final status                                                    *)
(* ===================================================================== *)

Section FinalStatus.

Variables (env : Env) (opts : ydl_opts) (entries : list entry_data) (st : App).

Abbreviation at_check := (at_final_check env opts entries st).

Lemma run_batch_summary :
  let x := download_loop env opts (length entries) 0 entries 0 st in
  snd (run_batch env opts entries st) =
  mkSummary (length entries) (lx_completed x) (stop_requested at_check)
    (final_status_of (stop_requested at_check) (lx_completed x) (length entries))
    (lx_path x).
Proof. reflexivity. Qed.

Lemma at_final_check_extends : extends st at_check.
Proof.
  unfold at_final_check. eapply extends_trans; [apply download_loop_extends|].
  destruct (stop_after_loop env); [apply extends_stop | apply extends_refl].
Qed.

(** After the final check the trace gains no "Stopping...". *)
Lemma run_batch_trace :
  existsb is_stopping (effects (fst (run_batch env opts entries st))) =
  existsb is_stopping (effects at_check).
Proof.
  unfold run_batch. fold at_check. cbn [fst].
  destruct (final_status_of _ _ _); [| destruct (open_folder_answer env) |];
    destruct at_check; cbn; rewrite !existsb_app; cbn; by rewrite !orb_false_r.
Qed.

End FinalStatus.

(** C1 (as amended). A download that fails with an exception whose text
    does not carry the message of the stop exception is passed over: the
    counter stays, the unit is Failed in the outcomes, and the loop goes
    on with the next entry from the state the failed download left. In a
    batch of three with no stop request, where the first and third
    downloads succeed and the second fails that way, the outcomes are
    [Succeeded, Failed, Succeeded], two of three are completed, and the
    final status is the partial failure, not the cancellation. A failure
    whose text carries the message "Download stopped by user" is taken
    for a stop, whether or not a stop was requested: the loop is left
    and the later entries are not fetched. *)
Theorem C1_failure_is_not_fatal (env : Env) (opts : ydl_opts) :
  (forall total i entry rest c st st2 e,
     stop_requested st = false ->
     fetch_entry env opts total i entry st = (st2, Raise e) ->
     contains "Download stopped by user" (exn_str e) = false ->
     let next := download_loop env opts total (S i) rest c st2 in
     let x := download_loop env opts total i (entry :: rest) c st in
     x = cons_path (IterError (exn_str e)) next /\
     lx_completed x = lx_completed next /\
     outcomes_from (length (entry :: rest)) (lx_path x) =
       Failed (exn_str e) :: outcomes_from (length rest) (lx_path next)) /\
  (forall e1 e2 e3 st msg,
     stop_requested st = false -> stop_after_loop env = false ->
     (forall i url, no_user_stop (fs_events (download env i url)) = true) ->
     fs_end (download env 0 (e_url e1)) = FetchOk ->
     fs_end (download env 1 (e_url e2)) = FetchError msg ->
     contains "Download stopped by user" msg = false ->
     fs_end (download env 2 (e_url e3)) = FetchOk ->
     let s := snd (run_batch env opts [e1; e2; e3] st) in
     outcomes s = [Succeeded; Failed msg; Succeeded] /\
     completed_count s = 2 /\ total_count s = 3 /\
     status s = PartiallyFailed /\ cancelled s = false) /\
  (forall total i entry rest c st st2 e,
     stop_requested st = false ->
     fetch_entry env opts total i entry st = (st2, Raise e) ->
     contains "Download stopped by user" (exn_str e) = true ->
     let x := download_loop env opts total i (entry :: rest) c st in
     x = mkExit st2 c [IterStopRaised] /\
     lx_completed x = c /\
     download_calls (effects (lx_app x)) = download_calls (effects st2)).
Proof.
  split; [|split].
  3:{ intros total i entry rest c st st2 e Hstop Hfetch Hmsg x. subst x.
      by rewrite (loop_stop_raised env opts total i entry rest c st st2 e Hstop Hfetch Hmsg). }
  - intros total i entry rest c st st2 e Hstop Hfetch Hmsg next x. subst next x.
    rewrite (loop_error env opts total i entry rest c st st2 e Hstop Hfetch Hmsg).
    cbn. by rewrite Nat.sub_0_r.
  - intros e1 e2 e3 st msg Hstop Hafter Hquiet Hend1 Hend2 Hmsg Hend3 s. subst s.
    destruct (fetch_quiet env opts 3 0 e1 st Hstop (Hquiet _ _)) as (st1 & Hf1 & Hs1 & _).
    destruct (fetch_quiet env opts 3 1 e2 st1 Hs1 (Hquiet _ _)) as (st2 & Hf2 & Hs2 & _).
    destruct (fetch_quiet env opts 3 2 e3 st2 Hs2 (Hquiet _ _)) as (st3 & Hf3 & Hs3 & _).
    replace (end_result (fs_end (download env 0 (e_url e1)))) with (@Ok unit tt) in Hf1
      by (by rewrite Hend1).
    replace (end_result (fs_end (download env 1 (e_url e2))))
      with (@Raise unit (Exception msg)) in Hf2 by (by rewrite Hend2).
    replace (end_result (fs_end (download env 2 (e_url e3)))) with (@Ok unit tt) in Hf3
      by (by rewrite Hend3).
    rewrite run_batch_summary. unfold at_final_check. cbn [length]. rewrite Hafter.
    rewrite (loop_downloaded env opts 3 0 e1 _ 0 st st1 Hstop Hf1).
    rewrite (loop_error env opts 3 1 e2 _ _ st1 st2 _ Hs1 Hf2 Hmsg).
    rewrite (loop_downloaded env opts 3 2 e3 _ _ st2 st3 Hs2 Hf3).
    cbn. by rewrite Hs3.
Qed.

Lemma C1_failure_is_not_fatal_witness :
  lx_path (download_loop Sample.second_fails_env Sample.opts 3 1
             [Sample.entry 2; Sample.entry 3] 1 Sample.active_app)
  = IterError "ERROR: Video unavailable" ::
    lx_path (download_loop Sample.second_fails_env Sample.opts 3 2 [Sample.entry 3] 1
               (fst (fetch_entry Sample.second_fails_env Sample.opts 3 1 (Sample.entry 2)
                       Sample.active_app))) /\
  outcomes (snd (run_batch Sample.second_fails_env Sample.opts
                   [Sample.entry 1; Sample.entry 2; Sample.entry 3] Sample.active_app))
  = [Succeeded; Failed "ERROR: Video unavailable"; Succeeded].
Proof.
  destruct (C1_failure_is_not_fatal Sample.second_fails_env Sample.opts)
    as (Hstep & Hbatch & _).
  split.
  - destruct (Hstep 3 1 (Sample.entry 2) [Sample.entry 3] 1 Sample.active_app
                (fst (fetch_entry Sample.second_fails_env Sample.opts 3 1 (Sample.entry 2)
                        Sample.active_app))
                (Exception "ERROR: Video unavailable")) as [-> _]; reflexivity.
  - apply (Hbatch (Sample.entry 1) (Sample.entry 2) (Sample.entry 3) Sample.active_app
             "ERROR: Video unavailable"); try reflexivity.
    intros i url. cbn. by destruct (Nat.eqb i 1).
Defined.

(** C1, as stated, fails: nobody asks to stop, the second of three
    downloads fails with a backend error whose text happens to carry the
    message of the stop exception, and the driver does not record a
    failure and go on: it leaves the loop, the third unit is never
    fetched, and the run ends as a partial failure with one unit
    completed. *)
Lemma C1_counterexample :
  let r := run_batch Sample.stop_text_env Sample.opts
             [Sample.entry 1; Sample.entry 2; Sample.entry 3] Sample.active_app in
  existsb is_stopping (effects (fst r)) = false /\
  path (snd r) = [IterDownloaded; IterStopRaised] /\
  outcomes (snd r) = [Succeeded; SkippedByCancellation; SkippedByCancellation] /\
  outcomes (snd r) <>
    [Succeeded; Failed "ERROR: unable to download: Download stopped by user"; Succeeded] /\
  download_calls (effects (fst r)) = [e_url (Sample.entry 1); e_url (Sample.entry 2)] /\
  completed_count (snd r) = 1 /\ total_count (snd r) = 3 /\
  status (snd r) = PartiallyFailed /\ cancelled (snd r) = false.
Proof. by vm_compute. Qed.

(** C2. When the stop flag is set at the top of an iteration the loop is
    left at once, without a download call; when it is set at a call of
    the hook, the hook raises the stop exception, and a download that
    ends with that exception makes the loop leave as well. In both cases
    the current entry and all later ones are SkippedByCancellation in the
    outcomes, and a run that left the loop at the top of an iteration
    ends as cancelled. When the user asks to stop as the second of five
    downloads ends, the outcomes are two Succeeded and three
    SkippedByCancellation, and the run is cancelled. *)
Theorem C2_stop_skips_remaining (env : Env) (opts : ydl_opts) :
  (forall total i entry rest c st,
     stop_requested st = true ->
     download_loop env opts total i (entry :: rest) c st = mkExit st c [IterStopSeen] /\
     outcomes_from (length (entry :: rest)) [IterStopSeen] =
       repeat SkippedByCancellation (length (entry :: rest))) /\
  (forall int_str total i entry d st,
     stop_requested st = true ->
     make_progress_hook int_str total i entry d st = Raise (Exception "Download stopped by user") /\
     contains "Download stopped by user" (exn_str (Exception "Download stopped by user")) = true) /\
  (forall total i entry rest c st st2 e,
     stop_requested st = false ->
     fetch_entry env opts total i entry st = (st2, Raise e) ->
     contains "Download stopped by user" (exn_str e) = true ->
     download_loop env opts total i (entry :: rest) c st = mkExit st2 c [IterStopRaised] /\
     outcomes_from (length (entry :: rest)) [IterStopRaised] =
       repeat SkippedByCancellation (length (entry :: rest))) /\
  (forall entries st,
     In IterStopSeen (path (snd (run_batch env opts entries st))) ->
     cancelled (snd (run_batch env opts entries st)) = true /\
     status (snd (run_batch env opts entries st)) = Cancelled) /\
  (forall e1 e2 e3 e4 e5 st events,
     downloading st = true -> stop_requested st = false ->
     no_user_stop (fs_events (download env 0 (e_url e1))) = true ->
     fs_end (download env 0 (e_url e1)) = FetchOk ->
     download env 1 (e_url e2) = mkFetch (events ++ [UserStop]) FetchOk ->
     no_user_stop events = true ->
     let s := snd (run_batch env opts [e1; e2; e3; e4; e5] st) in
     outcomes s = [Succeeded; Succeeded; SkippedByCancellation; SkippedByCancellation;
                   SkippedByCancellation] /\
     completed_count s = 2 /\ total_count s = 5 /\
     cancelled s = true /\ status s = Cancelled).
Proof.
  split; [|split; [|split; [|split]]].
  - intros total i entry rest c st Hstop. split; [by apply loop_stop_seen | done].
  - intros int_str total i entry d st Hstop. split; [|reflexivity].
    unfold make_progress_hook. by rewrite Hstop.
  - intros total i entry rest c st st2 e Hstop Hfetch Hmsg.
    split; [by eapply loop_stop_raised | done].
  - intros entries st. rewrite run_batch_summary. cbn [path cancelled status].
    intros Hin. apply loop_stop_seen_flag in Hin.
    assert (Hflag : stop_requested (at_final_check env opts entries st) = true).
    { unfold at_final_check. destruct (stop_after_loop env); [|done].
      by eapply extends_stop_flag; [apply extends_stop|]. }
    by rewrite Hflag.
  - intros e1 e2 e3 e4 e5 st events Hdl Hstop Hquiet1 Hend1 Hscript2 Hquiet2 s. subst s.
    destruct (fetch_quiet env opts 5 0 e1 st Hstop Hquiet1) as (st1 & Hf1 & Hs1 & Hext1).
    replace (end_result (fs_end (download env 0 (e_url e1)))) with (@Ok unit tt) in Hf1
      by (by rewrite Hend1).
    assert (Hdl1 : downloading st1 = true) by (destruct Hext1 as (-> & _); done).
    destruct (fetch_then_stop env opts 5 1 e2 st1 events FetchOk Hs1 Hdl1 Hscript2 Hquiet2)
      as (st2 & Hf2 & Hs2 & _).
    cbn [end_result] in Hf2.
    rewrite run_batch_summary. unfold at_final_check. cbn [length].
    rewrite (loop_downloaded env opts 5 0 e1 _ 0 st st1 Hstop Hf1).
    rewrite (loop_downloaded env opts 5 1 e2 _ _ st1 st2 Hs1 Hf2).
    rewrite (loop_stop_seen env opts 5 2 e3 _ _ st2 Hs2).
    assert (Hflag : stop_requested (if stop_after_loop env then _stop_download st2 else st2)
                    = true).
    { destruct (stop_after_loop env); [|done].
      by eapply extends_stop_flag; [apply extends_stop|]. }
    cbn. by rewrite Hflag.
Qed.

Lemma C2_stop_skips_remaining_witness :
  download_loop Sample.stop_during_env Sample.opts 2 0 [Sample.entry 1; Sample.entry 2] 0
    Sample.active_app
  = mkExit (fst (fetch_entry Sample.stop_during_env Sample.opts 2 0 (Sample.entry 1)
                   Sample.active_app)) 0 [IterStopRaised] /\
  outcomes (snd (run_batch Sample.stop_after_second_env Sample.opts
                   [Sample.entry 1; Sample.entry 2; Sample.entry 3; Sample.entry 4;
                    Sample.entry 5] Sample.active_app))
  = [Succeeded; Succeeded; SkippedByCancellation; SkippedByCancellation;
     SkippedByCancellation].
Proof.
  split.
  - destruct (C2_stop_skips_remaining Sample.stop_during_env Sample.opts)
      as (_ & _ & Hraised & _).
    apply (Hraised 2 0 (Sample.entry 1) [Sample.entry 2] 0 Sample.active_app
             (fst (fetch_entry Sample.stop_during_env Sample.opts 2 0 (Sample.entry 1)
                     Sample.active_app))
             (Exception "Download stopped by user")); reflexivity.
  - destruct (C2_stop_skips_remaining Sample.stop_after_second_env Sample.opts)
      as (_ & _ & _ & _ & Hbatch).
    apply (Hbatch (Sample.entry 1) (Sample.entry 2) (Sample.entry 3) (Sample.entry 4)
             (Sample.entry 5) Sample.active_app (fs_events Sample.good_fetch));
      reflexivity.
Defined.

Lemma downloads_before_stop_traced effs k :
  downloads_before_stop effs = Some k -> existsb is_stopping effs = true.
Proof.
  revert k. induction effs as [|e effs IH]; intros k; cbn; [done|].
  destruct (is_stopping e); [done|]. cbn.
  destruct (is_download e); [|by apply IH].
  destruct (downloads_before_stop effs) as [k'|]; [|done]. intros _. by apply (IH k').
Qed.

(* ===================================================================== *)
(** * The progress values of one download                                 *)
(* ===================================================================== *)

Section ProgressSequence.

Variables (int_str : string -> result Z) (tc i : nat) (entry : entry_data) (t : Z).
Hypothesis total_nonneg : (0 <= t)%Z.

Lemma percent_of_mono (x y : Z) :
  (x <= y)%Z -> (percent_of t x <= percent_of t y)%Q.
Proof.
  intros Hxy. unfold percent_of. destruct (t =? 0)%Z; [apply Qle_refl|].
  by apply ratio_mono.
Qed.

Lemma event_progress_percent (d : raw_event) (x : Z) :
  event_total d = PInt t -> event_downloaded d = PInt x ->
  event_progress d = Ok (percent_of t x).
Proof.
  intros Ht Hx. unfold percent_of. destruct (Z.eqb_spec t 0) as [->|Hnz].
  - apply event_progress_unknown. by rewrite Ht.
  - by apply event_progress_known.
Qed.

Lemma stop_download_progress st :
  progress_values (effects (_stop_download st)) = progress_values (effects st).
Proof.
  unfold _stop_download. destruct (downloading st); [|done].
  destruct st. cbn. by rewrite progress_values_app, app_nil_r.
Qed.

(** The values stored during one download, when all 'downloading' events
    carry the total [t] and their downloaded bytes [xs] never decrease
    and stay above [lo]: a non-decreasing sequence above the percentage
    of [lo]. *)
Lemma fetch_progress_sorted events fin st xs lo :
  Forall (fun d => event_total d = PInt t) (downloading_events events) ->
  event_downloaded <$> downloading_events events = PInt <$> xs ->
  StronglySorted Z.le xs -> Forall (Z.le lo) xs ->
  exists vals,
    progress_values (effects (fst (run_fetch (make_progress_hook int_str tc i entry) events fin st)))
    = progress_values (effects st) ++ vals /\
    StronglySorted Qle vals /\ Forall (Qle (percent_of t lo)) vals.
Proof.
  revert st xs lo.
  induction events as [|[d|] events IH]; intros st xs lo Htotal Hbytes Hsorted Hlo.
  - exists []. cbn. destruct fin; cbn; rewrite app_nil_r; repeat split; constructor.
  - cbn [run_fetch].
    destruct (hook_result int_str tc i entry d st) as [[_ ->] | (_ & st' & -> & _ & _ & Hvals)].
    { exists []. cbn. rewrite app_nil_r. repeat split; constructor. }
    cbn [downloading_events] in Htotal, Hbytes.
    destruct (py_eq_str (py_get (ev_dict d) "status") "downloading") eqn:Hstatus.
    + destruct xs as [|x xs]; [done|]. cbn in Hbytes. injection Hbytes as Hx Hbytes.
      apply Forall_cons in Htotal as [Ht Htotal].
      apply StronglySorted_inv in Hsorted as [Hsorted Hfrom].
      apply Forall_cons in Hlo as [Hlox Hlo].
      destruct (IH st' xs x Htotal Hbytes Hsorted Hfrom) as (vals & -> & Hvs & Hvx).
      assert (Hvlo : Forall (Qle (percent_of t lo)) vals).
      { eapply Forall_impl; [exact Hvx|]. intros q Hq. cbn in Hq.
        eapply Qle_trans; [by apply percent_of_mono | exact Hq]. }
      destruct Hvals as [-> | (_ & q & Hq & ->)].
      * by exists vals.
      * rewrite (event_progress_percent d x Ht Hx) in Hq. injection Hq as <-.
        exists (percent_of t x :: vals). rewrite <- app_assoc. split; [done|].
        split; [by constructor|]. constructor; [by apply percent_of_mono | done].
    + destruct Hvals as [Hsame | (? & _)]; [|done].
      destruct (IH st' xs lo Htotal Hbytes Hsorted Hlo) as (vals & -> & Hvs & Hvlo).
      exists vals. by rewrite Hsame.
  - cbn [run_fetch]. cbn [downloading_events] in Htotal, Hbytes.
    destruct (IH (_stop_download st) xs lo Htotal Hbytes Hsorted Hlo) as (vals & -> & Hvs & Hvlo).
    exists vals. by rewrite stop_download_progress.
Qed.

End ProgressSequence.

(** C8 (as amended). During one download, if the 'downloading' events all
    carry the same total (total_bytes, or else total_bytes_estimate, or 0
    when neither is known), that total is not negative, and their
    downloaded bytes never decrease, then the values that the hook stores
    in progress_var never decrease. *)
Theorem C8_progress_monotone (int_str : string -> result Z) (tc i : nat)
    (entry : entry_data) (t : Z)
    (events : list fetch_event) (fin : fetch_end) (st : App) (xs : list Z) :
  (0 <= t)%Z ->
  Forall (fun d => event_total d = PInt t) (downloading_events events) ->
  event_downloaded <$> downloading_events events = PInt <$> xs ->
  Sorted Z.le xs ->
  exists vals,
    progress_values (effects (fst (run_fetch (make_progress_hook int_str tc i entry) events fin st)))
    = progress_values (effects st) ++ vals /\
    StronglySorted Qle vals.
Proof.
  intros Ht Htotal Hbytes Hsorted.
  apply Sorted_StronglySorted in Hsorted; [|intros a b c; apply Z.le_trans].
  destruct xs as [|x xs].
  - destruct (fetch_progress_sorted int_str tc i entry t Ht events fin st [] 0%Z)
      as (vals & Hvals & Hvs & _); try done. by exists vals.
  - destruct (fetch_progress_sorted int_str tc i entry t Ht events fin st (x :: xs) x)
      as (vals & Hvals & Hvs & _); try done.
    + apply StronglySorted_inv in Hsorted as [_ Hfrom]. constructor; [lia | done].
    + by exists vals.
Qed.

Lemma C8_progress_monotone_witness :
  exists vals,
    progress_values
      (effects (fst (run_fetch (make_progress_hook Sample.int_unused 1 0 (Sample.entry 1))
                       (fs_events Sample.good_fetch) FetchOk Sample.active_app)))
    = progress_values (effects Sample.active_app) ++ vals /\
    StronglySorted Qle vals.
Proof.
  apply (C8_progress_monotone Sample.int_unused 1 0 (Sample.entry 1) 100 (fs_events Sample.good_fetch)
           FetchOk Sample.active_app [50; 100]%Z).
  - lia.
  - cbn. repeat constructor.
  - reflexivity.
  - repeat constructor. lia.
Defined.

(** C8, as stated, fails: the downloaded bytes grow from 50 to 60 while
    the estimated total doubles from 100 to 200, and the stored values
    fall from 50 to 30 percent. *)
Lemma C8_counterexample :
  event_downloaded <$> downloading_events Sample.growing_estimate = [PInt 50; PInt 60] /\
  progress_values
    (effects (fst (run_fetch (make_progress_hook Sample.int_unused 1 0 (Sample.entry 1))
                     Sample.growing_estimate FetchOk Sample.active_app)))
  = [(inject_Z 50 / inject_Z 100 * 100)%Q; (inject_Z 60 / inject_Z 200 * 100)%Q] /\
  ~ (inject_Z 50 / inject_Z 100 * 100 <= inject_Z 60 / inject_Z 200 * 100)%Q.
Proof.
  split; [reflexivity|]. split; [reflexivity|].
  intros H. vm_compute in H. by apply H.
Qed.

(* ===================================================================== *)
(** * Human-readable sizes                                                *)
(* ===================================================================== *)

Section FileSize.

Lemma Qltb_lt (a b : Q) : Qltb a b = true <-> (a < b)%Q.
Proof.
  unfold Qltb. rewrite negb_true_iff. split.
  - intros H. apply Qnot_le_lt. intros Hle. apply Qle_bool_iff in Hle. congruence.
  - intros H. destruct (Qle_bool b a) eqn:Hle; [|done].
    apply Qle_bool_iff in Hle. exfalso. by apply (Qlt_not_le a b).
Qed.

Lemma Qltb_ge (a b : Q) : Qltb a b = false <-> (b <= a)%Q.
Proof.
  unfold Qltb. rewrite negb_false_iff. apply Qle_bool_iff.
Qed.

Lemma format_size_loop_spec (units : list string) (size v : Q) (u : string) :
  format_size_loop units size = (v, u) ->
  exists k, k <= length units /\ (units ++ ["TB"]) !! k = Some u /\
    (v * inject_Z (1024 ^ Z.of_nat k) == size)%Q /\
    (k < length units -> (v < 1024)%Q) /\
    (0 < k -> (1 <= v)%Q) /\
    ((size < 1024)%Q -> units <> [] -> k = 0).
Proof.
  revert size. induction units as [|unit rest IH]; intros size; cbn.
  - intros [= <- <-]. exists 0. split; [done|]. split; [done|].
    split; [apply Qmult_1_r|]. split; [cbn; lia|]. split; [lia|done].
  - destruct (Qltb size 1024) eqn:Hlt.
    + intros [= <- <-]. apply Qltb_lt in Hlt. exists 0. split; [cbn; lia|].
      split; [done|]. split; [apply Qmult_1_r|]. split; [done|]. split; [lia|done].
    + intros Hloop. apply Qltb_ge in Hlt.
      destruct (IH _ Hloop) as (k & Hk & Hu & Hv & Hsmall & Hbig & _).
      exists (S k). split; [lia|]. split; [done|].
      assert (Hdiv : (1 <= size / 1024)%Q).
      { apply Qle_shift_div_l; [done|]. by rewrite Qmult_1_l. }
      split; [|split; [|split]].
      * rewrite Nat2Z.inj_succ, Z.pow_succ_r by lia. rewrite inject_Z_mult.
        transitivity (v * inject_Z (1024 ^ Z.of_nat k) * 1024)%Q; [ring|].
        rewrite Hv. field.
      * intros Hlen. apply Hsmall. lia.
      * intros _. destruct k as [|k]; [|apply Hbig; lia].
        change (inject_Z (1024 ^ Z.of_nat 0)) with 1%Q in Hv.
        rewrite Qmult_1_r in Hv. by rewrite Hv.
      * intros Hsize. exfalso. by apply (Qlt_not_le size 1024).
Qed.

End FileSize.

Lemma string_append_assoc (a b c : string) : (a +:+ b) +:+ c = a +:+ (b +:+ c).
Proof.
  induction a as [|x a IH]; [done|].
  change (String x ((a +:+ b) +:+ c) = String x (a +:+ (b +:+ c))). by rewrite IH.
Qed.

Lemma format_file_size_spec (n : Z) :
  exists k, size_units !! k = Some (snd (format_file_size n)) /\
    (fst (format_file_size n) * inject_Z (1024 ^ Z.of_nat k) == inject_Z n)%Q /\
    (k < 4 -> (fst (format_file_size n) < 1024)%Q) /\
    (0 < k -> (1 <= fst (format_file_size n))%Q) /\
    ((n < 1024)%Z -> format_file_size n = (inject_Z n, "B")).
Proof.
  destruct (format_file_size n) as [v u] eqn:Hf. unfold format_file_size in Hf.
  destruct (format_size_loop_spec _ _ _ _ Hf) as (k & Hk & Hu & Hv & Hsmall & Hbig & _).
  exists k. cbn [fst snd]. split; [done|]. split; [done|]. split; [done|]. split; [done|].
  intros Hn. cbn in Hf.
  assert (Hlt : Qltb (inject_Z n) 1024 = true).
  { apply Qltb_lt. change (inject_Z n < inject_Z 1024)%Q. by rewrite <- Zlt_Qlt. }
  rewrite Hlt in Hf. by rewrite <- Hf.
Qed.

(** X1. For a size of at most 53 bits, which the floats of the program
    hold and divide by 1024 without rounding, [format_file_size] returns:
    it picks the unit of index k in B, KB, MB, GB, TB and the number v
    with v * 1024^k = size_bytes; the number is below 1024 in every unit
    but TB, and at least 1 in every unit but B. A size below 1024,
    negative sizes included, is left in B as it is, and shown with ".0"
    after it. *)
Theorem format_file_size_scaled (n : Z) :
  (Z.abs n <= 2 ^ 53)%Z ->
  format_file_size_overflows n = false /\
  (exists k, size_units !! k = Some (snd (format_file_size n)) /\
     (fst (format_file_size n) * inject_Z (1024 ^ Z.of_nat k) == inject_Z n)%Q /\
     (k < 4 -> (fst (format_file_size n) < 1024)%Q) /\
     (0 < k -> (1 <= fst (format_file_size n))%Q) /\
     ((n < 1024)%Z -> format_file_size n = (inject_Z n, "B"))) /\
  ((n < 1024)%Z ->
   format_file_size_text n =
     (if (n <? 0)%Z then "-" else "") +:+ pretty (Z.abs n) +:+ ".0 B").
Proof.
  intros Hn. split; [|split; [apply format_file_size_spec|]].
  - assert (Hbig : (2 ^ 53 < 2 ^ 1024 - 2 ^ 970)%Z) by (by vm_compute).
    assert (Hbig' : (2 ^ 53 < 2 ^ 1034 - 2 ^ 980)%Z) by (by vm_compute).
    unfold format_file_size_overflows. apply orb_false_iff.
    split; apply Z.leb_gt; lia.
  - intros Hsmall.
    destruct (format_file_size_spec n) as (_ & _ & _ & _ & _ & Hb).
    unfold format_file_size_text. rewrite (Hb Hsmall). cbn [fst snd].
    unfold render_1f. cbn [Qnum Qden inject_Z].
    rewrite Z.div_1_r, Z.mod_1_r.
    change (1 <? 2 * 0)%Z with false. change (2 * 0 <? 1)%Z with true. cbn iota.
    rewrite Z.div_mul, Z.mod_mul by lia.
    change (pretty 0%Z) with "0".
    by rewrite !string_append_assoc.
Qed.

Lemma format_file_size_scaled_witness :
  (Z.abs 5368709120 <= 2 ^ 53)%Z /\
  size_units !! 3 = Some (snd (format_file_size 5368709120)) /\
  (fst (format_file_size 5368709120) * inject_Z (1024 ^ Z.of_nat 3) == inject_Z 5368709120)%Q.
Proof.
  assert (Hn : (Z.abs 5368709120 <= 2 ^ 53)%Z) by (by vm_compute).
  split; [exact Hn|]. split; [reflexivity|].
  destruct (format_file_size_scaled 5368709120 Hn) as (_ & (k & Hunit & Hscaled & _) & _).
  assert (k = 3) as ->.
  { apply (NoDup_lookup size_units k 3 "GB"); [|exact Hunit|reflexivity].
    apply (bool_decide_unpack _). by vm_compute. }
  exact Hscaled.
Defined.

(** X2. The unit that [format_file_size] picks never goes down when the
    size goes up. *)
Theorem format_file_size_unit_monotone (n m : Z) (i j : nat) :
  (n <= m)%Z ->
  size_units !! i = Some (snd (format_file_size n)) ->
  size_units !! j = Some (snd (format_file_size m)) ->
  i <= j.
Proof.
  intros Hnm Hi Hj.
  destruct (format_file_size_spec n) as (kn & Hun & Hvn & _ & Hbign & _).
  destruct (format_file_size_spec m) as (km & Hum & Hvm & Hsmallm & _ & _).
  assert (Hnodup : NoDup size_units).
  { apply (bool_decide_unpack _). by vm_compute. }
  assert (i = kn) as -> by (eapply NoDup_lookup; [exact Hnodup | exact Hi | exact Hun]).
  assert (j = km) as -> by (eapply NoDup_lookup; [exact Hnodup | exact Hj | exact Hum]).
  destruct (decide (kn <= km)) as [|Hgt]; [done|exfalso].
  assert (Hkn : kn < 5).
  { apply lookup_lt_Some in Hun. by cbn in Hun. }
  assert (Hpos : forall k, (0 < inject_Z (1024 ^ Z.of_nat k))%Q).
  { intros k. change (inject_Z 0 < inject_Z (1024 ^ Z.of_nat k))%Q.
    rewrite <- Zlt_Qlt. apply Z.pow_pos_nonneg; lia. }
  assert (Hlow : (inject_Z (1024 ^ Z.of_nat kn) <= inject_Z n)%Q).
  { rewrite <- Hvn. rewrite <- (Qmult_1_l (inject_Z (1024 ^ Z.of_nat kn))) at 1.
    apply Qmult_le_compat_r; [apply Hbign; lia | apply Qlt_le_weak, Hpos]. }
  assert (Hhigh : (inject_Z m < inject_Z (1024 ^ Z.of_nat (S km)))%Q).
  { rewrite <- Hvm. rewrite Nat2Z.inj_succ, Z.pow_succ_r by lia. rewrite inject_Z_mult.
    rewrite (Qmult_comm (inject_Z 1024)).
    rewrite (Qmult_comm (fst (format_file_size m))), (Qmult_comm _ (inject_Z 1024)).
    rewrite (Qmult_comm (inject_Z 1024)).
    apply Qmult_lt_l; [apply Hpos|]. apply Hsmallm. lia. }
  assert (Hpow : (1024 ^ Z.of_nat (S km) <= 1024 ^ Z.of_nat kn)%Z)
    by (apply Z.pow_le_mono_r; lia).
  rewrite Zle_Qle in Hpow, Hnm.
  apply (Qlt_irrefl (inject_Z m)).
  eapply Qlt_le_trans; [exact Hhigh|].
  eapply Qle_trans; [exact Hpow|]. by eapply Qle_trans.
Qed.

Lemma format_file_size_unit_monotone_witness :
  size_units !! 0 = Some (snd (format_file_size 1000)) /\
  size_units !! 1 = Some (snd (format_file_size 5000)) /\
  0 <= 1.
Proof.
  split; [reflexivity|]. split; [reflexivity|].
  apply (format_file_size_unit_monotone 1000 5000 0 1); [lia | reflexivity | reflexivity].
Defined.

(* ===================================================================== *)
(** * Verification of the binaries                                        *)
(* ===================================================================== *)

Section Binaries.

Variable os : OS.

Lemma check_size_none binary_path min_size :
  fst (check_size os binary_path min_size) = None <-> size_passes os binary_path min_size.
Proof.
  unfold check_size, size_passes. destruct (Z.ltb_spec 0 min_size) as [Hpos|Hnonpos].
  - destruct (os_path_getsize os binary_path) as [n|msg]; cbn.
    + destruct (Z.ltb_spec n min_size); cbn; split; try done.
      * intros [?|(n' & Heq & ?)]; [lia|]. injection Heq as ->. lia.
      * intros _. right. by exists n.
    + split; [done|]. intros [?|(n' & ? & _)]; [lia|done].
  - cbn. split; [|done]. intros _. by left.
Qed.

Lemma check_size_early binary_path min_size ok msg :
  fst (check_size os binary_path min_size) = Some (ok, msg) -> ok = false /\ msg <> "".
Proof.
  unfold check_size. destruct (0 <? min_size)%Z; [|done].
  destruct (os_path_getsize os binary_path) as [n|e]; cbn.
  - destruct (n <? min_size)%Z; cbn; [|done]. by intros [= <- <-].
  - by intros [= <- <-].
Qed.

Lemma run_version_valid binary_path version_arg :
  (fst (run_version os binary_path version_arg) = true <->
   subprocess_run os [binary_path; version_arg] = RunReturns 0) /\
  (snd (run_version os binary_path version_arg) = "" <->
   fst (run_version os binary_path version_arg) = true).
Proof.
  unfold run_version.
  destruct (subprocess_run os [binary_path; version_arg]) as [code| | |e]; cbn;
    try (split; split; done).
  destruct (Z.eqb_spec code 0) as [->|Hne]; cbn; split; split; try done.
  intros [= ->]. done.
Qed.

End Binaries.

Lemma verify_binary_result (os : OS) (binary_path version_arg : string) (min_size : Z) :
  let r := fst (verify_binary os binary_path version_arg min_size) in
  (fst r = true <->
     os_path_exists os binary_path = true /\
     size_passes os binary_path min_size /\
     subprocess_run os [binary_path; version_arg] = RunReturns 0) /\
  (snd r = "" <-> fst r = true).
Proof.
  unfold verify_binary. destruct (os_path_exists os binary_path) eqn:Hex; cbn.
  2:{ split; split; try done. by intros (? & _). }
  pose proof (check_size_none os binary_path min_size) as Hnone.
  pose proof (check_size_early os binary_path min_size) as Hearly.
  destruct (check_size os binary_path min_size) as [[[ok msg]|] calls]; cbn in *.
  - destruct (Hearly ok msg eq_refl) as [-> Hmsg]. split; split; try done.
    intros (_ & Hpass & _). apply Hnone in Hpass. done.
  - destruct (run_version_valid os binary_path version_arg) as [Hrun Hmsg].
    split; [|done]. rewrite Hrun. split; [|by intros (_ & _ & ?)].
    intros Hr. split; [done|]. split; [by apply Hnone | done].
Qed.

(** X3. [verify_binary] declares a binary valid exactly when the file
    exists, its size, if a minimum is asked for, can be read and reaches
    the minimum, and running it with the version argument returns the
    exit code 0. The error message is empty exactly when the binary is
    valid. *)
Theorem verify_binary_valid (os : OS) (binary_path version_arg : string) (min_size : Z) :
  let r := fst (verify_binary os binary_path version_arg min_size) in
  (fst r = true <->
     os_path_exists os binary_path = true /\
     size_passes os binary_path min_size /\
     subprocess_run os [binary_path; version_arg] = RunReturns 0) /\
  (snd r = "" <-> fst r = true).
Proof. apply verify_binary_result. Qed.

Lemma verify_binary_trace (os : OS) (binary_path version_arg : string) (min_size : Z) :
  let calls := snd (verify_binary os binary_path version_arg min_size) in
  head calls = Some (CallExists binary_path) /\
  (forall p, In (CallGetsize p) calls ->
     p = binary_path /\ (0 < min_size)%Z /\ os_path_exists os binary_path = true) /\
  (forall args w, In (CallRun args w) calls ->
     args = [binary_path; version_arg] /\ w = is_windows os /\
     os_path_exists os binary_path = true /\ size_passes os binary_path min_size) /\
  length (List.filter (runs_binary binary_path) calls) <= 1.
Proof.
  unfold verify_binary. destruct (os_path_exists os binary_path) eqn:Hex; cbn.
  2:{ split; [done|]. split; [by intros p [|[]]|]. split; [by intros a w [|[]]|]. cbn. lia. }
  pose proof (check_size_none os binary_path min_size) as Hnone.
  assert (Hcalls : snd (check_size os binary_path min_size) = [] \/
                   (snd (check_size os binary_path min_size) = [CallGetsize binary_path] /\
                    (0 < min_size)%Z)).
  { unfold check_size. destruct (Z.ltb_spec 0 min_size); [right | by left].
    split; [|done]. destruct (os_path_getsize os binary_path); [|done].
    by destruct (_ <? _)%Z. }
  destruct (check_size os binary_path min_size) as [[early|] calls]; cbn in *.
  - destruct Hcalls as [-> | [-> Hpos]]; cbn.
    + split; [done|]. split; [by intros p [|[]]|]. split; [by intros a w [|[]]|]. cbn. lia.
    + split; [done|]. split; [|split; [by intros a w [|[|[]]]|cbn; lia]].
      intros p [|[[= <-]|[]]]; done.
  - assert (Hpass : size_passes os binary_path min_size) by by apply Hnone.
    assert (Hrun : runs_binary binary_path (CallRun [binary_path; version_arg] (is_windows os))
                   = true) by (cbn; apply String.eqb_refl).
    destruct Hcalls as [-> | [-> Hpos]]; cbn [app].
    + split; [done|]. split; [by intros p [|[|[]]]|].
      split; [intros a w [|[[= <- <-]|[]]]; done|].
      cbn. rewrite String.eqb_refl. cbn. lia.
    + split; [done|]. split; [intros p [|[[= <-]|[|[]]]]; done|].
      split; [intros a w [|[|[[= <- <-]|[]]]]; done|].
      cbn. rewrite String.eqb_refl. cbn. lia.
Qed.

(** X4. [verify_binary] first asks whether the file exists. It reads the
    size only when a positive minimum is given and the file exists, and
    it runs the binary at most once, with the version argument, only when
    the file exists and has passed the size check: a missing or too
    small binary is never executed. *)
Theorem verify_binary_calls (os : OS) (binary_path version_arg : string) (min_size : Z) :
  let calls := snd (verify_binary os binary_path version_arg min_size) in
  head calls = Some (CallExists binary_path) /\
  (forall p, In (CallGetsize p) calls ->
     p = binary_path /\ (0 < min_size)%Z /\ os_path_exists os binary_path = true) /\
  (forall args w, In (CallRun args w) calls ->
     args = [binary_path; version_arg] /\ w = is_windows os /\
     os_path_exists os binary_path = true /\ size_passes os binary_path min_size) /\
  length (List.filter (runs_binary binary_path) calls) <= 1.
Proof. apply verify_binary_trace. Qed.

Lemma verify_binary_calls_witness :
  snd (verify_binary SampleOS.broken "/app/bin/ffmpeg" "-version" 1000000)
  = [CallExists "/app/bin/ffmpeg"; CallGetsize "/app/bin/ffmpeg"] /\
  ~ In (CallRun ["/app/bin/ffmpeg"; "-version"] false)
       (snd (verify_binary SampleOS.broken "/app/bin/ffmpeg" "-version" 1000000)).
Proof.
  split; [reflexivity|]. intros Hin.
  destruct (verify_binary_calls SampleOS.broken "/app/bin/ffmpeg" "-version" 1000000)
    as (_ & _ & Hrun & _).
  destruct (Hrun _ _ Hin) as (_ & _ & _ & [Hmin | (n & [= <-] & Hle)]); lia.
Defined.

(** X5. [check_dependencies] reports an error exactly when ffmpeg is not
    valid, and then the message is "FFmpeg: " followed by the reason
    given by [verify_binary]; whether deno is valid changes neither the
    ffmpeg flag nor the message. The size of deno is never read, and an
    ffmpeg file below 1000000 bytes is rejected without being run. *)
Theorem check_dependencies_report (os : OS) (FFMPEG_PATH DENO_PATH : string) :
  let r := fst (check_dependencies os FFMPEG_PATH DENO_PATH) in
  let calls := snd (check_dependencies os FFMPEG_PATH DENO_PATH) in
  let ffmpeg := fst (verify_binary os FFMPEG_PATH "-version" 1000000) in
  r = (fst ffmpeg, fst (fst (verify_binary os DENO_PATH "--version" 0)),
       if fst ffmpeg then "" else "FFmpeg: " +:+ snd ffmpeg) /\
  (snd r = "" <-> fst (fst r) = true) /\
  (FFMPEG_PATH <> DENO_PATH ->
     existsb (reads_size DENO_PATH) calls = false /\
     forall n, os_path_getsize os FFMPEG_PATH = SizeIs n -> (n < 1000000)%Z ->
       fst (fst r) = false /\ existsb (runs_binary FFMPEG_PATH) calls = false).
Proof.
  cbn zeta. unfold check_dependencies.
  pose proof (verify_binary_trace os FFMPEG_PATH "-version" 1000000)
    as (_ & Hsize1 & Hrun1 & _).
  pose proof (verify_binary_trace os DENO_PATH "--version" 0) as (_ & Hsize2 & Hrun2 & _).
  pose proof (verify_binary_result os FFMPEG_PATH "-version" 1000000) as [Hvalid _].
  cbn zeta in *.
  destruct (verify_binary os FFMPEG_PATH "-version" 1000000) as [[ok1 err1] calls1].
  destruct (verify_binary os DENO_PATH "--version" 0) as [[ok2 err2] calls2].
  cbn in *. split; [by destruct ok1|]. split; [by destruct ok1|].
  intros Hne. split.
  - apply not_true_is_false. intros Hex.
    apply existsb_exists in Hex as ([p|p|args w] & Hin & Hp); try done.
    cbn in Hp. apply String.eqb_eq in Hp as ->.
    apply in_app_or in Hin as [Hin|Hin].
    + by destruct (Hsize1 _ Hin) as (? & _).
    + destruct (Hsize2 _ Hin) as (_ & ? & _). lia.
  - intros n Hsize Hsmall.
    assert (Hfail : ~ size_passes os FFMPEG_PATH 1000000).
    { intros [?|(n' & Heq & ?)]; [lia|]. rewrite Hsize in Heq. injection Heq as <-. lia. }
    split.
    + destruct ok1; [|done]. exfalso. apply Hfail. by apply Hvalid.
    + apply not_true_is_false. intros Hex.
      apply existsb_exists in Hex as ([p|p|args w] & Hin & Hp); try done.
      apply in_app_or in Hin as [Hin|Hin].
      * by destruct (Hrun1 _ _ Hin) as (_ & _ & _ & ?).
      * destruct (Hrun2 _ _ Hin) as (-> & _). cbn in Hp.
        apply String.eqb_eq in Hp. done.
Qed.

Lemma check_dependencies_report_witness :
  fst (check_dependencies SampleOS.broken "/app/bin/ffmpeg" "/app/bin/deno")
  = (false, false, "FFmpeg: Binary appears corrupted (file too small)") /\
  existsb (runs_binary "/app/bin/ffmpeg")
    (snd (check_dependencies SampleOS.broken "/app/bin/ffmpeg" "/app/bin/deno")) = false.
Proof.
  destruct (check_dependencies_report SampleOS.broken "/app/bin/ffmpeg" "/app/bin/deno")
    as (Hr & _ & Hcalls).
  split; [exact Hr|].
  destruct Hcalls as [_ Hsmall]; [done|].
  apply (Hsmall 2048%Z); [reflexivity | lia].
Defined.

Lemma verify_binary_valid_witness :
  fst (fst (verify_binary SampleOS.healthy "/app/bin/ffmpeg" "-version" 1000000)) = true.
Proof.
  destruct (verify_binary_valid SampleOS.healthy "/app/bin/ffmpeg" "-version" 1000000)
    as [[_ Hvalid] _].
  apply Hvalid. split; [reflexivity|]. split; [|reflexivity].
  right. exists 90000000%Z. split; [reflexivity | lia].
Defined.

(* ===================================================================== *)
(** * Blank URLs                                                          *)
(* ===================================================================== *)

Section Strip.

Lemma chars_unfold c c' s :
  chars (String c (String c' s)) =
  if is_continuation c' then
    match chars (String c' s) with
    | ch :: rest => String c ch :: rest
    | [] => [String c EmptyString]
    end
  else String c EmptyString :: chars (String c' s).
Proof. reflexivity. Qed.

(** The first character of a str that is not empty. *)
Lemma chars_cons c s :
  exists r rest, chars (String c s) = String c r :: rest /\
    all_continuation r = true /\ Forall group rest /\ Forall starts_char rest.
Proof.
  revert c. induction s as [|c' s IH]; intros c.
  - exists EmptyString, []. by repeat split.
  - destruct (IH c') as (r & rest & Hch & Hr & Hg & Hs).
    rewrite chars_unfold, Hch. destruct (is_continuation c') eqn:Hc'.
    + exists (String c' r), rest. cbn. rewrite Hc', Hr. by repeat split.
    + exists EmptyString, (String c' r :: rest). repeat split; by constructor.
Qed.

Lemma chars_well_grouped s : well_grouped (chars s).
Proof.
  destruct s as [|c s]; [by split|].
  destruct (chars_cons c s) as (r & rest & -> & Hr & Hg & Hs).
  split; [by constructor | done].
Qed.

(** The characters of a character followed by a str. *)
Lemma chars_group c r t :
  all_continuation r = true ->
  match t with EmptyString => True | String c' _ => is_continuation c' = false end ->
  chars (String c (r +:+ t)) = String c r :: chars t.
Proof.
  revert c. induction r as [|d r IH]; intros c Hr Ht.
  - destruct t as [|c' t]; [done|]. change ("" +:+ String c' t) with (String c' t).
    rewrite chars_unfold. by rewrite Ht.
  - cbn in Hr. apply andb_true_iff in Hr as [Hd Hr].
    change (String d r +:+ t) with (String d (r +:+ t)).
    rewrite chars_unfold, Hd. by rewrite (IH d Hr Ht).
Qed.

(** Putting characters together and taking them apart again. *)
Lemma chars_join l : well_grouped l -> chars (join l) = l.
Proof.
  induction l as [|ch l IH]; intros [Hg Hs]; [done|].
  apply Forall_cons in Hg as [Hch Hg]. cbn [tail] in Hs.
  destruct ch as [|c r]; [done|]. cbn in Hch.
  change (join (String c r :: l)) with (String c (r +:+ join l)).
  rewrite chars_group; [|done|].
  - rewrite IH; [done|]. split; [done|]. destruct l; [done|]. by apply Forall_cons in Hs as [_ ?].
  - destruct l as [|ch' l]; [done|]. apply Forall_cons in Hs as [Hch' _].
    destruct ch' as [|c' r']; [done|]. done.
Qed.

Lemma join_empty l : Forall group l -> join l = "" -> l = [].
Proof.
  destruct l as [|ch l]; [done|]. intros Hg%Forall_cons. destruct Hg as [Hch _].
  by destruct ch.
Qed.

Lemma well_grouped_suffix pre l : well_grouped (pre ++ l) -> well_grouped l.
Proof.
  intros [Hg Hs]. apply Forall_app in Hg as [_ Hg]. split; [done|].
  destruct pre as [|ch pre]; [done|]. cbn in Hs. apply Forall_app in Hs as [_ Hs].
  destruct l; [done|]. by apply Forall_cons in Hs as [_ ?].
Qed.

Lemma well_grouped_prefix l suf : well_grouped (l ++ suf) -> well_grouped l.
Proof.
  intros [Hg Hs]. apply Forall_app in Hg as [Hg _]. split; [done|].
  destruct l as [|ch l]; [done|]. cbn in Hs. by apply Forall_app in Hs as [? _].
Qed.

Lemma drop_space_suffix l : exists pre, l = pre ++ drop_space l.
Proof.
  induction l as [|ch l [pre IH]]; [by exists []|]. cbn [drop_space].
  destruct (py_isspace ch); [|by exists []].
  exists (ch :: pre). cbn [app]. by rewrite <- IH.
Qed.

Lemma drop_space_tight l : tight (drop_space l).
Proof.
  induction l as [|ch l IH]; [done|]. cbn [drop_space]. by destruct (py_isspace ch) eqn:Hch.
Qed.

Lemma drop_space_of_tight l : tight l -> drop_space l = l.
Proof. destruct l as [|ch l]; [done|]. cbn [tight drop_space]. by intros ->. Qed.

Lemma drop_space_blank l : drop_space l = [] <-> forallb py_isspace l = true.
Proof.
  induction l as [|ch l IH]; [done|]. cbn [drop_space forallb].
  destruct (py_isspace ch); cbn [andb]; [done|]. split; done.
Qed.

Lemma forallb_reverse {A} (f : A -> bool) l : forallb f (reverse l) = forallb f l.
Proof.
  induction l as [|x l IH]; [done|].
  rewrite reverse_cons, forallb_app, IH. cbn. by rewrite andb_true_r, andb_comm.
Qed.

(** What [trim] keeps is a stretch of the list. *)
Lemma trim_infix l : exists pre suf, drop_space l = trim l ++ suf /\ l = pre ++ drop_space l.
Proof.
  destruct (drop_space_suffix l) as [pre Hpre].
  destruct (drop_space_suffix (reverse (drop_space l))) as [suf Hsuf].
  exists pre, (reverse suf). split; [|done].
  unfold trim. rewrite <- reverse_app, <- Hsuf. by rewrite reverse_involutive.
Qed.

Lemma trim_well_grouped l : well_grouped l -> well_grouped (trim l).
Proof.
  intros Hl. destruct (trim_infix l) as (pre & suf & Hsuf & Hpre).
  rewrite Hpre in Hl. apply well_grouped_suffix in Hl. rewrite Hsuf in Hl.
  by apply well_grouped_prefix in Hl.
Qed.

Lemma trim_tight l : tight (trim l) /\ tight (reverse (trim l)).
Proof.
  split.
  - destruct (trim_infix l) as (pre & suf & Hsuf & _).
    pose proof (drop_space_tight l) as Ht. rewrite Hsuf in Ht.
    by destruct (trim l).
  - unfold trim. rewrite reverse_involutive. apply drop_space_tight.
Qed.

Lemma trim_idem l : trim (trim l) = trim l.
Proof.
  destruct (trim_tight l) as [H1 H2]. unfold trim at 1.
  rewrite (drop_space_of_tight _ H1), (drop_space_of_tight _ H2).
  apply reverse_involutive.
Qed.

Lemma trim_blank l : trim l = [] <-> forallb py_isspace l = true.
Proof.
  rewrite <- drop_space_blank. unfold trim. split.
  - intros H. apply (f_equal reverse) in H. rewrite reverse_involutive in H. cbn in H.
    apply drop_space_blank in H. rewrite forallb_reverse in H.
    pose proof (drop_space_tight l) as Ht.
    destruct (drop_space l) as [|ch m]; [done|]. cbn [forallb tight] in *.
    apply andb_true_iff in H as [H _]. congruence.
  - by intros ->.
Qed.

Lemma strip_blank (s : string) : strip s = "" <-> all_space s = true.
Proof.
  unfold strip, all_space. rewrite <- trim_blank. split.
  - apply join_empty. apply trim_well_grouped, chars_well_grouped.
  - by intros ->.
Qed.

Lemma strip_not_blank (s : string) : String.eqb (strip s) "" = false <-> all_space s = false.
Proof.
  rewrite String.eqb_neq, strip_blank. by destruct (all_space s).
Qed.

Lemma strip_idem (s : string) : strip (strip s) = strip s.
Proof.
  unfold strip. rewrite chars_join; [by rewrite trim_idem|].
  apply trim_well_grouped, chars_well_grouped.
Qed.

End Strip.

(* ===================================================================== *)
(** * What the worker adds to the trace                                   *)
(* ===================================================================== *)

Section Emits.

Lemma new_effects_app st st' new :
  effects st' = effects st ++ new -> new_effects st st' = new.
Proof. intros H. unfold new_effects. rewrite H. by rewrite drop_app_length. Qed.

Lemma emits_new_effects P st st' : emits P st st' -> Forall P (new_effects st st').
Proof. intros (new & H & HP). by rewrite (new_effects_app _ _ _ H). Qed.

Lemma emits_refl P st : emits P st st.
Proof. exists []. by rewrite app_nil_r. Qed.

Lemma emits_trans P a b c : emits P a b -> emits P b c -> emits P a c.
Proof.
  intros (n1 & H1 & P1) (n2 & H2 & P2). exists (n1 ++ n2).
  rewrite H2, H1, app_assoc. split; [done|]. by apply Forall_app.
Qed.

Lemma emits_weaken (P Q : effect -> Prop) st st' :
  (forall e, P e -> Q e) -> emits P st st' -> emits Q st st'.
Proof.
  intros HPQ (new & H & HP). exists new. split; [done|]. by eapply Forall_impl.
Qed.

Lemma emits_emit (P : effect -> Prop) e st : P e -> emits P st (emit e st).
Proof. intros He. exists [e]. destruct st. cbn. split; [done|]. by constructor. Qed.

Lemma emits_set_progress (P : effect -> Prop) p st :
  P (EProgress p) -> emits P st (set_progress p st).
Proof. intros He. exists [EProgress p]. destruct st. cbn. split; [done|]. by constructor. Qed.

Lemma emits_stop (P : effect -> Prop) st :
  P (EStatus TxtStopping "downloading") -> emits P st (_stop_download st).
Proof.
  intros He. unfold _stop_download. destruct (downloading st); [|apply emits_refl].
  exists [EStatus TxtStopping "downloading"]. destruct st. cbn. split; [done|]. by constructor.
Qed.

Lemma emits_reset (P : effect -> Prop) st :
  P (EBtnEnabled true) -> P (EProgress 0) -> P (EBtnText "Download") ->
  emits P st (_reset_download_state st).
Proof.
  intros H1 H2 H3. exists [EBtnEnabled true; EProgress 0; EBtnText "Download"].
  destruct st. cbn. rewrite <- !app_assoc. split; [done|]. by repeat constructor.
Qed.

Lemma hook_emits int_str tc i entry d st st' :
  make_progress_hook int_str tc i entry d st = Ok st' -> emits (fetch_effect tc i) st st'.
Proof.
  unfold make_progress_hook. destruct (stop_requested st); [done|].
  destruct (py_eq_str _ "downloading").
  - unfold report_progress.
    destruct (event_progress d) as [q|]; cbn; [|intros [= <-]; apply emits_refl].
    destruct (event_speed int_str d) as [speed|]; cbn; intros [= <-]; [|apply emits_refl].
    eapply emits_trans; [by apply emits_set_progress|].
    eapply emits_trans; by apply emits_emit.
  - destruct (py_eq_str _ "finished"); intros [= <-]; [|apply emits_refl].
    by apply emits_emit.
Qed.

Lemma run_fetch_emits int_str tc i entry events fin st :
  emits (fetch_effect tc i) st (fst (run_fetch (make_progress_hook int_str tc i entry) events fin st)).
Proof.
  revert st. induction events as [|[d|] events IH]; intros st; cbn.
  - destruct fin; apply emits_refl.
  - destruct (make_progress_hook int_str tc i entry d st) as [st'|e] eqn:Hhook; [|apply emits_refl].
    eapply emits_trans; [by eapply hook_emits | apply IH].
  - eapply emits_trans; [by apply emits_stop | apply IH].
Qed.

Lemma download_calls_app a b :
  download_calls (a ++ b) = download_calls a ++ download_calls b.
Proof. induction a as [|[] a IH]; cbn; by rewrite ?IH. Qed.

Lemma fetch_effect_no_download tc i new :
  Forall (fetch_effect tc i) new -> download_calls new = [].
Proof.
  induction 1 as [|e new He _ IH]; [done|].
  destruct e as [[] ?| | | | | | | | | | | ]; cbn in *; done.
Qed.

Lemma fetch_effect_worker tc i e : i < tc -> fetch_effect tc i e -> worker_effect tc e.
Proof.
  intros Hi. destruct e as [[] ?| | | | | | | | | | | ]; cbn; try done.
  - intros (-> & -> & ->). split; [lia | done].
  - intros (-> & -> & ->). split; [lia | done].
Qed.

Lemma fetch_entry_emits env opts tc i entry st :
  exists new, effects (fst (fetch_entry env opts tc i entry st)) =
              effects st ++ EDownload opts (e_url entry) :: new /\
              Forall (fetch_effect tc i) new.
Proof.
  unfold fetch_entry.
  destruct (run_fetch_emits (int_of_str env) tc i entry (fs_events (download env i (e_url entry)))
              (fs_end (download env i (e_url entry)))
              (emit (EDownload opts (e_url entry)) st)) as (new & Heffs & Hnew).
  exists new. rewrite Heffs. destruct st. cbn. by rewrite <- app_assoc.
Qed.

End Emits.

Section LoopTrace.

Variables (env : Env) (opts : ydl_opts) (tc : nat).

Lemma loop_downloads i entries c st :
  let x := download_loop env opts tc i entries c st in
  download_calls (effects (lx_app x)) =
    download_calls (effects st) ++ (e_url <$> take (fetched (lx_path x)) entries) /\
  fetched (lx_path x) <= length entries /\
  lx_completed x <= c + fetched (lx_path x).
Proof.
  revert i c st. induction entries as [|entry rest IH]; intros i c st; cbn.
  - rewrite app_nil_r. split; [done|lia].
  - destruct (stop_requested st).
    { cbn. rewrite app_nil_r. split; [done|lia]. }
    destruct (fetch_entry_emits env opts tc i entry st) as (new & Heffs & Hnew).
    assert (Hcalls : download_calls (effects (fst (fetch_entry env opts tc i entry st))) =
                     download_calls (effects st) ++ [e_url entry]).
    { rewrite Heffs, download_calls_app. cbn.
      by rewrite (fetch_effect_no_download _ _ _ Hnew). }
    destruct (fetch_entry env opts tc i entry st) as [st2 [[]|e]]; cbn in Hcalls |- *.
    + destruct (IH (S i) (c + 1) st2) as (-> & Hlen & Hc). rewrite Hcalls, <- app_assoc.
      split; [done|]. split; lia.
    + destruct (contains _ _); cbn.
      * rewrite Hcalls. cbn. rewrite take_0. split; [done|]. split; lia.
      * destruct (IH (S i) c st2) as (-> & Hlen & Hc). rewrite Hcalls, <- app_assoc.
        split; [done|]. split; lia.
Qed.

Lemma loop_emits i entries c st :
  i + length entries <= tc ->
  emits (worker_effect tc) st (lx_app (download_loop env opts tc i entries c st)).
Proof.
  revert i c st. induction entries as [|entry rest IH]; intros i c st Hi; cbn in *.
  - apply emits_refl.
  - destruct (stop_requested st); [apply emits_refl|].
    destruct (fetch_entry_emits env opts tc i entry st) as (new & Heffs & Hnew).
    assert (Hfetch : emits (worker_effect tc) st (fst (fetch_entry env opts tc i entry st))).
    { exists (EDownload opts (e_url entry) :: new). split; [done|].
      constructor; [done|]. eapply Forall_impl; [exact Hnew|].
      intros e. apply fetch_effect_worker. lia. }
    destruct (fetch_entry env opts tc i entry st) as [st2 [[]|e]]; cbn in Hfetch |- *.
    + eapply emits_trans; [exact Hfetch | apply IH; lia].
    + destruct (contains _ _); cbn; [done|].
      eapply emits_trans; [exact Hfetch | apply IH; lia].
Qed.

End LoopTrace.

Section BatchTrace.

Lemma emits_snoc (P : effect -> Prop) e a b : emits P a b -> P e -> emits P a (emit e b).
Proof. intros H He. eapply emits_trans; [exact H | by apply emits_emit]. Qed.

Lemma emits_snoc_progress (P : effect -> Prop) p a b :
  emits P a b -> P (EProgress p) -> emits P a (set_progress p b).
Proof. intros H He. eapply emits_trans; [exact H | by apply emits_set_progress]. Qed.

Variables (env : Env) (opts : ydl_opts) (entries : list entry_data) (st : App).

Lemma run_batch_tail (P : effect -> Prop) :
  P (EStatus TxtStopping "downloading") ->
  P (EStatus TxtCancelled "ready") ->
  (forall p, P (EProgress p)) ->
  (forall b, P (EAskOpenFolder b)) -> (forall f, P (EOpenFolder f)) ->
  (forall b, P (EBtnEnabled b)) -> (forall t, P (EBtnText t)) ->
  (let c := lx_completed (download_loop env opts (length entries) 0 entries 0 st) in
   (Nat.eqb c (length entries) = true ->
    P (EStatus (TxtCompleted c (length entries)) "success")) /\
   (Nat.eqb c (length entries) = false ->
    P (EStatus (TxtSomeFailed c (length entries)) "error"))) ->
  emits P (lx_app (download_loop env opts (length entries) 0 entries 0 st))
    (fst (run_batch env opts entries st)).
Proof.
  intros Hstop Hcancel Hprog Hask Hopen Hen Htxt [Hdone Hfail].
  unfold run_batch. cbn [fst]. fold (at_final_check env opts entries st).
  set (x := download_loop env opts (length entries) 0 entries 0 st).
  assert (Hchk : emits P (lx_app x) (at_final_check env opts entries st)).
  { unfold at_final_check. fold x.
    destruct (stop_after_loop env); [by apply emits_stop | apply emits_refl]. }
  eapply emits_trans; [|by apply emits_reset].
  unfold final_status_of.
  destruct (stop_requested (at_final_check env opts entries st)); [by apply emits_snoc|].
  destruct (Nat.eqb (lx_completed x) (length entries)) eqn:Heq.
  - destruct (open_folder_answer env); repeat apply emits_snoc;
      try apply emits_snoc_progress; try done; by apply Hdone.
  - apply emits_snoc; [done | by apply Hfail].
Qed.

Lemma run_batch_emits :
  emits (worker_effect (length entries)) st (fst (run_batch env opts entries st)).
Proof.
  apply (emits_trans _ _ (lx_app (download_loop env opts (length entries) 0 entries 0 st))).
  { apply loop_emits. lia. }
  pose proof (loop_outcomes env opts (length entries) 0 entries 0 st) as [Hlen Hcount].
  pose proof (succeeded_count_le
                (outcomes_from (length entries)
                   (lx_path (download_loop env opts (length entries) 0 entries 0 st)))) as Hle.
  cbn zeta in Hlen, Hcount.
  apply run_batch_tail; try done. cbn zeta. split.
  - intros Heq%Nat.eqb_eq. cbn. by rewrite Heq.
  - intros Hne%Nat.eqb_neq. cbn. split; [lia | done].
Qed.

Lemma run_batch_downloads :
  download_calls (new_effects st (fst (run_batch env opts entries st))) =
    e_url <$> take (fetched (path (snd (run_batch env opts entries st)))) entries /\
  fetched (path (snd (run_batch env opts entries st))) <= length entries /\
  completed_count (snd (run_batch env opts entries st)) <=
    fetched (path (snd (run_batch env opts entries st))).
Proof.
  destruct (loop_downloads env opts (length entries) 0 entries 0 st) as (Hcalls & Hlen & Hc).
  destruct run_batch_emits as (new & Heffs & _).
  destruct (run_batch_tail (fun e => download_calls [e] = [])) as (tail & Htail & Hno);
    try done.
  assert (Hnone : download_calls tail = []).
  { clear Htail. induction Hno as [|e tail He _ IH]; [done|].
    change (e :: tail) with ([e] ++ tail). by rewrite download_calls_app, He, IH. }
  rewrite (new_effects_app _ _ _ Heffs). cbn [path completed_count snd run_batch].
  split; [|split; [done | lia]].
  apply (app_inv_head (download_calls (effects st))).
  rewrite <- Hcalls, <- download_calls_app, <- Heffs, Htail, download_calls_app, Hnone.
  by rewrite app_nil_r.
Qed.

End BatchTrace.

Section WorkerTrace.

Variables (env : Env) (st : App).

Lemma resolve_step_emits url :
  emits (worker_effect (length (snd (resolve_step env url st)))) st
    (fst (resolve_step env url st)).
Proof.
  unfold resolve_step.
  destruct (resolve url (ex_end (extract_info env url))) as [playlist_entries playlist_title].
  cbn [fst snd].
  set (st1 := emit (EExtractInfo url) (_update_status TxtFetching "downloading" st)).
  assert (H1 : emits (worker_effect (length playlist_entries)) st st1).
  { unfold st1. repeat apply emits_snoc; try done. apply emits_refl. }
  assert (H2 : emits (worker_effect (length playlist_entries)) st
                 (if ex_user_stop (extract_info env url) then _stop_download st1 else st1)).
  { destruct (ex_user_stop _); [|done]. eapply emits_trans; [exact H1 | by apply emits_stop]. }
  destruct (truthy playlist_title && Nat.ltb 1 (length playlist_entries)) eqn:Hshow; [|done].
  apply emits_snoc; [done|]. apply andb_true_iff in Hshow as [_ Hlt%Nat.ltb_lt]. done.
Qed.

Lemma _download_video_emits :
  emits (worker_effect (length (snd (resolve_step env (strip (url_entry st)) st)))) st
    (fst (_download_video env st)).
Proof.
  unfold _download_video.
  destruct (String.eqb (strip (url_entry st)) ""); [by apply emits_reset|].
  destruct (ffmpeg_ok st); cbn [negb].
  2:{ eapply emits_trans; [|by apply emits_reset]. by apply emits_emit. }
  pose proof (resolve_step_emits (strip (url_entry st))) as Hres.
  destruct (resolve_step env (strip (url_entry st)) st) as [st1 playlist_entries].
  cbn [fst snd] in *.
  destruct (build_ydl_opts st1) as [opts|e]; [|done].
  pose proof (run_batch_emits env opts playlist_entries st1) as Hrun.
  destruct (run_batch env opts playlist_entries st1) as [st2 s]. cbn [fst] in *.
  by eapply emits_trans.
Qed.

End WorkerTrace.

(** X6. The worker calls [ydl.download] on the resolved entries in their
    order, each at most once, and on none after the loop is left: the
    URLs downloaded are those of the first k entries, k being the number
    of iterations that got past the stop check. The counter of completed
    downloads never exceeds k. *)
Theorem downloads_in_resolution_order (env : Env) (opts : ydl_opts)
    (entries : list entry_data) (st : App) :
  let r := run_batch env opts entries st in
  download_calls (new_effects st (fst r)) = e_url <$> take (fetched (path (snd r))) entries /\
  fetched (path (snd r)) <= length entries /\
  completed_count (snd r) <= fetched (path (snd r)).
Proof. apply run_batch_downloads. Qed.

(** X7. Every status that a run of the worker passes to [_update_status]
    is a key of the colour table of the status indicator: the indicator
    never falls back to its default for want of an entry. *)
Theorem worker_status_has_colour (env : Env) (st : App) (text : status_text) (s : string) :
  In (EStatus text s) (new_effects st (fst (_download_video env st))) ->
  s ∈ ["ready"; "downloading"; "success"; "error"] /\
  indicator_colors !! s = Some (indicator_color s).
Proof.
  intros Hin.
  pose proof (emits_new_effects _ _ _ (_download_video_emits env st)) as Hall.
  rewrite List.Forall_forall in Hall. apply Hall in Hin. clear Hall.
  assert (Hs : s = "ready" \/ s = "downloading" \/ s = "success" \/ s = "error").
  { destruct text; cbn in Hin; intuition. }
  destruct Hs as [-> | [-> | [-> | ->]]]; (split; [set_solver | by vm_compute]).
Qed.

Lemma worker_status_has_colour_witness :
  indicator_colors !! "success" = Some (indicator_color "success").
Proof.
  apply (worker_status_has_colour (Sample.quiet_env ExtractRaises) Sample.active_app
           (TxtCompleted 1 1) "success").
  vm_compute. do 11 right. by left.
Defined.

(** X8. The position shown in a progress or processing status line of a
    run is between 1 and the total shown, and the total is the number of
    resolved entries. *)
Theorem worker_position_in_range (env : Env) (st : App) (pos total : nat) (s : string) :
  (exists title q speed,
     In (EStatus (TxtProgress pos total title q speed) s)
        (new_effects st (fst (_download_video env st)))) \/
  In (EStatus (TxtProcessing pos total) s) (new_effects st (fst (_download_video env st))) ->
  1 <= pos <= total /\
  total = length (snd (resolve_step env (strip (url_entry st)) st)).
Proof.
  pose proof (emits_new_effects _ _ _ (_download_video_emits env st)) as Hall.
  rewrite List.Forall_forall in Hall.
  intros [(title & q & speed & Hin) | Hin]; apply Hall in Hin; cbn in Hin; tauto.
Qed.

Lemma worker_position_in_range_witness :
  In (EStatus (TxtProcessing 1 1) "downloading")
     (new_effects Sample.active_app
        (fst (_download_video (Sample.quiet_env ExtractRaises) Sample.active_app))) /\
  1 <= 1 <= 1.
Proof.
  assert (Hshown : In (EStatus (TxtProcessing 1 1) "downloading")
            (new_effects Sample.active_app
               (fst (_download_video (Sample.quiet_env ExtractRaises) Sample.active_app)))).
  { vm_compute. do 9 right. by left. }
  split; [exact Hshown|].
  apply (worker_position_in_range (Sample.quiet_env ExtractRaises) Sample.active_app 1 1
           "downloading").
  right. exact Hshown.
Defined.

(* ===================================================================== *)
(** * The life cycle of a run                                             *)
(* ===================================================================== *)

Section LifeCycle.

Lemma reset_idle st : idle (_reset_download_state st).
Proof. by destruct st. Qed.

Lemma same_request_reset st : same_request (_reset_download_state st) st.
Proof. by destruct st. Qed.

Lemma resolve_step_extends env url st : extends st (fst (resolve_step env url st)).
Proof.
  unfold resolve_step.
  destruct (resolve url (ex_end (extract_info env url))) as [playlist_entries playlist_title].
  cbn [fst].
  assert (H1 : extends st (emit (EExtractInfo url)
                             (_update_status TxtFetching "downloading" st))).
  { eapply extends_trans; by apply extends_emit. }
  assert (H2 : extends st
                 (if ex_user_stop (extract_info env url)
                  then _stop_download (emit (EExtractInfo url)
                                         (_update_status TxtFetching "downloading" st))
                  else emit (EExtractInfo url) (_update_status TxtFetching "downloading" st))).
  { destruct (ex_user_stop _); [|done]. eapply extends_trans; [exact H1 | apply extends_stop]. }
  destruct (_ && _); [|done]. eapply extends_trans; [exact H2 | by apply extends_emit].
Qed.

Lemma run_batch_request env opts entries st :
  same_request (fst (run_batch env opts entries st)) st /\
  idle (fst (run_batch env opts entries st)).
Proof.
  split; [|apply reset_idle].
  unfold run_batch. cbn [fst]. fold (at_final_check env opts entries st).
  eapply same_request_trans; [apply same_request_reset|].
  pose proof (at_final_check_extends env opts entries st) as (_ & Hsame & _).
  destruct (final_status_of _ _ _); [| destruct (open_folder_answer env) |];
    (eapply same_request_trans; [|exact Hsame]);
    by destruct (at_final_check env opts entries st).
Qed.

Lemma valid_quality_opts st : valid_quality st -> exists opts, build_ydl_opts st = Ok opts.
Proof.
  unfold valid_quality, build_ydl_opts, _get_format_string, format_string,
    select_postprocessor, qualities.
  destruct (String.eqb (format_type st) "video"); intros Hin;
    repeat (apply elem_of_cons in Hin as [-> | Hin]); try (by eexists); inversion Hin.
Qed.

Lemma valid_quality_same st st' : same_request st' st -> valid_quality st -> valid_quality st'.
Proof. intros (_ & _ & _ & _ & Hf & Hq). unfold valid_quality. by rewrite Hf, Hq. Qed.

Lemma _download_video_request env st :
  same_request (fst (_download_video env st)) st /\
  match snd (_download_video env st) with
  | Crashed e =>
      build_ydl_opts st = Raise e /\
      downloading (fst (_download_video env st)) = downloading st
  | _ => idle (fst (_download_video env st))
  end.
Proof.
  unfold _download_video.
  destruct (String.eqb (strip (url_entry st)) "").
  { split; [apply same_request_reset | apply reset_idle]. }
  destruct (ffmpeg_ok st); cbn [negb].
  2:{ split; [|apply reset_idle].
      eapply same_request_trans; [apply same_request_reset | apply same_request_emit]. }
  pose proof (resolve_step_extends env (strip (url_entry st)) st) as (Hd & Hsame & _).
  destruct (resolve_step env (strip (url_entry st)) st) as [st1 playlist_entries].
  cbn [fst] in *. rewrite (same_request_opts st1 st Hsame).
  destruct (build_ydl_opts st) as [opts|e]; [|done].
  destruct (run_batch_request env opts playlist_entries st1) as [Hsame2 Hidle].
  destruct (run_batch env opts playlist_entries st1) as [st2 s]. cbn [fst snd] in *.
  split; [by eapply same_request_trans | done].
Qed.

End LifeCycle.

(* ===================================================================== *)
(** * A whole run of the worker                                           *)
(* ===================================================================== *)

Section WholeRun.

Variables (env : Env) (st : App).

(** What the final status and the reset add to the trace holds neither a
    stop request nor a download. *)
Lemma run_batch_after_check opts entries st0 :
  exists tail,
    effects (fst (run_batch env opts entries st0)) =
      effects (at_final_check env opts entries st0) ++ tail /\
    existsb is_stopping tail = false /\ download_calls tail = [].
Proof.
  unfold run_batch. fold (at_final_check env opts entries st0). cbn [fst].
  generalize (lx_completed (download_loop env opts (length entries) 0 entries 0 st0)).
  intros c. destruct (at_final_check env opts entries st0) as [? ? ? ? ? ? ? ? ? effs].
  destruct (final_status_of _ _ _); [| destruct (open_folder_answer env) |];
    cbn; rewrite <- ?app_assoc; eexists; (split; [reflexivity | done]).
Qed.

(** A run that reaches the final status has resolved the URL and built
    the options, and ends as the batch of the resolved entries does. *)
Lemma finished_run s :
  snd (_download_video env st) = Finished s ->
  exists opts st1 entries,
    String.eqb (strip (url_entry st)) "" = false /\ ffmpeg_ok st = true /\
    resolve_step env (strip (url_entry st)) st = (st1, entries) /\
    build_ydl_opts st = Ok opts /\
    fst (_download_video env st) = fst (run_batch env opts entries st1) /\
    s = snd (run_batch env opts entries st1).
Proof.
  intros Hfin.
  destruct (String.eqb (strip (url_entry st)) "") eqn:Hurl.
  { unfold _download_video in Hfin. by rewrite Hurl in Hfin. }
  destruct (ffmpeg_ok st) eqn:Hff.
  2:{ unfold _download_video in Hfin. by rewrite Hurl, Hff in Hfin. }
  pose proof (resolve_step_extends env (strip (url_entry st)) st) as (_ & Hsame & _).
  destruct (resolve_step env (strip (url_entry st)) st) as [st1 entries] eqn:Hstep.
  cbn [fst] in Hsame.
  assert (Hrun : _download_video env st =
                 match build_ydl_opts st with
                 | Raise e => (st1, Crashed e)
                 | Ok opts => (fst (run_batch env opts entries st1),
                               Finished (snd (run_batch env opts entries st1)))
                 end).
  { unfold _download_video. rewrite Hurl, Hff, Hstep. cbn [negb].
    rewrite (same_request_opts st1 st Hsame).
    destruct (build_ydl_opts st) as [opts|e]; [|done].
    by destruct (run_batch env opts entries st1). }
  rewrite Hrun in Hfin |- *.
  destruct (build_ydl_opts st) as [opts|e]; [|done].
  cbn [fst snd] in Hfin |- *. injection Hfin as <-.
  by exists opts, st1, entries.
Qed.

(** The trace of a finished run: what the resolution adds, what the loop
    and a stop request after it add, and what follows the final check.
    The stop flag read by the final [if] is set exactly when it was set
    at the start or one of the first two parts holds a stop request. *)
Lemma finished_run_trace s :
  snd (_download_video env st) = Finished s ->
  exists n0 n1 tail,
    new_effects st (fst (_download_video env st)) = n0 ++ n1 ++ tail /\
    cancelled s =
      stop_requested st || existsb is_stopping n0 || existsb is_stopping n1 /\
    existsb is_stopping tail = false.
Proof.
  intros Hfin.
  destruct (finished_run s Hfin) as (opts & st1 & entries & _ & _ & Hstep & _ & Hrun & ->).
  pose proof (resolve_step_extends env (strip (url_entry st)) st) as (_ & _ & n0 & Hn0 & Hf0).
  rewrite Hstep in Hn0, Hf0. cbn [fst] in Hn0, Hf0.
  pose proof (at_final_check_extends env opts entries st1) as (_ & _ & n1 & Hn1 & Hf1).
  destruct (run_batch_after_check opts entries st1) as (tail & Htail & Hnostop & _).
  exists n0, n1, tail. split; [|split; [|done]].
  - apply new_effects_app. rewrite Hrun, Htail, Hn1, Hn0. by rewrite <- !app_assoc.
  - rewrite run_batch_summary. cbn [cancelled]. by rewrite Hf1, Hf0.
Qed.

End WholeRun.

(** C3 (as amended). Every run that reaches the final status ends in
    exactly one of three ways. It is Cancelled if and only if a stop was
    requested before the final status is computed: the stop flag was set
    when the worker began, or a stop request was made since, during the
    listing, during a download or once the loop was left, whatever number
    of units had been attempted or had succeeded by then. It is Completed
    if and only if there was no stop request and every unit succeeded,
    and PartiallyFailed if and only if there was none and fewer units
    succeeded than the batch holds. What earlier runs have left in the
    trace plays no part. *)
Theorem C3_final_status (env : Env) (st : App) (s : summary) :
  snd (_download_video env st) = Finished s ->
  let st' := fst (_download_video env st) in
  (status s = Cancelled <->
     stop_requested st = true \/ existsb is_stopping (new_effects st st') = true) /\
  (status s = Cancelled <-> cancelled s = true) /\
  (status s = Completed <-> cancelled s = false /\ completed_count s = total_count s) /\
  (status s = PartiallyFailed <-> cancelled s = false /\ completed_count s < total_count s) /\
  completed_count s <= total_count s /\
  length (outcomes s) = total_count s /\
  succeeded_count (outcomes s) = completed_count s /\
  (status s = Completed -> outcomes s = repeat Succeeded (total_count s)) /\
  ((exists k, downloads_before_stop (new_effects st st') = Some k /\ k < total_count s) ->
   status s = Cancelled).
Proof.
  intros Hfin st'.
  destruct (finished_run_trace env st s Hfin) as (n0 & n1 & tail & Hnew & Hflag & Hnostop).
  fold st' in Hnew.
  assert (Hstops : existsb is_stopping (new_effects st st') =
                   existsb is_stopping n0 || existsb is_stopping n1).
  { rewrite Hnew, !existsb_app, Hnostop. by rewrite orb_false_r. }
  destruct (finished_run env st s Hfin) as (opts & st1 & entries & _ & _ & _ & _ & _ & Hs).
  pose proof (loop_outcomes env opts (length entries) 0 entries 0 st1) as [Hlen Hcount].
  cbn zeta in Hlen, Hcount.
  rewrite run_batch_summary in Hs.
  set (x := download_loop env opts (length entries) 0 entries 0 st1) in *.
  pose proof (succeeded_count_le (outcomes_from (length entries) (lx_path x))) as Hle.
  assert (Hcancel : cancelled s = stop_requested (at_final_check env opts entries st1))
    by by rewrite Hs.
  set (chk := at_final_check env opts entries st1) in *.
  assert (Hiff : stop_requested chk = true <->
                 stop_requested st = true \/ existsb is_stopping (new_effects st st') = true).
  { rewrite <- Hcancel, Hflag, Hstops, !orb_true_iff. tauto. }
  unfold outcomes. clearbody x chk st'. subst s.
  cbn [status cancelled completed_count total_count path] in *.
  unfold final_status_of.
  destruct (stop_requested chk).
  - repeat split; try done; try lia; try (intuition congruence); try (intuition lia).
  - assert (Hnone : ~ (stop_requested st = true \/
                       existsb is_stopping (new_effects st st') = true)).
    { intros H. apply Hiff in H. done. }
    assert (Hk : ~ exists k, downloads_before_stop (new_effects st st') = Some k /\
                             k < length entries).
    { intros (k & Hk & _). apply downloads_before_stop_traced in Hk. tauto. }
    destruct (Nat.eqb_spec (lx_completed x) (length entries)) as [Heq|Hne].
    + repeat split; try done; try lia; try (intuition congruence); try (intuition lia).
      intros _. rewrite <- Hlen at 2. apply succeeded_count_all. lia.
    + repeat split; try done; try lia; try (intuition congruence); try (intuition lia).
Qed.

Lemma C3_final_status_witness :
  let st := _start_download (fst (_download_video Sample.late_stop_env Sample.active_app)) in
  let s := mkSummary 1 1 false Completed [IterDownloaded] in
  existsb is_stopping (effects st) = true /\
  (status s = Cancelled <->
   stop_requested st = true \/
   existsb is_stopping
     (new_effects st (fst (_download_video (Sample.quiet_env ExtractRaises) st))) = true).
Proof.
  split; [reflexivity|].
  apply (C3_final_status (Sample.quiet_env ExtractRaises)
           (_start_download (fst (_download_video Sample.late_stop_env Sample.active_app)))
           (mkSummary 1 1 false Completed [IterDownloaded])).
  reflexivity.
Defined.

(** C3, as stated, fails: a run can end Cancelled although the stop
    request came only after every unit had been attempted. In the first
    run the user asks to stop during the post-processing of the only
    unit, after its last progress event; in the second, after the loop is
    over. In both the unit was downloaded and counted, the one download
    call precedes the stop request in the trace, and yet the final status
    is the cancellation. *)
Lemma C3_counterexample :
  let late := run_batch Sample.late_stop_env Sample.opts [Sample.entry 1] Sample.active_app in
  let after := run_batch Sample.stop_after_loop_env Sample.opts [Sample.entry 1]
                 Sample.active_app in
  (status (snd late) = Cancelled /\ outcomes (snd late) = [Succeeded] /\
   completed_count (snd late) = 1 /\ total_count (snd late) = 1 /\
   downloads_before_stop (effects (fst late)) = Some 1) /\
  (status (snd after) = Cancelled /\ outcomes (snd after) = [Succeeded] /\
   completed_count (snd after) = 1 /\ total_count (snd after) = 1 /\
   downloads_before_stop (effects (fst after)) = Some 1) /\
  ~ (status (snd after) = Cancelled <->
     exists k, downloads_before_stop (effects (fst after)) = Some k /\
               k < total_count (snd after)).
Proof.
  split; [by vm_compute|]. split; [by vm_compute|].
  intros [Hcancelled _].
  destruct Hcancelled as (k & Hk & Hlt); [by vm_compute|].
  vm_compute in Hk. injection Hk as <-. vm_compute in Hlt. lia.
Qed.

Section Fallback.

Variables (env : Env) (opts : ydl_opts) (entry : entry_data) (st1 : App).

(** The batch of a single entry, entered with the stop flag clear: the
    entry is fetched, and the loop is left in the state in which the
    fetch ends. *)
Lemma single_entry_loop :
  stop_requested st1 = false ->
  let x := download_loop env opts 1 0 [entry] 0 st1 in
  lx_app x = fst (fetch_entry env opts 1 0 entry st1) /\ fetched (lx_path x) = 1.
Proof.
  intros Hstop. cbn. rewrite Hstop.
  destruct (fetch_entry env opts 1 0 entry st1) as [st2 [[]|e]]; [done|].
  by destruct (contains _ _).
Qed.

Lemma single_entry_trace :
  stop_requested st1 = false ->
  exists new more,
    effects (fst (run_batch env opts [entry] st1)) =
      effects st1 ++ EDownload opts (e_url entry) :: new ++ more /\
    download_calls new = [] /\ download_calls more = [].
Proof.
  intros Hstop.
  destruct (single_entry_loop Hstop) as [Happ _]. cbn zeta in Happ.
  destruct (fetch_entry_emits env opts 1 0 entry st1) as (new & Heffs & Hnew).
  destruct (run_batch_tail env opts [entry] st1 (fun e => download_calls [e] = []))
    as (more & Hmore & Hno); try done.
  exists new, more. cbn [length] in Hmore. rewrite Hmore, Happ, Heffs.
  split; [by rewrite <- app_assoc|]. split; [by eapply fetch_effect_no_download|].
  clear Hmore. induction Hno as [|e more He _ IH]; [done|].
  change (e :: more) with ([e] ++ more). by rewrite download_calls_app, He, IH.
Qed.

End Fallback.

(** C7. When the listing raises, resolution does not pass the error on:
    it gives the single entry {title: 'Unknown', url: url, id: None}, and
    the run goes on with that one-entry batch through the same loop and
    final status as any other batch. Unless a stop was requested by then,
    the driver calls the backend on the URL, once, with the options of
    the request; the unit counts as completed when that call returns and
    as failed when it raises another error than the stop. The run is
    indistinguishable from the run of a listing that returned a single
    video without title or id. *)
Theorem C7_listing_failure_falls_back (env : Env) (st : App) (opts : ydl_opts) :
  strip (url_entry st) <> "" -> ffmpeg_ok st = true ->
  build_ydl_opts st = Ok opts ->
  ex_end (extract_info env (strip (url_entry st))) = ExtractRaises ->
  let url := strip (url_entry st) in
  resolve url (ex_end (extract_info env url)) = ([fallback_entry url], PNone) /\
  (exists st1,
     resolve_step env url st = (st1, [fallback_entry url]) /\
     _download_video env st =
       (fst (run_batch env opts [fallback_entry url] st1),
        Finished (snd (run_batch env opts [fallback_entry url] st1))) /\
     total_count (snd (run_batch env opts [fallback_entry url] st1)) = 1) /\
  (stop_requested st = false -> ex_user_stop (extract_info env url) = false ->
     exists st' s,
       _download_video env st = (st', Finished s) /\
       download_calls (new_effects st st') = [PStr url] /\
       In (EDownload opts (PStr url)) (new_effects st st') /\
       (no_user_stop (fs_events (download env 0 (PStr url))) = true ->
        match fs_end (download env 0 (PStr url)) with
        | FetchOk =>
            path s = [IterDownloaded] /\ completed_count s = 1 /\
            (stop_after_loop env = false -> status s = Completed)
        | FetchError msg =>
            contains "Download stopped by user" msg = false ->
            path s = [IterError msg] /\ completed_count s = 0 /\
            (stop_after_loop env = false -> status s = PartiallyFailed)
        end)) /\
  (forall (listing : string -> extract_script) (j : info),
     listing url = mkExtract (ex_user_stop (extract_info env url)) (ExtractReturns (Some j)) ->
     info_entries j = None -> dict_truthy (info_dict j) = true ->
     single_entry url j = fallback_entry url ->
     _download_video
       (mkEnv listing (download env) (stop_after_loop env) (open_folder_answer env)
          (int_of_str env)) st
     = _download_video env st).
Proof.
  intros Hurl Hff Hopts Hraise url. subst url.
  set (url := strip (url_entry st)) in *.
  assert (Hstep : exists st1, resolve_step env url st = (st1, [fallback_entry url]) /\
                              same_request st1 st).
  { unfold resolve_step. rewrite Hraise. cbn. eexists. split; [reflexivity|].
    destruct (ex_user_stop _).
    - eapply same_request_trans; [apply same_request_stop|].
      eapply same_request_trans; apply same_request_emit.
    - eapply same_request_trans; apply same_request_emit. }
  destruct Hstep as (st1 & Hstep & Hsame).
  assert (Hrun : _download_video env st =
                 (fst (run_batch env opts [fallback_entry url] st1),
                  Finished (snd (run_batch env opts [fallback_entry url] st1)))).
  { unfold _download_video. fold url. apply String.eqb_neq in Hurl.
    rewrite Hurl, Hff, Hstep. cbn [negb].
    rewrite (same_request_opts st1 st Hsame), Hopts.
    by destruct (run_batch env opts [fallback_entry url] st1). }
  split; [by rewrite Hraise|]. split; [by exists st1|]. split.
  - intros Hstop Hlisting.
    assert (Hst1 : st1 = emit (EExtractInfo url) (_update_status TxtFetching "downloading" st)).
    { unfold resolve_step in Hstep. rewrite Hraise, Hlisting in Hstep. cbn in Hstep.
      by injection Hstep as <-. }
    assert (Hstop1 : stop_requested st1 = false) by (rewrite Hst1; by destruct st).
    assert (Heffs1 : effects st1 =
                     effects st ++ [EStatus TxtFetching "downloading"; EExtractInfo url]).
    { rewrite Hst1. destruct st. cbn. by rewrite <- app_assoc. }
    destruct (single_entry_trace env opts (fallback_entry url) st1 Hstop1)
      as (new & more & Htrace & Hnew & Hmore).
    cbn [e_url fallback_entry] in Htrace.
    exists (fst (run_batch env opts [fallback_entry url] st1)),
           (snd (run_batch env opts [fallback_entry url] st1)).
    split; [done|].
    assert (Hall : new_effects st (fst (run_batch env opts [fallback_entry url] st1)) =
                   [EStatus TxtFetching "downloading"; EExtractInfo url] ++
                   EDownload opts (PStr url) :: new ++ more).
    { apply new_effects_app. rewrite Htrace, Heffs1. by rewrite <- app_assoc. }
    rewrite Hall. split; [|split].
    + cbn. by rewrite download_calls_app, Hnew, Hmore.
    + cbn. tauto.
    + intros Hquiet.
      destruct (fetch_quiet env opts 1 0 (fallback_entry url) st1 Hstop1 Hquiet)
        as (st2 & Hfetch & Hstop2 & _).
      cbn [e_url fallback_entry] in Hfetch.
      rewrite run_batch_summary. unfold at_final_check. cbn [length].
      cbn [path completed_count status].
      destruct (fs_end (download env 0 (PStr url))) as [|msg]; cbn [end_result] in Hfetch.
      * rewrite (loop_downloaded env opts 1 0 _ [] 0 st1 st2 Hstop1 Hfetch). cbn.
        repeat split. intros ->. by rewrite Hstop2.
      * intros Hmsg.
        rewrite (loop_error env opts 1 0 _ [] 0 st1 st2 (Exception msg) Hstop1 Hfetch Hmsg).
        cbn. repeat split. intros ->. by rewrite Hstop2.
  - intros listing j Hlisting Hnoentries Htruthy Hsingle.
    rewrite Hrun. unfold _download_video. fold url. apply String.eqb_neq in Hurl.
    rewrite Hurl, Hff. cbn [negb].
    assert (Hstep' : resolve_step (mkEnv listing (download env) (stop_after_loop env)
                                     (open_folder_answer env) (int_of_str env)) url st
                     = (st1, [fallback_entry url])).
    { rewrite <- Hstep. unfold resolve_step. cbn [extract_info].
      rewrite Hlisting, Hraise. cbn [ex_user_stop ex_end]. unfold resolve, info_truthy.
      by rewrite Hnoentries, Htruthy, Hsingle. }
    rewrite Hstep', (same_request_opts st1 st Hsame), Hopts.
    destruct env as [e d s o n]. cbn [download stop_after_loop open_folder_answer int_of_str].
    rewrite (run_batch_env listing e).
    by destruct (run_batch (mkEnv e d s o n) opts [fallback_entry url] st1).
Qed.

Lemma C7_listing_failure_falls_back_witness :
  resolve Sample.url (ex_end (extract_info (Sample.quiet_env ExtractRaises) Sample.url))
  = ([fallback_entry Sample.url], PNone) /\
  download_calls
    (new_effects Sample.active_app
       (fst (_download_video (Sample.quiet_env ExtractRaises) Sample.active_app)))
  = [PStr Sample.url] /\
  _download_video (Sample.quiet_env (ExtractReturns (Some Sample.bare_video))) Sample.active_app
  = _download_video (Sample.quiet_env ExtractRaises) Sample.active_app.
Proof.
  destruct (C7_listing_failure_falls_back (Sample.quiet_env ExtractRaises)
              Sample.active_app Sample.opts) as (Hresolve & _ & Hcalls & Hsame);
    try reflexivity; try discriminate.
  split; [exact Hresolve|]. split.
  - destruct Hcalls as (st' & s & Hrun & Hcalls & _); [reflexivity | reflexivity |].
    rewrite Hrun. exact Hcalls.
  - apply (Hsame (fun _ => mkExtract false (ExtractReturns (Some Sample.bare_video)))
             Sample.bare_video); reflexivity.
Defined.

(** C10 (as amended). When the listing returns without raising and its
    value is falsy (None, or a dict without any key), resolution gives no
    entry at all, not the fallback entry, and the run makes no download
    call. If nobody asks to stop, the run ends at once as a success: 0 of
    0 completed, the progress bar set to 100 (before the final reset) and
    the success dialog shown. If a stop was requested, before the worker
    began, during the listing or after it, the run ends as cancelled
    instead, without the progress bar at 100 and without the dialog. *)
Theorem C10_empty_listing_is_success (env : Env) (st : App) (opts : ydl_opts)
    (i : option info) :
  strip (url_entry st) <> "" -> ffmpeg_ok st = true ->
  build_ydl_opts st = Ok opts ->
  ex_end (extract_info env (strip (url_entry st))) = ExtractReturns i ->
  (forall j, i = Some j -> info_truthy j = false) ->
  let url := strip (url_entry st) in
  resolve url (ExtractReturns i) = ([], PNone) /\
  (exists st' s,
     _download_video env st = (st', Finished s) /\
     total_count s = 0 /\ completed_count s = 0 /\ path s = [] /\
     download_calls (new_effects st st') = []) /\
  (stop_requested st = false -> ex_user_stop (extract_info env url) = false ->
   stop_after_loop env = false ->
   exists st',
     _download_video env st = (st', Finished (mkSummary 0 0 false Completed [])) /\
     effects st' =
       effects st ++
       [EStatus TxtFetching "downloading"; EExtractInfo url;
        EProgress 100; EStatus (TxtCompleted 0 0) "success"; EAskOpenFolder false] ++
       (if open_folder_answer env then [EOpenFolder (save_path st)] else []) ++
       [EBtnEnabled true; EProgress 0; EBtnText "Download"]) /\
  (downloading st = true ->
   stop_requested st = true \/ ex_user_stop (extract_info env url) = true \/
   stop_after_loop env = true ->
   exists st',
     _download_video env st = (st', Finished (mkSummary 0 0 true Cancelled [])) /\
     In (EStatus TxtCancelled "ready") (new_effects st st') /\
     ~ In (EProgress 100) (new_effects st st') /\
     forall b, ~ In (EAskOpenFolder b) (new_effects st st')).
Proof.
  intros Hurl Hff Hopts Hend Hfalsy url. subst url.
  set (url := strip (url_entry st)) in *.
  assert (Hres : resolve url (ExtractReturns i) = ([], PNone)).
  { destruct i as [j|]; [|done]. cbn. by rewrite (Hfalsy j eq_refl). }
  split; [done|].
  set (st0 := emit (EExtractInfo url) (_update_status TxtFetching "downloading" st)).
  set (st1 := if ex_user_stop (extract_info env url) then _stop_download st0 else st0).
  assert (Hstep : resolve_step env url st = (st1, [])).
  { unfold resolve_step. by rewrite Hend, Hres. }
  assert (Hsame : same_request st1 st).
  { pose proof (resolve_step_extends env url st) as (_ & Hsame & _). by rewrite Hstep in Hsame. }
  assert (Hrun : _download_video env st =
                 (fst (run_batch env opts [] st1), Finished (snd (run_batch env opts [] st1)))).
  { unfold _download_video. fold url. apply String.eqb_neq in Hurl.
    rewrite Hurl, Hff, Hstep. cbn [negb].
    rewrite (same_request_opts st1 st Hsame), Hopts.
    by destruct (run_batch env opts [] st1). }
  rewrite Hrun. clear Hrun Hstep Hsame Hres Hend Hfalsy Hopts Hurl Hff.
  unfold run_batch. cbn [length download_loop lx_app lx_completed lx_path fst snd].
  subst st1 st0. unfold _stop_download.
  destruct st as [dl sr ff dn u sp ft qv pv effs]. cbn [url_entry] in url.
  unfold new_effects. cbn [effects].
  split; [|split].
  - eexists _, _. split; [reflexivity|]. cbn [total_count completed_count path].
    split; [done|]. split; [done|]. split; [done|].
    destruct (ex_user_stop (extract_info env url)), (stop_after_loop env),
      (open_folder_answer env), dl, sr; cbn;
      rewrite <- ?app_assoc, drop_app_length; reflexivity.
  - cbn. intros -> -> ->. cbn. eexists. split; [reflexivity|].
    destruct (open_folder_answer env); cbn; by rewrite <- !app_assoc.
  - cbn. intros -> Hstop.
    assert (Hflag : sr || ex_user_stop (extract_info env url) || stop_after_loop env = true).
    { destruct Hstop as [-> | [-> | ->]]; by rewrite ?orb_true_r. }
    destruct sr, (ex_user_stop (extract_info env url)), (stop_after_loop env); try done;
      cbn; (eexists; split; [reflexivity|]); cbn;
      rewrite <- ?app_assoc, drop_app_length; cbn;
      (split; [tauto|]); (split; [|intros b]); intros H; decompose [or] H; done.
Qed.

Lemma C10_empty_listing_is_success_witness :
  exists st',
    _download_video (Sample.quiet_env (ExtractReturns None)) Sample.active_app
    = (st', Finished (mkSummary 0 0 false Completed [])).
Proof.
  destruct (C10_empty_listing_is_success (Sample.quiet_env (ExtractReturns None))
              Sample.active_app Sample.opts None) as (_ & _ & (st' & Hrun & _) & _);
    try reflexivity; try discriminate.
  by exists st'.
Defined.

(** C10, as stated, fails: the user asks to stop while the listing runs,
    the listing returns None, and the run ends "Download cancelled": the
    progress bar is never set to 100 and no dialog is shown. *)
Lemma C10_counterexample :
  let r := _download_video SampleRun.stop_in_empty_listing_env Sample.active_app in
  resolve Sample.url
    (ex_end (extract_info SampleRun.stop_in_empty_listing_env Sample.url)) = ([], PNone) /\
  snd r = Finished (mkSummary 0 0 true Cancelled []) /\
  effects (fst r) =
    [EStatus TxtFetching "downloading"; EExtractInfo Sample.url;
     EStatus TxtStopping "downloading"; EStatus TxtCancelled "ready";
     EBtnEnabled true; EProgress 0; EBtnText "Download"] /\
  status (mkSummary 0 0 true Cancelled []) <> Completed.
Proof. by vm_compute. Qed.


(** X9. A run of the worker that does not crash leaves the application
    idle: not downloading, stop flag clear, progress bar at 0. The only
    crash is the exception raised while the options are built from the
    quality label; it leaves the downloading flag as it was, with no
    reset. In all cases the request fields are untouched. *)
Theorem worker_leaves_app_idle (env : Env) (st : App) :
  same_request (fst (_download_video env st)) st /\
  (forall e, snd (_download_video env st) = Crashed e ->
     build_ydl_opts st = Raise e /\
     downloading (fst (_download_video env st)) = downloading st) /\
  ((forall e, snd (_download_video env st) <> Crashed e) ->
     idle (fst (_download_video env st))).
Proof.
  destruct (_download_video_request env st) as [Hsame Hout].
  split; [done|].
  destruct (snd (_download_video env st)) as [|e|s]; split; try done.
  - by intros e' [= <-].
  - intros Hno. by destruct (Hno e).
Qed.

Lemma worker_leaves_app_idle_witness :
  idle (fst (_download_video Sample.second_fails_env Sample.active_app)).
Proof.
  apply (worker_leaves_app_idle Sample.second_fails_env Sample.active_app).
  intros e. vm_compute. discriminate.
Defined.

(** X10. From the start of the program on, whatever the user does with
    the controls, however often a download is started and whatever the
    backend does, the quality label is one of the list of the chosen
    kind; so the options can always be built and no run of the worker
    crashes. *)
Theorem no_run_crashes (os : OS) (FFMPEG_PATH DENO_PATH default_path : string)
    (steps : list ui_step) (env : Env) :
  let st := do_steps steps (initial_app os FFMPEG_PATH DENO_PATH default_path) in
  valid_quality st /\
  (exists opts, build_ydl_opts st = Ok opts) /\
  (forall e, snd (_download_video env st) <> Crashed e).
Proof.
  cbn zeta.
  assert (Hinit : valid_quality (initial_app os FFMPEG_PATH DENO_PATH default_path)).
  { unfold initial_app.
    destruct (fst (check_dependencies os FFMPEG_PATH DENO_PATH)) as [[f d] msg].
    unfold valid_quality. cbn. set_solver. }
  assert (Hstep : forall a st, valid_quality st -> valid_quality (do_step a st)).
  { intros [g| |env'] st Hv; cbn.
    - destruct g as [[clip|]|url| | |n|]; cbn; try done.
      + unfold valid_quality. cbn. set_solver.
      + unfold valid_quality. cbn. set_solver.
      + destruct (qualities (format_type st) !! n) as [label|] eqn:Hn; [|done].
        unfold valid_quality. destruct st. cbn in *. by eapply list_elem_of_lookup_2.
      + eapply valid_quality_same; [apply same_request_stop | done].
    - unfold _start_download. destruct (downloading st); cbn.
      + eapply valid_quality_same; [apply same_request_stop | done].
      + destruct (String.eqb _ _); by destruct st.
    - eapply valid_quality_same; [apply _download_video_request | done]. }
  assert (Hall : valid_quality
                   (do_steps steps (initial_app os FFMPEG_PATH DENO_PATH default_path))).
  { unfold do_steps. revert Hinit.
    generalize (initial_app os FFMPEG_PATH DENO_PATH default_path).
    induction steps as [|a steps IH]; intros st Hv; cbn; [done|]. apply IH. by apply Hstep. }
  split; [done|]. destruct (valid_quality_opts _ Hall) as [opts Hopts].
  split; [by exists opts|].
  intros e He.
  pose proof (_download_video_request env
                (do_steps steps (initial_app os FFMPEG_PATH DENO_PATH default_path)))
    as [_ Hout].
  rewrite He in Hout. destruct Hout as [Hraise _]. congruence.
Qed.

Lemma no_run_crashes_witness :
  exists opts,
    build_ydl_opts
      (do_steps [Gesture ClickAudio; Gesture (PickQuality 2); Gesture (TypeUrl Sample.url);
                 PressDownload; WorkerRun Sample.second_fails_env; Gesture ClickVideo]
         (initial_app SampleOS.healthy "/app/bin/ffmpeg" "/app/bin/deno" "/home/user/mdl"))
    = Ok opts.
Proof.
  apply (no_run_crashes SampleOS.healthy "/app/bin/ffmpeg" "/app/bin/deno" "/home/user/mdl"
           [Gesture ClickAudio; Gesture (PickQuality 2); Gesture (TypeUrl Sample.url);
            PressDownload; WorkerRun Sample.second_fails_env; Gesture ClickVideo]
           Sample.second_fails_env).
Defined.

(** X11. Pressing Download while no run is active: when the URL field
    holds nothing but white space, the only thing that happens is the
    error box "Please enter a video URL"; otherwise the downloading flag
    is set, a stop flag left over is cleared, the button reads "Stop" and
    exactly one worker thread is started. The request fields and the
    progress value are untouched in both cases. *)
Theorem start_when_idle (st : App) :
  downloading st = false ->
  (all_space (url_entry st) = true ->
     _start_download st = emit (EShowError "Error" "Please enter a video URL") st) /\
  (all_space (url_entry st) = false ->
     downloading (_start_download st) = true /\
     stop_requested (_start_download st) = false /\
     new_effects st (_start_download st) = [EBtnText "Stop"; EThreadStart]) /\
  same_request (_start_download st) st /\
  progress_var (_start_download st) = progress_var st.
Proof.
  intros Hd. unfold _start_download. rewrite Hd. cbn [negb].
  destruct (all_space (url_entry st)) eqn:Hblank.
  - apply strip_blank in Hblank. rewrite Hblank. cbn. split; [done|]. split; [done|].
    by destruct st.
  - apply strip_not_blank in Hblank. rewrite Hblank. split; [done|].
    split; [|by destruct st]. intros _. split; [by destruct st|]. split; [by destruct st|].
    apply new_effects_app. destruct st. cbn. by rewrite <- app_assoc.
Qed.

Lemma start_when_idle_witness :
  _start_download (set_url_entry "   " (set_downloading false Sample.active_app)) =
  emit (EShowError "Error" "Please enter a video URL")
    (set_url_entry "   " (set_downloading false Sample.active_app)).
Proof.
  apply (start_when_idle (set_url_entry "   " (set_downloading false Sample.active_app)));
    reflexivity.
Defined.

(** X12. The worker gives up before any backend call when the URL field
    holds nothing but white space or ffmpeg is not usable: it resets the
    controls, after showing the dependency error in the second case, and
    makes no listing and no download call. *)
Theorem worker_returns_early (env : Env) (st : App) :
  all_space (url_entry st) = true \/ ffmpeg_ok st = false ->
  snd (_download_video env st) = ReturnedEarly /\
  idle (fst (_download_video env st)) /\
  new_effects st (fst (_download_video env st)) =
    (if all_space (url_entry st) then [] else [EDependencyError]) ++
    [EBtnEnabled true; EProgress 0; EBtnText "Download"] /\
  existsb is_backend_call (new_effects st (fst (_download_video env st))) = false.
Proof.
  intros Hearly. unfold _download_video.
  destruct (all_space (url_entry st)) eqn:Hblank.
  - apply strip_blank in Hblank. rewrite Hblank. cbn [String.eqb fst snd].
    split; [done|]. split; [apply reset_idle|].
    assert (Hnew : new_effects st (_reset_download_state st) =
                   [EBtnEnabled true; EProgress 0; EBtnText "Download"]).
    { apply new_effects_app. destruct st. cbn. by rewrite <- !app_assoc. }
    by rewrite Hnew.
  - destruct Hearly as [|Hff]; [done|].
    apply strip_not_blank in Hblank. rewrite Hblank, Hff. cbn [negb fst snd].
    split; [done|]. split; [apply reset_idle|].
    assert (Hnew : new_effects st (_reset_download_state (emit EDependencyError st)) =
                   [EDependencyError; EBtnEnabled true; EProgress 0; EBtnText "Download"]).
    { apply new_effects_app. destruct st. cbn. by rewrite <- !app_assoc. }
    by rewrite Hnew.
Qed.

Lemma worker_returns_early_witness :
  snd (_download_video (Sample.quiet_env ExtractRaises)
         (set_url_entry "" Sample.active_app)) = ReturnedEarly.
Proof.
  apply (worker_returns_early (Sample.quiet_env ExtractRaises)
           (set_url_entry "" Sample.active_app)).
  by left.
Defined.

(** X13. When the user asks to stop while the listing is still running,
    the run downloads nothing: whatever the listing returns, no download
    call is made, the count of completed downloads is 0, every unit is
    skipped, and the run ends as cancelled. *)
Theorem stop_during_listing (env : Env) (st : App) (opts : ydl_opts) :
  downloading st = true ->
  all_space (url_entry st) = false -> ffmpeg_ok st = true ->
  build_ydl_opts st = Ok opts ->
  ex_user_stop (extract_info env (strip (url_entry st))) = true ->
  exists s,
    snd (_download_video env st) = Finished s /\
    status s = Cancelled /\ cancelled s = true /\ completed_count s = 0 /\
    outcomes s = repeat SkippedByCancellation (total_count s) /\
    download_calls (new_effects st (fst (_download_video env st))) = [].
Proof.
  intros Hdl Hblank Hff Hopts Hstop.
  apply strip_not_blank in Hblank.
  set (url := strip (url_entry st)) in *.
  pose proof (resolve_step_extends env url st) as (_ & Hsame & n0 & Hn0 & _).
  assert (Hflag : stop_requested (fst (resolve_step env url st)) = true /\
                  download_calls (effects (fst (resolve_step env url st))) =
                  download_calls (effects st)).
  { unfold resolve_step. rewrite Hstop.
    destruct (resolve url (ex_end (extract_info env url))) as [es title]. cbn [fst].
    unfold _stop_download. destruct st as [? ? ? ? ? ? ? ? ? effs]. cbn in Hdl. subst. cbn.
    destruct (_ && _); cbn; rewrite ?download_calls_app; cbn; by rewrite ?app_nil_r. }
  destruct Hflag as [Hflag Hcalls].
  unfold _download_video. fold url. rewrite Hblank, Hff. cbn [negb].
  destruct (resolve_step env url st) as [st1 entries]. cbn [fst] in *.
  rewrite (same_request_opts st1 st Hsame), Hopts.
  pose proof (run_batch_summary env opts entries st1) as Hs.
  pose proof (run_batch_downloads env opts entries st1) as (Hdown & _).
  pose proof (run_batch_emits env opts entries st1) as (new & Heffs & _).
  pose proof (at_final_check_extends env opts entries st1) as Hchk.
  apply extends_stop_flag in Hchk.
  2:{ done. }
  cbn zeta in Hs.
  assert (Hloop : download_loop env opts (length entries) 0 entries 0 st1 =
                  mkExit st1 0 (match entries with [] => [] | _ => [IterStopSeen] end)).
  { destruct entries as [|e es]; [done|]. by apply loop_stop_seen. }
  rewrite Hloop, Hchk in Hs. cbn [lx_completed lx_path] in Hs.
  destruct (run_batch env opts entries st1) as [st2 s]. cbn [fst snd] in *.
  exists s. subst s. cbn [status cancelled completed_count total_count path outcomes].
  split; [done|]. split; [done|]. split; [done|]. split; [done|].
  split; [unfold outcomes; cbn; by destruct entries|].
  rewrite (new_effects_app st1 st2 new Heffs) in Hdown.
  cbn [fetched path] in Hdown.
  assert (Hzero : download_calls new = []).
  { rewrite Hdown. by destruct entries. }
  assert (Hzero0 : download_calls n0 = []).
  { apply (app_inv_head (download_calls (effects st))).
    by rewrite <- download_calls_app, <- Hn0, app_nil_r. }
  rewrite (new_effects_app st st2 (n0 ++ new)).
  - by rewrite download_calls_app, Hzero0, Hzero.
  - by rewrite Heffs, Hn0, app_assoc.
Qed.

Lemma stop_during_listing_witness :
  exists s,
    snd (_download_video SampleRun.stop_in_listing_env Sample.active_app) = Finished s /\
    status s = Cancelled.
Proof.
  destruct (stop_during_listing SampleRun.stop_in_listing_env Sample.active_app Sample.opts)
    as (s & Hs & Hstatus & _); [by vm_compute..|].
  exists s. split; [exact Hs | exact Hstatus].
Defined.

(** X14. The progress hook raises nothing but the stop exception, and
    only when the stop flag is set. With the flag clear, an event it
    cannot make sense of is passed over without a trace: a 'downloading'
    event whose progress or speed cannot be computed (a byte count that
    is None or a str, which cannot be divided; a speed of which [int] or
    [format_file_size] raises) and an event of any other status than
    'downloading' and 'finished' leave the state as it is, and the
    download goes on. A speed given as a str is shown when [int] reads a
    number in it. *)
Theorem hook_ignores_bad_events (int_str : string -> result Z) (tc i : nat)
    (entry : entry_data) (d : raw_event) (st : App) :
  (forall e, make_progress_hook int_str tc i entry d st = Raise e ->
     e = Exception "Download stopped by user" /\ stop_requested st = true) /\
  (stop_requested st = false ->
     (py_eq_str (py_get (ev_dict d) "status") "downloading" = true ->
      (exists e, event_progress d = Raise e) \/ (exists e, event_speed int_str d = Raise e) ->
      make_progress_hook int_str tc i entry d st = Ok st) /\
     (py_eq_str (py_get (ev_dict d) "status") "downloading" = false ->
      py_eq_str (py_get (ev_dict d) "status") "finished" = false ->
      make_progress_hook int_str tc i entry d st = Ok st) /\
     (truthy (event_total d) = true ->
      (event_downloaded d = PNone \/ exists s, event_downloaded d = PStr s) ->
      exists e, event_progress d = Raise e) /\
     (forall s z q,
        py_eq_str (py_get (ev_dict d) "status") "downloading" = true ->
        py_get (ev_dict d) "speed" = PStr s -> s <> "" -> int_str s = Ok z ->
        format_file_size_overflows z = false -> event_progress d = Ok q ->
        make_progress_hook int_str tc i entry d st =
          Ok (emit EUpdateIdle
                (_update_status
                   (TxtProgress (i + 1) tc (event_title d entry) q (Some z))
                   "downloading" (set_progress q st))))).
Proof.
  split.
  - intros e. destruct (hook_result int_str tc i entry d st) as [[Hs ->] | (_ & st' & -> & _)];
      [|done]. by intros [= <-].
  - intros Hstop. unfold make_progress_hook. rewrite Hstop. split; [|split; [|split]].
    + intros -> Hbad. unfold report_progress.
      destruct Hbad as [[e ->] | [e He]]; [done|].
      destruct (event_progress d); cbn; [|done]. by rewrite He.
    + by intros -> ->.
    + intros Htotal Hbad. unfold event_progress. rewrite Htotal.
      destruct Hbad as [-> | [s ->]]; cbn; by eexists.
    + intros s z q -> Hspeed Hs Hint Hfits Hq.
      unfold report_progress, event_speed. rewrite Hq, Hspeed. cbn [bind truthy py_int].
      apply String.eqb_neq in Hs. rewrite Hs. cbn [negb]. rewrite Hint. cbn [bind].
      by rewrite Hfits.
Qed.

Lemma hook_ignores_bad_events_witness :
  make_progress_hook Sample.int_unused 1 0 (Sample.entry 1) SampleRun.broken_event Sample.active_app
  = Ok Sample.active_app.
Proof.
  destruct (hook_ignores_bad_events Sample.int_unused 1 0 (Sample.entry 1) SampleRun.broken_event
              Sample.active_app) as [_ Hclear].
  destruct Hclear as (Hbad & _ & Hnone & _); [reflexivity|].
  apply Hbad; [reflexivity|]. left. apply Hnone; [reflexivity|]. by left.
Defined.

(** X15. The URL of a playlist unit is the entry's 'url' when that is
    truthy, else its 'webpage_url' when that is truthy, else the watch
    URL built from str(id); so it is never empty or None. An entry that
    has none of the three keys gets the URL that ends in "v=None". *)
Theorem playlist_entry_url (entry : gmap string pyval) :
  (truthy (py_get entry "url") = true -> e_url (playlist_entry entry) = py_get entry "url") /\
  (truthy (py_get entry "url") = false -> truthy (py_get entry "webpage_url") = true ->
     e_url (playlist_entry entry) = py_get entry "webpage_url") /\
  (truthy (py_get entry "url") = false -> truthy (py_get entry "webpage_url") = false ->
     e_url (playlist_entry entry) =
       PStr ("https://youtube.com/watch?v=" +:+ py_str (py_get entry "id"))) /\
  truthy (e_url (playlist_entry entry)) = true /\
  (entry !! "url" = None -> entry !! "webpage_url" = None -> entry !! "id" = None ->
     playlist_entry entry =
       mkEntry (py_get_default entry "title" (PStr "Unknown"))
               (PStr "https://youtube.com/watch?v=None") PNone).
Proof.
  assert (Hmissing : forall k, entry !! k = None -> truthy (py_get entry k) = false).
  { intros k Hk. unfold py_get. by rewrite Hk. }
  unfold playlist_entry, py_or. cbn [e_url].
  destruct (truthy (py_get entry "url")) eqn:Hurl; rewrite ?Hurl.
  - repeat split; try done. intros Hnone%Hmissing. congruence.
  - destruct (truthy (py_get entry "webpage_url")) eqn:Hweb; rewrite ?Hweb.
    + repeat split; try done. intros _ Hnone%Hmissing. congruence.
    + repeat split; try done. intros _ _ Hid. unfold py_get. by rewrite Hid.
Qed.

Lemma playlist_entry_url_witness :
  playlist_entry {[ "title" := PStr "Lost" ]} =
  mkEntry (PStr "Lost") (PStr "https://youtube.com/watch?v=None") PNone.
Proof.
  destruct (playlist_entry_url {[ "title" := PStr "Lost" ]}) as (_ & _ & _ & _ & Hnone).
  apply Hnone; reflexivity.
Defined.

(** X16. Pasting puts the clipboard text, stripped of the white space
    around it, into the URL field, and leaves the field alone when the
    clipboard cannot be read. Pressing Download after a paste, with no
    run active, starts a run exactly when the clipboard held something
    else than white space, and the URL that the worker will read is the
    stripped clipboard text. *)
Theorem paste_then_start (clipboard : string) (st : App) :
  downloading st = false ->
  _do_paste None st = st /\
  url_entry (_do_paste (Some clipboard) st) = strip clipboard /\
  (all_space clipboard = true ->
     new_effects st (_start_download (_do_paste (Some clipboard) st)) =
       [EShowError "Error" "Please enter a video URL"] /\
     downloading (_start_download (_do_paste (Some clipboard) st)) = false) /\
  (all_space clipboard = false ->
     new_effects st (_start_download (_do_paste (Some clipboard) st)) =
       [EBtnText "Stop"; EThreadStart] /\
     downloading (_start_download (_do_paste (Some clipboard) st)) = true /\
     strip (url_entry (_start_download (_do_paste (Some clipboard) st))) = strip clipboard).
Proof.
  intros Hd. split; [done|]. split; [by destruct st|].
  unfold _start_download, _do_paste.
  assert (Hd' : downloading (set_url_entry (strip clipboard) st) = false) by by destruct st.
  rewrite Hd'. cbn [negb].
  assert (Hurl : url_entry (set_url_entry (strip clipboard) st) = strip clipboard)
    by by destruct st.
  rewrite Hurl, strip_idem. split.
  - intros Hblank%strip_blank. rewrite Hblank. cbn [String.eqb]. split; [|by destruct st].
    apply new_effects_app. by destruct st.
  - intros Hblank. pose proof Hblank as Hne%strip_not_blank. rewrite Hne.
    split; [|split; [by destruct st|]].
    + apply new_effects_app. destruct st. cbn. by rewrite <- app_assoc.
    + destruct st. cbn. apply strip_idem.
Qed.

Lemma paste_then_start_witness :
  url_entry (_do_paste (Some "  https://example.org/v  ")
               (set_downloading false Sample.active_app)) = "https://example.org/v".
Proof.
  destruct (paste_then_start "  https://example.org/v  "
              (set_downloading false Sample.active_app)) as (_ & Hurl & _); [reflexivity|].
  exact Hurl.
Defined.

(* ===================================================================== *)
(** * The status label                                                    *)
(* ===================================================================== *)

Section MarqueeFacts.

Import Marquee.

Variable strip_progress : list N -> list N.








Lemma mod_succ_step (n k : nat) :
  0 < k -> S n mod k = if Nat.leb k (n mod k + 1) then 0 else n mod k + 1.
Proof.
  intros Hk. pose proof (Nat.mod_upper_bound n k ltac:(lia)) as Hp.
  pose proof (Nat.div_mod_eq n k) as Hn.
  destruct (Nat.leb_spec k (n mod k + 1)).
  - symmetry. apply (Nat.mod_unique _ _ (n / k + 1)); lia.
  - symmetry. apply (Nat.mod_unique _ _ (n / k)); lia.
Qed.

Lemma scrolling_tick t w n m : scrolling_at t w n m -> scrolling_at t w (S n) (tick m).
Proof.
  intros (Hw & Hfull & Hdisp & Hs & (j & Ht) & Hpos & Hlab).
  unfold tick. rewrite Ht. unfold _scroll.
  destruct m as [w' full base pos scr job disp lab tms nxt]. cbn in *. subst.
  unfold scrolling_at. cbn. rewrite (mod_succ_step (S n)) by lia.
  destruct (Nat.leb _ _); cbn; repeat split; try done; by eexists.
Qed.

Lemma scrolling_ticks t w k n m :
  scrolling_at t w k m -> scrolling_at t w (k + n) (ticks n m).
Proof.
  revert k m. induction n as [|n IH]; intros k m H; cbn.
  - by rewrite Nat.add_0_r.
  - replace (k + S n) with (S k + n) by lia. apply IH. by apply scrolling_tick.
Qed.

Lemma slice_length a w (s : list N) : a + w <= length s -> length (slice a (a + w) s) = w.
Proof.
  intros H. unfold slice. rewrite length_take, length_drop. lia.
Qed.


Lemma scroll_max_width m : max_width (_scroll m) = max_width m.
Proof.
  unfold _scroll. destruct (negb _); [done|].
  destruct m. cbn. by destruct (Nat.leb _ _).
Qed.

Lemma stop_max_width m : max_width (_stop_marquee m) = max_width m.
Proof. unfold _stop_marquee. cbn. by destruct (scroll_job m). Qed.

Lemma stop_label_text m : label_text (_stop_marquee m) = label_text m.
Proof. unfold _stop_marquee. cbn. by destruct (scroll_job m). Qed.

Lemma scroll_fits m :
  length (label_text m) <= max_width m ->
  length (label_text (_scroll m)) <= max_width m.
Proof.
  intros H. unfold _scroll. destruct (negb _); [done|].
  assert (Hlen : length (slice (scroll_position m) (scroll_position m + max_width m)
                           (display_text m)) <= max_width m).
  { unfold slice. rewrite length_take. lia. }
  destruct m. cbn in *. by destruct (Nat.leb _ _).
Qed.

Lemma handle_fits e m :
  length (label_text m) <= max_width m ->
  max_width (handle strip_progress e m) = max_width m /\
  length (label_text (handle strip_progress e m)) <= max_width m.
Proof.
  intros H. destruct e as [text| |]; cbn.
  - unfold set_text. destruct (Nat.ltb_spec (max_width (set_full text m)) (length text)) as [Hlt|Hle].
    + unfold _start_marquee. set (m1 := set_display _ _).
      assert (H1 : max_width m1 = max_width m /\ label_text m1 = label_text m).
      { unfold m1. destruct (negb _); by destruct m. }
      destruct H1 as [Hw Hl]. clearbody m1.
      destruct (negb (is_scrolling m1)).
      * rewrite scroll_max_width. split; [done|].
        rewrite <- Hw. apply (scroll_fits (set_scrolling true m1)). cbn. by rewrite Hw, Hl.
      * by rewrite Hw, Hl.
    + cbn. rewrite stop_max_width. done.
  - unfold tick. destruct (timers m); [done|].
    rewrite scroll_max_width. split; [done|]. by apply (scroll_fits (mkLabel _ _ _ _ _ _ _ _ _ _)).
  - by rewrite stop_max_width, stop_label_text.
Qed.

Lemma handle_all_fits events m :
  length (label_text m) <= max_width m ->
  max_width (handle_all strip_progress events m) = max_width m /\
  length (label_text (handle_all strip_progress events m)) <= max_width m.
Proof.
  revert m. induction events as [|e events IH]; intros m H; [done|].
  change (handle_all strip_progress (e :: events) m)
    with (handle_all strip_progress events (handle strip_progress e m)).
  destruct (handle_fits e m H) as [Hw Hl].
  destruct (IH (handle strip_progress e m)) as [Hw' Hl']; [by rewrite Hw|].
  split; [by rewrite Hw'|]. by rewrite <- Hw.
Qed.


Lemma set_text_starts m t :
  one_timer m -> is_scrolling m = false ->
  max_width m < length t ->
  strip_progress t <> base_text m \/ scroll_position m = 0 ->
  scrolling_at t (max_width m) 0 (set_text strip_progress t m).
Proof.
  intros H Hs Hlong Hpos. unfold one_timer in H. rewrite Hs in H. destruct H as [Hjob Htm].
  unfold set_text.
  destruct (Nat.ltb_spec (max_width (set_full t m)) (length t)) as [_|Hle]; [|cbn in Hle; lia].
  assert (H1 : 1 mod (length t + 5) = 1) by (apply Nat.mod_small; lia).
  assert (H0 : Nat.leb (length t + 5) (0 + 1) = false) by (apply Nat.leb_gt; lia).
  unfold scrolling_at. rewrite H1, Nat.Div0.mod_0_l.
  destruct m as [w full base pos scr job disp lab tms nxt]. cbn in *. subst.
  unfold _start_marquee, _scroll.
  case_bool_decide as Hb; cbn.
  - destruct Hpos as [Hne| ->]; [done|]. cbn. rewrite H0. cbn.
    repeat split; try done. by eexists.
  - rewrite H0. cbn. repeat split; try done. by eexists.
Qed.


(** X18. A label created with a text of at most [max_width] characters
    never shows more than [max_width] characters, whatever texts are set
    and whenever the timer fires; [max_width] itself never changes. *)
Theorem marquee_width_bounded (w : nat) (text : list N) (events : list event) :
  length text <= w ->
  let m := handle_all strip_progress events (init w text) in
  max_width m = w /\ length (label_text m) <= w.
Proof.
  intros H m. by apply (handle_all_fits events (init w text)).
Qed.


(** X20. A text longer than [max_width], set on a label that does not
    scroll, starts the marquee: after [n] firings of the timer the label
    shows the window of exactly [max_width] characters of
    text + separator + text that starts at [n mod (len(text) + 5)]. *)
Theorem marquee_window (m : Label) (t : list N) (n : nat) :
  one_timer m -> is_scrolling m = false ->
  max_width m < length t ->
  strip_progress t <> base_text m \/ scroll_position m = 0 ->
  let m' := ticks n (set_text strip_progress t m) in
  let p := n mod (length t + 5) in
  label_text m' = slice p (p + max_width m) (t ++ separator ++ t) /\
  length (label_text m') = max_width m /\
  scroll_position m' = S n mod (length t + 5) /\
  is_scrolling m' = true.
Proof.
  intros H Hs Hlong Hpos m' p.
  pose proof (scrolling_ticks t (max_width m) 0 n _ (set_text_starts m t H Hs Hlong Hpos))
    as (_ & _ & _ & Hscr & _ & Hp & Hl).
  fold m' in Hscr, Hp, Hl. cbn [Nat.add] in Hp, Hl. fold p in Hl.
  repeat split; try done.
  rewrite Hl. apply slice_length.
  pose proof (Nat.mod_upper_bound n (length t + 5) ltac:(lia)) as Hb. fold p in Hb.
  rewrite !length_app. cbn. lia.
Qed.

(** X21. A long text set while the label scrolls neither changes what is
    shown nor schedules a callback: the scroll goes on from its position
    when the text without its progress suffix is the one already shown,
    and from 0 otherwise, and the next firing of the timer shows the
    window of the new text at that position. *)
Theorem marquee_update_while_scrolling (m : Label) (t : list N) :
  one_timer m -> is_scrolling m = true ->
  max_width m < length t ->
  let m1 := set_text strip_progress t m in
  let p := if bool_decide (strip_progress t = base_text m)
           then scroll_position m else 0 in
  label_text m1 = label_text m /\ timers m1 = timers m /\
  scroll_position m1 = p /\
  label_text (tick m1) = slice p (p + max_width m) (t ++ separator ++ t).
Proof.
  intros H Hs Hlong m1 p. unfold one_timer in H. rewrite Hs in H.
  destruct H as (j & Hj & Ht).
  unfold m1, p, set_text.
  destruct (Nat.ltb_spec (max_width (set_full t m)) (length t)) as [_|Hle]; [|cbn in Hle; lia].
  destruct m as [w full base pos scr job disp lab tms nxt]. cbn in *. subst.
  unfold _start_marquee, tick, _scroll.
  case_bool_decide; cbn; repeat split; by destruct (Nat.leb _ _).
Qed.

End MarqueeFacts.


Lemma marquee_width_bounded_witness :
  let m := Marquee.handle_all (fun t => t)
             [Marquee.SetText [1; 2; 3; 4; 5; 6]%N; Marquee.Tick; Marquee.Tick]
             (Marquee.init 3 [7; 8]%N) in
  Marquee.max_width m = 3 /\ length (Marquee.label_text m) <= 3.
Proof.
  apply (marquee_width_bounded (fun t => t) 3 [7; 8]%N). cbn. lia.
Defined.


Lemma marquee_window_witness :
  Marquee.label_text
    (Marquee.ticks 7 (Marquee.set_text (fun t => t) [1; 2; 3; 4]%N (Marquee.init 3 [])))
  = [32; 32; 1]%N.
Proof.
  destruct (marquee_window (fun t => t) (Marquee.init 3 []) [1; 2; 3; 4]%N 7)
    as (Hshown & _); [by cbn | reflexivity | cbn; lia | by left |].
  exact Hshown.
Defined.

Lemma marquee_update_while_scrolling_witness :
  Marquee.label_text
    (Marquee.tick
       (Marquee.set_text (fun t => t) [5; 6; 7; 8; 9]%N
          (Marquee.set_text (fun t => t) [1; 2; 3; 4]%N (Marquee.init 3 []))))
  = [5; 6; 7]%N.
Proof.
  destruct (marquee_update_while_scrolling (fun t => t)
              (Marquee.set_text (fun t => t) [1; 2; 3; 4]%N (Marquee.init 3 []))
              [5; 6; 7; 8; 9]%N)
    as (_ & _ & _ & Hnext); [vm_compute; by exists 0 | reflexivity | vm_compute; lia |].
  exact Hnext.
Defined.

(* ===================================================================== *)
(** * The tooltip                                                         *)
(* ===================================================================== *)

Section ToolTipFacts.

Import ToolTip.

Lemma hide_clears t :
  consistent t ->
  tooltip_window (_hide_tooltip t) = None /\ scheduled_id (_hide_tooltip t) = None /\
  timers (_hide_tooltip t) = [] /\ windows (_hide_tooltip t) = [].
Proof.
  intros [Hw Ht]. unfold _hide_tooltip.
  destruct t as [tw sid tms wins nxt]. cbn in *. subst.
  destruct Ht as [->|(-> & j & -> & ->)].
  - destruct sid, tw; cbn; by rewrite ?Nat.eqb_refl.
  - cbn. by rewrite Nat.eqb_refl.
Qed.

Lemma handle_consistent e t : consistent t -> consistent (handle e t).
Proof.
  intros H. pose proof (hide_clears t H) as (Hw & Hs & Ht & Hwins).
  destruct e; cbn.
  - unfold _schedule_tooltip, consistent. cbn. rewrite Hw, Ht, Hwins.
    split; [done|]. right. split; [done|]. by eexists.
  - unfold consistent. rewrite Hw, Ht, Hwins. split; [done | by left].
  - unfold consistent. rewrite Hw, Ht, Hwins. split; [done | by left].
  - destruct H as [Hwin Htm].
    destruct t as [tw sid tms wins nxt]. cbn in *. subst.
    destruct Htm as [->|(-> & j & -> & ->)]; [split; [done | by left]|].
    cbn. split; [done | by left].
Qed.

Lemma handle_all_consistent events t :
  consistent t -> consistent (handle_all events t).
Proof.
  revert t. induction events as [|e events IH]; intros t H; [done|].
  apply (IH (handle e t)). by apply handle_consistent.
Qed.

(** X22. Whatever the pointer does over a widget and whenever the delay
    runs out, at most one tooltip window is open and at most one
    callback is pending, never both at once; leaving the widget or
    clicking it closes the window and cancels the callback, and entering
    it leaves exactly one callback pending and no window open. *)
Theorem tooltip_single_window (events : list event) :
  let t := handle_all events init in
  length (windows t) <= 1 /\ length (timers t) <= 1 /\
  (windows t = [] \/ timers t = []) /\
  (windows (handle Leave t) = [] /\ timers (handle Leave t) = []) /\
  (windows (handle Button1 t) = [] /\ timers (handle Button1 t) = []) /\
  (windows (handle Enter t) = [] /\ length (timers (handle Enter t)) = 1).
Proof.
  intros t.
  assert (H : consistent t).
  { apply handle_all_consistent. split; [done | by left]. }
  pose proof (hide_clears t H) as (Hw & Hs & Ht & Hwins).
  destruct H as [Hwin Htm].
  assert (Hlen : length (windows t) <= 1).
  { rewrite Hwin. destruct (tooltip_window t); cbn; lia. }
  repeat split; try done.
  - destruct Htm as [->|(_ & j & _ & ->)]; cbn; lia.
  - destruct Htm as [->|(Hnone & _)]; [by right|]. left. by rewrite Hwin, Hnone.
  - cbn. unfold _schedule_tooltip. cbn. by rewrite Ht.
Qed.

End ToolTipFacts.
